(** * Embedded dashboard-asset bootstrap (package [dashboardassets])

    A shallow embedding of [Ensure], [updateAssetVersionFile],
    [installedAsstesMatchAppVersion], [loadReportAssetVersionFile] and
    [extractTarGz], together with executable models of the library
    calls they make (path/filepath, os, encoding/json, archive/tar)
    and of the helper of pipe-fittings that ensures the destination
    root, and the properties of the bootstrap that follow from them;
    and, of package [cmd], [getVerb], [getInstallationResultString]
    and [buildInstallSummary]. *)

From Stdlib Require Import String Ascii NArith ZArith List Bool Lia DecimalString.
From stdpp Require Import base option list gmap strings.

Local Open Scope string_scope.
Local Open Scope list_scope.

(** Go strings are byte sequences: [string] (a list of 8-bit [ascii]). *)

(* ===================================================================== *)
(** ** path/filepath (Unix)                                               *)
(* ===================================================================== *)

Module filepath.

Definition Separator : ascii := "/"%char.

(** [strings.Split s "/"]: the elements between separators; never empty. *)
Fixpoint split (s : string) : list string :=
  match s with
  | EmptyString => [EmptyString]
  | String c r =>
      if Ascii.eqb c Separator then EmptyString :: split r
      else match split r with
           | x :: xs => String c x :: xs
           | [] => [String c EmptyString]
           end
  end.

(** [strings.Join elems "/"]. *)
Fixpoint join (l : list string) : string :=
  match l with
  | [] => EmptyString
  | [x] => x
  | x :: rest => x ++ String Separator (join rest)
  end.

(** State of the lexical walk of [Clean]: [up] counts the leading
    [..] elements that could not be cancelled (the prefix below Go's
    [dotdot] index), [elems] holds the real elements written after
    them, innermost first. *)
Record walk_state := WS { up : nat; elems : list string }.

(** One path element, as the loop body of [Clean] treats it. *)
Definition step (rooted : bool) (st : walk_state) (c : string) : walk_state :=
  if String.eqb c "" then st                       (* empty path element *)
  else if String.eqb c "." then st                 (* . element *)
  else if String.eqb c ".." then                   (* .. element *)
    match elems st with
    | _ :: below => WS (up st) below               (* can backtrack *)
    | [] => if rooted then st else WS (S (up st)) []
    end
  else WS (up st) (c :: elems st).                 (* real path element *)

Definition walk (rooted : bool) (st : walk_state) (cs : list string) : walk_state :=
  fold_left (step rooted) cs st.

Definition output (st : walk_state) : list string :=
  repeat ".." (up st) ++ rev (elems st).

Definition is_rooted (s : string) : bool :=
  match s with
  | String c _ => Ascii.eqb c Separator
  | EmptyString => false
  end.

(** [filepath.Clean]. *)
Definition Clean (path : string) : string :=
  if String.eqb path "" then "."
  else
    let rooted := is_rooted path in
    let out := output (walk rooted (WS 0 []) (split path)) in
    if rooted then String Separator (join out)
    else match out with
         | [] => "."                               (* turn empty string into "." *)
         | _ => join out
         end.

(** [filepath.Join] of two elements: the first non-empty element
    onwards is joined with separators and cleaned. *)
Definition Join (a b : string) : string :=
  if negb (String.eqb a "") then Clean (a ++ String Separator b)
  else if negb (String.eqb b "") then Clean b
  else "".

End filepath.

(** A resolved location in the file tree: the element names from the
    root down. *)
Abbreviation path := (list string).

(** Kernel path resolution of the string handed to a system call.  There
    are no symbolic links, so [..] is the parent and the root is its own
    parent; the working directory of the process is the root.  The
    resolution is lexical, which is the kernel's on the clean paths the
    package passes (every target is built by [filepath.Join]); on an
    empty name, or on [x/..] where [x] is missing or a regular file,
    the kernel reports an error and this resolution does not. *)
Definition resolve (s : string) : path :=
  rev (filepath.elems (filepath.walk true (filepath.WS 0 []) (filepath.split s))).

(* ===================================================================== *)
(** ** Errors                                                             *)
(* ===================================================================== *)

Inductive errno := ENOENT | ENOTDIR | EISDIR | EEXIST | EIO.

(** Go [error] values that can reach this package. *)
Inductive error :=
| io_EOF
| PathError (op : string) (p : path) (e : errno)       (* *fs.PathError *)
| fs_ErrNotExist (name : string)                       (* embed.FS Open *)
| StreamError (msg : string)                           (* gzip / tar decoding *)
| json_SyntaxError
| json_UnmarshalTypeError (value : string)
| sperr_New (msg : string)
| sperr_WrapWithMessage (cause : error) (msg : string).

Definition is_EOF (e : error) : bool :=
  match e with io_EOF => true | _ => false end.

(* ===================================================================== *)
(** ** The disk                                                           *)
(* ===================================================================== *)

Inductive node := Dir | File (content : string).

(** Operations the environment may refuse on a given location. *)
Inductive io_op := OpMkdir | OpOpenWrite | OpWrite | OpRead.

#[global] Instance io_op_eq_dec : EqDecision io_op.
Proof. solve_decision. Defined.

Definition io_op_code (o : io_op) : nat :=
  match o with OpMkdir => 0 | OpOpenWrite => 1 | OpWrite => 2 | OpRead => 3 end.
Definition io_op_of_code (n : nat) : option io_op :=
  match n with
  | 0 => Some OpMkdir | 1 => Some OpOpenWrite | 2 => Some OpWrite | 3 => Some OpRead
  | _ => None
  end.

#[global] Instance io_op_countable : Countable io_op.
Proof.
  apply (inj_countable io_op_code io_op_of_code). by intros [].
Defined.

(** The file tree: a regular file with its bytes, or a directory with
    its entries by name. *)
#[local] Set Warnings "-register-all".
Inductive tree :=
| TFile (content : string)
| TDir (entries : gmap string tree).

Definition kind (t : tree) : node :=
  match t with
  | TFile c => File c
  | TDir _ => Dir
  end.

(** [root] holds the entries of the root directory; [faults] lists the
    operations that fail with [EIO] (bad medium, exhausted quota,
    revoked permission, ...). *)
Record Disk := mkDisk {
  root : gmap string tree;
  faults : gset (io_op * path)
}.

Definition faulty (d : Disk) (o : io_op) (p : path) : bool :=
  bool_decide ((o, p) ∈ faults d).

Inductive stat_result := Found (n : node) | Missing (e : errno).

(** Walk down the element names as the kernel does: a missing element
    is [ENOENT], an element below a regular file is [ENOTDIR]. *)
Fixpoint tlookup (t : tree) (p : path) : stat_result :=
  match p with
  | [] => Found (kind t)
  | c :: p' =>
      match t with
      | TFile _ => Missing ENOTDIR
      | TDir ch =>
          match ch !! c with
          | None => Missing ENOENT
          | Some t' => tlookup t' p'
          end
      end
  end.

(** Replace or create the node at [p]; nothing happens unless the
    parent of [p] is an existing directory. *)
Fixpoint tput (t : tree) (p : path) (new : tree) : tree :=
  match p with
  | [] => new
  | c :: p' =>
      match t with
      | TFile _ => t
      | TDir ch =>
          match ch !! c with
          | Some t' => TDir (<[c := tput t' p' new]> ch)
          | None =>
              match p' with
              | [] => TDir (<[c := new]> ch)
              | _ => t
              end
          end
      end
  end.

Definition stat (d : Disk) (p : path) : stat_result := tlookup (TDir (root d)) p.

Definition parent (p : path) : path := removelast p.

Definition put (d : Disk) (p : path) (n : tree) : Disk :=
  match p with
  | [] => d
  | _ =>
      match tput (TDir (root d)) p n with
      | TDir ch => mkDisk ch (faults d)
      | TFile _ => d
      end
  end.

(* ===================================================================== *)
(** ** Observable actions and the IO monad                                *)
(* ===================================================================== *)

Inductive log_level := Info | Error.

Inductive Event :=
| EvStat (name : string)                     (* os.Stat *)
| EvReadFile (name : string)                 (* os.ReadFile *)
| EvOpenEmbedded (name : string)             (* embed.FS.Open *)
| EvMkdirAll (name : string)                 (* os.MkdirAll *)
| EvCreate (name : string)                   (* os.Create *)
| EvCopy (name : string) (data : string)     (* io.Copy into the open file *)
| EvWriteFile (name : string) (data : string)(* os.WriteFile *)
| EvStatus (msg : string)                    (* statushooks.SetStatus *)
| EvLog (lvl : log_level) (msg : string)     (* slog *)
| EvLogTime (msg : string).                  (* logging.LogTime *)

(** Calls that may modify the file tree. *)
Definition is_write (e : Event) : bool :=
  match e with
  | EvMkdirAll _ | EvCreate _ | EvCopy _ _ | EvWriteFile _ _ => true
  | _ => false
  end.

(** The location a mutating call names, if any. *)
Definition written_name (e : Event) : option string :=
  match e with
  | EvMkdirAll n | EvCreate n | EvCopy n _ | EvWriteFile n _ => Some n
  | _ => None
  end.

Record Run (A : Type) := mkRun {
  disk_of : Disk;
  log_of : list Event;
  val_of : A
}.
Arguments mkRun {A} _ _ _.
Arguments disk_of {A} _.
Arguments log_of {A} _.
Arguments val_of {A} _.

(** A computation reads and updates the disk, appends to the log of
    observable actions and returns a value. *)
Definition IO (A : Type) : Type := Disk → Run A.

#[global] Instance IO_ret : MRet IO := λ A a d, mkRun d [] a.
#[global] Instance IO_bind : MBind IO := λ A B k m d,
  let r := m d in
  let r' := k (val_of r) (disk_of r) in
  mkRun (disk_of r') (log_of r ++ log_of r') (val_of r').

Definition emit (e : Event) : IO unit := λ d, mkRun d [e] tt.
Definition get_disk : IO Disk := λ d, mkRun d [] d.
Definition set_disk (d' : Disk) : IO unit := λ _, mkRun d' [] tt.

(* ===================================================================== *)
(** ** os                                                                 *)
(* ===================================================================== *)

Module os.

(** mkdir(2) on a resolved location. *)
Definition mkdir (p : path) (d : Disk) : Disk * option errno :=
  match stat d p with
  | Found _ => (d, Some EEXIST)
  | Missing _ =>
      match stat d (parent p) with
      | Found Dir =>
          if faulty d OpMkdir p then (d, Some EIO)
          else (put d p (TDir ∅), None)
      | Found (File _) => (d, Some ENOTDIR)
      | Missing e => (d, Some e)
      end
  end.

(** The recursion of [os.MkdirAll], on the location written innermost
    element first: an existing directory is success, an existing file
    is [ENOTDIR], otherwise the parent is ensured and then the
    directory itself is made. *)
Fixpoint mkdir_all (rp : list string) (d : Disk) : Disk * option errno :=
  match stat d (rev rp) with
  | Found Dir => (d, None)
  | Found (File _) => (d, Some ENOTDIR)
  | Missing _ =>
      match rp with
      | [] => (d, None)
      | _ :: rparent =>
          match mkdir_all rparent d with
          | (d', Some e) => (d', Some e)
          | (d', None) => mkdir (rev rp) d'
          end
      end
  end.

Definition MkdirAll (name : string) : IO (option error) :=
  emit (EvMkdirAll name);;
  d ← get_disk;
  let '(d', r) := mkdir_all (rev (resolve name)) d in
  set_disk d';;
  mret (match r with
        | Some e => Some (PathError "mkdir" (resolve name) e)
        | None => None
        end).

(** open(2) with O_CREATE|O_TRUNC for writing: the file is created
    empty or truncated. *)
Definition open_trunc (p : path) (d : Disk) : Disk * option errno :=
  match stat d p with
  | Found Dir => (d, Some EISDIR)
  | Found (File _) =>
      if faulty d OpOpenWrite p then (d, Some EIO) else (put d p (TFile ""), None)
  | Missing ENOENT =>
      match stat d (parent p) with
      | Found Dir =>
          if faulty d OpOpenWrite p then (d, Some EIO) else (put d p (TFile ""), None)
      | Found (File _) => (d, Some ENOTDIR)
      | Missing e => (d, Some e)
      end
  | Missing e => (d, Some e)
  end.

(** write(2) of [data] at the current offset of a file just opened
    with [open_trunc]; a refused write leaves the file as it is. *)
Definition write (p : path) (data : string) (d : Disk) : Disk * option errno :=
  if faulty d OpWrite p then (d, Some EIO)
  else (put d p (TFile data), None).

(** [os.Create]: on success the result is the open file, identified
    by the name it was opened under. *)
Definition Create (name : string) : IO (string + error) :=
  emit (EvCreate name);;
  d ← get_disk;
  let '(d', r) := open_trunc (resolve name) d in
  set_disk d';;
  mret (match r with
        | Some e => inr (PathError "open" (resolve name) e)
        | None => inl name
        end).

(** [os.WriteFile]: open with O_WRONLY|O_CREATE|O_TRUNC, write, close. *)
Definition WriteFile (name : string) (data : string) : IO (option error) :=
  emit (EvWriteFile name data);;
  d ← get_disk;
  let '(d1, r1) := open_trunc (resolve name) d in
  match r1 with
  | Some e => set_disk d1;; mret (Some (PathError "open" (resolve name) e))
  | None =>
      let '(d2, r2) := write (resolve name) data d1 in
      set_disk d2;;
      mret (match r2 with
            | Some e => Some (PathError "write" (resolve name) e)
            | None => None
            end)
  end.

(** [os.ReadFile]: the bytes read and the error; a call that fails has
    read no bytes. *)
Definition ReadFile (name : string) : IO (string * option error) :=
  emit (EvReadFile name);;
  d ← get_disk;
  mret (match stat d (resolve name) with
        | Found (File c) =>
            if faulty d OpRead (resolve name)
            then ("", Some (PathError "read" (resolve name) EIO))
            else (c, None)
        | Found Dir => ("", Some (PathError "read" (resolve name) EISDIR))
        | Missing e => ("", Some (PathError "open" (resolve name) e))
        end).

End os.

Module filehelpers.

(** go-kit [files.FileExists]: [os.Stat] and report false only when
    the error is "does not exist". *)
Definition FileExists (name : string) : IO bool :=
  emit (EvStat name);;
  d ← get_disk;
  mret (match stat d (resolve name) with
        | Missing ENOENT => false
        | _ => true
        end).

End filehelpers.

(* ===================================================================== *)
(** ** unicode/utf8                                                       *)
(* ===================================================================== *)

Module utf8.

Local Open Scope N_scope.

Definition byte_val (c : ascii) : N := N_of_ascii c.
Definition of_byte (n : N) : ascii := ascii_of_N n.

Definition RuneSelf : N := 128.
Definition RuneError : N := 65533.              (* U+FFFD *)

Definition in_range (lo hi : N) (c : ascii) : bool :=
  (lo <=? byte_val c) && (byte_val c <=? hi).

Definition low6 (c : ascii) : N := N.land (byte_val c) 63.

(** [utf8.DecodeRune]: the first rune of [s] and its width in bytes;
    [(RuneError, 1)] for an invalid or truncated encoding. *)
Definition DecodeRune (s : string) : N * nat :=
  match s with
  | EmptyString => (RuneError, 0%nat)
  | String c0 r =>
      let b0 := byte_val c0 in
      if b0 <? 128 then (b0, 1%nat)
      else if (b0 <? 194) || (244 <? b0) then (RuneError, 1%nat)
      else if b0 <? 224 then
        match r with
        | String c1 _ =>
            if in_range 128 191 c1
            then (N.lor (N.shiftl (N.land b0 31) 6) (low6 c1), 2%nat)
            else (RuneError, 1%nat)
        | _ => (RuneError, 1%nat)
        end
      else if b0 <? 240 then
        match r with
        | String c1 (String c2 _) =>
            let lo := if b0 =? 224 then 160 else 128 in
            let hi := if b0 =? 237 then 159 else 191 in
            if in_range lo hi c1 && in_range 128 191 c2
            then (N.lor (N.shiftl (N.land b0 15) 12)
                    (N.lor (N.shiftl (low6 c1) 6) (low6 c2)), 3%nat)
            else (RuneError, 1%nat)
        | _ => (RuneError, 1%nat)
        end
      else
        match r with
        | String c1 (String c2 (String c3 _)) =>
            let lo := if b0 =? 240 then 144 else 128 in
            let hi := if b0 =? 244 then 143 else 191 in
            if in_range lo hi c1 && in_range 128 191 c2 && in_range 128 191 c3
            then (N.lor (N.shiftl (N.land b0 7) 18)
                    (N.lor (N.shiftl (low6 c1) 12)
                       (N.lor (N.shiftl (low6 c2) 6) (low6 c3))), 4%nat)
            else (RuneError, 1%nat)
        | _ => (RuneError, 1%nat)
        end
  end.

Definition cont (n : N) : ascii := of_byte (N.lor 128 (N.land n 63)).

(** [utf8.EncodeRune]; surrogates and out-of-range values are written
    as U+FFFD. *)
Definition EncodeRune (r : N) : string :=
  let r := if ((55296 <=? r) && (r <=? 57343)) || (1114111 <? r)
           then RuneError else r in
  if r <? 128 then String (of_byte r) ""
  else if r <? 2048 then
    String (of_byte (N.lor 192 (N.shiftr r 6))) (String (cont r) "")
  else if r <? 65536 then
    String (of_byte (N.lor 224 (N.shiftr r 12)))
      (String (cont (N.shiftr r 6)) (String (cont r) ""))
  else
    String (of_byte (N.lor 240 (N.shiftr r 18)))
      (String (cont (N.shiftr r 12))
         (String (cont (N.shiftr r 6)) (String (cont r) ""))).

End utf8.

(* ===================================================================== *)
(** ** encoding/json                                                      *)
(* ===================================================================== *)

Module json.

Import utf8.
Local Open Scope N_scope.

Definition is_byte (c : ascii) (n : N) : bool := byte_val c =? n.

Definition quote : ascii := of_byte 34.
Definition backslash : ascii := of_byte 92.

(** *** Encoding of strings ([appendString] with HTML escaping) *)

Definition hex_digit (n : N) : ascii :=
  if n <? 10 then of_byte (48 + n) else of_byte (87 + n).

(** Bytes below [RuneSelf] that are written as they are. *)
Definition htmlSafe (c : ascii) : bool :=
  let b := byte_val c in
  (32 <=? b) && negb (b =? 34) && negb (b =? 92)
  && negb (b =? 60) && negb (b =? 62) && negb (b =? 38).

Definition escape_byte (c : ascii) : string :=
  let b := byte_val c in
  if htmlSafe c then String c ""
  else if (b =? 92) || (b =? 34) then String backslash (String c "")
  else if b =? 8 then String backslash "b"
  else if b =? 12 then String backslash "f"
  else if b =? 10 then String backslash "n"
  else if b =? 13 then String backslash "r"
  else if b =? 9 then String backslash "t"
  else String backslash
         (String "u" (String "0" (String "0"
            (String (hex_digit (N.shiftr b 4))
               (String (hex_digit (N.land b 15)) ""))))).

(** How the bytes of a multi-byte rune already decoded are treated. *)
Inductive pending := Copy (k : nat) | Skip (k : nat).

Fixpoint appendString_from (m : pending) (src : string) : string :=
  match src with
  | EmptyString => ""
  | String c r =>
      match m with
      | Copy (S k) => String c (appendString_from (Copy k) r)
      | Skip (S k) => appendString_from (Skip k) r
      | _ =>
          if byte_val c <? RuneSelf then
            escape_byte c ++ appendString_from (Copy 0) r
          else
            let '(rune, size) := DecodeRune src in
            if (rune =? RuneError) && Nat.eqb size 1 then
              String backslash "ufffd" ++ appendString_from (Copy 0) r
            else if (rune =? 8232) || (rune =? 8233) then
              String backslash
                (String "u" (String "2" (String "0" (String "2"
                   (String (hex_digit (N.land rune 15)) "")))))
                ++ appendString_from (Skip (Nat.pred size)) r
            else String c (appendString_from (Copy (Nat.pred size)) r)
      end
  end.

Definition appendString (src : string) : string :=
  String quote (appendString_from (Copy 0) src ++ String quote "").

(** [json.Marshal] of a struct whose fields are strings, given as the
    list of (json tag, value) in declaration order.  It cannot fail. *)
Fixpoint marshal_fields (fields : list (string * string)) : string :=
  match fields with
  | [] => ""
  | [(k, v)] => appendString k ++ ":" ++ appendString v
  | (k, v) :: rest =>
      appendString k ++ ":" ++ appendString v ++ "," ++ marshal_fields rest
  end.

Definition Marshal (fields : list (string * string)) : string * option error :=
  (("{" ++ marshal_fields fields ++ "}")%string, None).

(** *** Tokens *)

Inductive token :=
| TLBrace | TRBrace | TLBrack | TRBrack | TComma | TColon
| TString (raw : string)          (* the bytes between the quotes *)
| TWord (raw : string).           (* a literal or a number *)

Inductive lex_state :=
| LOut
| LStr (acc : list ascii) (esc : bool)
| LWord (acc : list ascii).

Definition of_rev (acc : list ascii) : string :=
  string_of_list_ascii (rev acc).

Definition isSpace (c : ascii) : bool :=
  let b := byte_val c in
  (b =? 32) || (b =? 9) || (b =? 13) || (b =? 10).

Definition out_step (c : ascii) (toks : list token) : lex_state * list token :=
  let b := byte_val c in
  if isSpace c then (LOut, toks)
  else if b =? 123 then (LOut, TLBrace :: toks)
  else if b =? 125 then (LOut, TRBrace :: toks)
  else if b =? 91 then (LOut, TLBrack :: toks)
  else if b =? 93 then (LOut, TRBrack :: toks)
  else if b =? 44 then (LOut, TComma :: toks)
  else if b =? 58 then (LOut, TColon :: toks)
  else if b =? 34 then (LStr [] false, toks)
  else (LWord [c], toks).

Definition is_delim (c : ascii) : bool :=
  let b := byte_val c in
  isSpace c || (b =? 123) || (b =? 125) || (b =? 91) || (b =? 93)
  || (b =? 44) || (b =? 58) || (b =? 34).

(** One pass over the input; [toks] is the reversed list of tokens
    read so far.  [None]: the input ends inside a string literal. *)
Fixpoint lex (st : lex_state) (toks : list token) (s : string)
  : option (list token) :=
  match s with
  | EmptyString =>
      match st with
      | LOut => Some (rev toks)
      | LWord acc => Some (rev (TWord (of_rev acc) :: toks))
      | LStr _ _ => None
      end
  | String c r =>
      match st with
      | LOut => let '(st', toks') := out_step c toks in lex st' toks' r
      | LStr acc true => lex (LStr (c :: acc) false) toks r
      | LStr acc false =>
          if is_byte c 34 then lex LOut (TString (of_rev acc) :: toks) r
          else lex (LStr (c :: acc) (is_byte c 92)) toks r
      | LWord acc =>
          if is_delim c then
            let '(st', toks') := out_step c (TWord (of_rev acc) :: toks) in
            lex st' toks' r
          else lex (LWord (c :: acc)) toks r
      end
  end.

(** *** String literals *)

Definition hex_val (c : ascii) : option N :=
  let b := byte_val c in
  if (48 <=? b) && (b <=? 57) then Some (b - 48)
  else if (97 <=? b) && (b <=? 102) then Some (b - 87)
  else if (65 <=? b) && (b <=? 70) then Some (b - 55)
  else None.

Definition getu4 (h1 h2 h3 h4 : ascii) : option N :=
  match hex_val h1, hex_val h2, hex_val h3, hex_val h4 with
  | Some a, Some b, Some c, Some d => Some (((a * 16 + b) * 16 + c) * 16 + d)
  | _, _, _, _ => None
  end.

Definition IsSurrogate (r : N) : bool := (55296 <=? r) && (r <? 57344).

(** [utf16.DecodeRune]. *)
Definition utf16_DecodeRune (r1 r2 : N) : N :=
  if (55296 <=? r1) && (r1 <? 56320) && (56320 <=? r2) && (r2 <? 57344)
  then N.lor (N.shiftl (r1 - 55296) 10) (r2 - 56320) + 65536
  else RuneError.

(** The second half of a surrogate pair, when the input continues
    with a well-formed [\uXXXX]. *)
Definition next_u4 (s : string) : option (N * string) :=
  match s with
  | String b (String u (String g1 (String g2 (String g3 (String g4 r))))) =>
      if is_byte b 92 && is_byte u 117 then
        match getu4 g1 g2 g3 g4 with
        | Some rr => Some (rr, r)
        | None => None
        end
      else None
  | _ => None
  end.

Definition simple_escape (e : ascii) : option ascii :=
  let b := byte_val e in
  if (b =? 34) || (b =? 92) || (b =? 47) then Some e
  else if b =? 98 then Some (of_byte 8)
  else if b =? 102 then Some (of_byte 12)
  else if b =? 110 then Some (of_byte 10)
  else if b =? 114 then Some (of_byte 13)
  else if b =? 116 then Some (of_byte 9)
  else None.

(** The value of a string literal from the bytes between its quotes:
    [None] when the scanner rejects them (control character, bare
    quote, bad escape); invalid UTF-8 is replaced by U+FFFD.  [k] is
    the number of bytes still to copy of a rune already decoded. *)
Fixpoint unquote_from (k : nat) (s : string) : option string :=
  match s with
  | EmptyString => Some ""
  | String c r =>
      match k with
      | S k' => String c <$> unquote_from k' r
      | O =>
          if is_byte c 92 then
            match r with
            | EmptyString => None
            | String e r1 =>
                if is_byte e 117 then
                  match r1 with
                  | String h1 (String h2 (String h3 (String h4 r2))) =>
                      match getu4 h1 h2 h3 h4 with
                      | None => None
                      | Some rr =>
                          if IsSurrogate rr then
                            match r2 with
                            | String b (String u (String g1 (String g2
                                (String g3 (String g4 r3))))) =>
                                let pair :=
                                  if is_byte b 92 && is_byte u 117 then
                                    match getu4 g1 g2 g3 g4 with
                                    | Some rr1 => utf16_DecodeRune rr rr1
                                    | None => RuneError
                                    end
                                  else RuneError in
                                if pair =? RuneError
                                then (λ t, EncodeRune RuneError ++ t)%string
                                       <$> unquote_from 0 r2
                                else (λ t, EncodeRune pair ++ t)%string
                                       <$> unquote_from 0 r3
                            | _ => (λ t, EncodeRune RuneError ++ t)%string
                                     <$> unquote_from 0 r2
                            end
                          else (λ t, EncodeRune rr ++ t)%string
                                 <$> unquote_from 0 r2
                      end
                  | _ => None
                  end
                else
                  match simple_escape e with
                  | Some x => String x <$> unquote_from 0 r1
                  | None => None
                  end
            end
          else if is_byte c 34 || (byte_val c <? 32) then None
          else if byte_val c <? RuneSelf then String c <$> unquote_from 0 r
          else
            let '(rune, size) := DecodeRune s in
            if (rune =? RuneError) && Nat.eqb size 1
            then (λ t, EncodeRune RuneError ++ t)%string <$> unquote_from 0 r
            else String c <$> unquote_from (Nat.pred size) r
      end
  end.

Definition unquote (raw : string) : option string := unquote_from 0 raw.

(** *** Values *)

#[local] Set Warnings "-register-all".
Inductive value :=
| Null
| Bool (b : bool)
| Number (lit : string)
| Str (s : string)
| Array (items : list value)
| Object (members : list (string * value)).

Definition isDigit (c : ascii) : bool :=
  (48 <=? byte_val c) && (byte_val c <=? 57).

Fixpoint skip_digits (s : string) : string :=
  match s with
  | String c r => if isDigit c then skip_digits r else s
  | EmptyString => ""
  end.

(** One or more digits; the rest of the input. *)
Definition digits1 (s : string) : option string :=
  match s with
  | String c r => if isDigit c then Some (skip_digits r) else None
  | EmptyString => None
  end.

Definition number_int (s : string) : option string :=
  match s with
  | String c r =>
      if is_byte c 48 then Some r
      else if isDigit c then Some (skip_digits r)
      else None
  | EmptyString => None
  end.

Definition number_frac (s : string) : option string :=
  match s with
  | String c r => if is_byte c 46 then digits1 r else Some s
  | EmptyString => Some s
  end.

Definition number_exp (s : string) : option string :=
  match s with
  | String c r =>
      if is_byte c 101 || is_byte c 69 then
        match r with
        | String sg r' =>
            if is_byte sg 43 || is_byte sg 45 then digits1 r' else digits1 r
        | EmptyString => None
        end
      else Some s
  | EmptyString => Some s
  end.

Definition isValidNumber (s : string) : bool :=
  let s1 := match s with
            | String c r => if is_byte c 45 then r else s
            | EmptyString => s
            end in
  match (a ← number_int s1; b ← number_frac a; number_exp b) with
  | Some EmptyString => true
  | _ => false
  end.

Definition word_value (w : string) : option value :=
  if String.eqb w "true" then Some (Bool true)
  else if String.eqb w "false" then Some (Bool false)
  else if String.eqb w "null" then Some Null
  else if isValidNumber w then Some (Number w)
  else None.

(** *** Parsing: a stack of open containers *)

Inductive frame :=
| FArr (acc : list value)
| FObj (acc : list (string * value)) (key : option string).

Inductive expect :=
| XValue | XValueOrClose | XKeyOrClose | XKey | XColon | XCommaOrClose
| XEnd (v : value).

Definition pstate : Type := list frame * expect.

Definition push_value (v : value) (stack : list frame) : option pstate :=
  match stack with
  | [] => Some ([], XEnd v)
  | FArr acc :: st => Some (FArr (v :: acc) :: st, XCommaOrClose)
  | FObj acc (Some k) :: st => Some (FObj ((k, v) :: acc) None :: st, XCommaOrClose)
  | FObj _ None :: _ => None
  end.

Definition close_array (stack : list frame) : option pstate :=
  match stack with
  | FArr acc :: st => push_value (Array (rev acc)) st
  | _ => None
  end.

Definition close_object (stack : list frame) : option pstate :=
  match stack with
  | FObj acc None :: st => push_value (Object (rev acc)) st
  | _ => None
  end.

Definition begin_value (t : token) (stack : list frame) : option pstate :=
  match t with
  | TLBrace => Some (FObj [] None :: stack, XKeyOrClose)
  | TLBrack => Some (FArr [] :: stack, XValueOrClose)
  | TString raw => s ← unquote raw; push_value (Str s) stack
  | TWord w => v ← word_value w; push_value v stack
  | _ => None
  end.

Definition set_key (raw : string) (stack : list frame) : option pstate :=
  match stack with
  | FObj acc None :: st => k ← unquote raw; Some (FObj acc (Some k) :: st, XColon)
  | _ => None
  end.

Definition parse_step (st : pstate) (t : token) : option pstate :=
  let '(stack, x) := st in
  match x with
  | XValue => begin_value t stack
  | XValueOrClose =>
      match t with
      | TRBrack => close_array stack
      | _ => begin_value t stack
      end
  | XKeyOrClose =>
      match t with
      | TRBrace => close_object stack
      | TString raw => set_key raw stack
      | _ => None
      end
  | XKey =>
      match t with
      | TString raw => set_key raw stack
      | _ => None
      end
  | XColon =>
      match t with
      | TColon => Some (stack, XValue)
      | _ => None
      end
  | XCommaOrClose =>
      match t with
      | TComma =>
          match stack with
          | FArr _ :: _ => Some (stack, XValue)
          | FObj _ _ :: _ => Some (stack, XKey)
          | [] => None
          end
      | TRBrack => close_array stack
      | TRBrace => close_object stack
      | _ => None
      end
  | XEnd _ => None
  end.

Fixpoint parse_tokens (st : pstate) (toks : list token) : option value :=
  match toks with
  | [] =>
      match st with
      | ([], XEnd v) => Some v
      | _ => None
      end
  | t :: rest => st' ← parse_step st t; parse_tokens st' rest
  end.

(** The value a text denotes; [None] when it is not valid JSON (what
    [checkValid] reports as a [SyntaxError]). *)
Definition parse (data : string) : option value :=
  toks ← lex LOut [] data; parse_tokens ([], XValue) toks.

(** *** Decoding into a struct of string fields *)

(** [foldName]: ASCII letters to upper case, and the two non-ASCII
    runes whose fold orbit contains an ASCII letter, U+017F (long s)
    and U+212A (Kelvin sign). *)
Fixpoint foldName (s : string) : string :=
  match s with
  | EmptyString => ""
  | String c r =>
      let b := byte_val c in
      if (97 <=? b) && (b <=? 122) then String (of_byte (b - 32)) (foldName r)
      else
        match r with
        | String c1 r1 =>
            if (b =? 197) && is_byte c1 191 then String "S" (foldName r1)
            else
              match r1 with
              | String c2 r2 =>
                  if (b =? 226) && is_byte c1 132 && is_byte c2 170
                  then String "K" (foldName r2)
                  else String c (foldName r)
              | EmptyString => String c (foldName r)
              end
        | EmptyString => String c (foldName r)
        end
  end.

(** The field a key names: an exact match of the tag, else the first
    field whose folded tag equals the folded key. *)
Definition find_field (key : string) (fields : list (string * string))
  : option nat :=
  match list_find (λ f, f.1 = key) fields with
  | Some (i, _) => Some i
  | None =>
      fst <$> list_find (λ f, foldName f.1 = foldName key) fields
  end.

Definition kind (v : value) : string :=
  match v with
  | Null => "null" | Bool _ => "bool" | Number _ => "number"
  | Str _ => "string" | Array _ => "array" | Object _ => "object"
  end.

Definition decode_state : Type := list (string * string) * option error.

(** One member of the object: a string sets the field, null leaves
    it, any other value is a type error (the first one is kept and
    decoding goes on), an unknown key is ignored. *)
Definition decode_member (st : decode_state) (m : string * value) : decode_state :=
  let '(fields, err) := st in
  match find_field m.1 fields with
  | None => st
  | Some i =>
      match m.2 with
      | Str s => (alter (λ f, (f.1, s)) i fields, err)
      | Null => st
      | v => (fields,
              match err with
              | Some _ => err
              | None => Some (json_UnmarshalTypeError (kind v))
              end)
      end
  end.

(** [json.Unmarshal data &v] for a struct [v] of string fields: the
    fields after decoding, and the error. *)
Definition Unmarshal (data : string) (fields : list (string * string))
  : decode_state :=
  match parse data with
  | None => (fields, Some json_SyntaxError)
  | Some Null => (fields, None)
  | Some (Object ms) => fold_left decode_member ms (fields, None)
  | Some v => (fields, Some (json_UnmarshalTypeError (kind v)))
  end.

End json.

(* ===================================================================== *)
(** ** archive/tar, compress/gzip, embed, io, fmt, sperr                   *)
(* ===================================================================== *)

Module tar.

Definition TypeReg : ascii := "0"%char.
Definition TypeDir : ascii := "5"%char.

Record Header := mkHeader { Name : string; Typeflag : ascii }.

(** What one call of [Reader.Next] yields, and what reading the entry
    it announces yields afterwards: the bytes of the body, then
    [body_err] if the stream breaks before the body ends. *)
Record record := mkRecord {
  hdr : option Header;
  err : option error;
  body : string;
  body_err : option error
}.

(** A reader is the list of records still to come; [Next] on the empty
    list returns [io.EOF]. *)
Definition Reader : Type := list record.

Definition dir (name : string) : record :=
  mkRecord (Some (mkHeader name TypeDir)) None "" None.
Definition reg (name : string) (data : string) : record :=
  mkRecord (Some (mkHeader name TypeReg)) None data None.
Definition entry (name : string) (flag : ascii) : record :=
  mkRecord (Some (mkHeader name flag)) None "" None.

End tar.

(** The embedded archive, seen through the decoders: whether the gzip
    header is accepted by [gzip.NewReader], and the records the tar
    reader finds in the decompressed stream (corruption further down
    the stream surfaces as an error of [Next] or of reading a body). *)
Record Archive := mkArchive {
  gzip_header_err : option error;
  tar_records : tar.Reader
}.

Module gzip.

Definition NewReader (a : Archive) : tar.Reader + error :=
  match gzip_header_err a with
  | Some e => inr e
  | None => inl (tar_records a)
  end.

End gzip.

Module io.

(** [io.Copy dst src] where [src] is the tar reader positioned on an
    entry: the body is written to the file; nothing is written when
    the body is empty.  A write error wins over a read error. *)
Definition Copy (dst : string) (body : string) (body_err : option error)
  : IO (option error) :=
  emit (EvCopy dst body);;
  if String.eqb body "" then mret body_err
  else
    d ← get_disk;
    let '(d', r) := os.write (resolve dst) body d in
    set_disk d';;
    mret (match r with
          | Some e => Some (PathError "write" (resolve dst) e)
          | None => body_err
          end).

End io.

Module fmt.

Fixpoint pos_bits (p : positive) : string :=
  match p with
  | xH => "1"
  | xO q => pos_bits q ++ "0"
  | xI q => pos_bits q ++ "1"
  end.

(** The verb [%b] applied to a byte. *)
Definition b (c : ascii) : string :=
  match N_of_ascii c with
  | N0 => "0"
  | Npos p => pos_bits p
  end.

End fmt.

Module statushooks.
Definition SetStatus (msg : string) : IO unit := emit (EvStatus msg).
End statushooks.

Module slog.
Definition Info (msg : string) : IO unit := emit (EvLog Info msg).
Definition Error (msg : string) : IO unit := emit (EvLog Error msg).
End slog.

Module logging.
Definition LogTime (msg : string) : IO unit := emit (EvLogTime msg).
End logging.

(* ===================================================================== *)
(** ** Package dashboardassets                                            *)
(* ===================================================================== *)

(** What the package takes from its surroundings: the version of the
    running program as [app_specific.AppVersion.String()] renders it,
    the path of the directory [filepaths.EnsureDashboardAssetsDir()]
    ensures and returns, the file name
    [filepaths.ReportAssetsVersionFilePath()] returns, and the files
    embedded in [staticFS]. *)
Record Env := mkEnv {
  AppVersion_String : string;
  EnsureDashboardAssetsDir : string;
  ReportAssetsVersionFilePath : string;
  staticFS : string → option Archive
}.

Inductive Context := ctx_Background.

Record ReportAssetsVersionFile := mkVersionFile { Version : string }.

Module filepaths.

(** Modelled from the spec: [filepaths.EnsureDashboardAssetsDir] is a
    function of pipe-fittings and is not among the sources.  The spec
    says of the destination root that it is "a single directory path,
    created if absent": the helper makes the directory, with its
    missing ancestors, when it is not there, and returns its path.  The
    spec does not say what follows when the directory cannot be made;
    here the helper returns the path all the same, and the calls that
    follow meet the missing directory. *)
Definition EnsureDashboardAssetsDir (env : Env) : IO string :=
  let dir := EnsureDashboardAssetsDir env in
  os.MkdirAll dir;;
  mret dir.

End filepaths.

Module dashboardassets.
Section Package.

Context (env : Env).

Definition embeddedAssetArchiveName : string := "assets.tar.gz".

(** U+2026, the ellipsis that ends the status message. *)
Definition ellipsis : string := String "226" (String "128" (String "166" "")).

(** The struct as [encoding/json] sees it. *)
Definition fields_of (v : ReportAssetsVersionFile) : list (string * string) :=
  [("version", Version v)].
Definition of_fields (l : list (string * string)) : ReportAssetsVersionFile :=
  match l with
  | (_, v) :: _ => mkVersionFile v
  | [] => mkVersionFile ""
  end.

(** The body of the [for] loop of [extractTarGz], entry by entry. *)
Fixpoint extract_loop (ctx : Context) (tarReader : tar.Reader) (dest : string)
  : IO (option error) :=
  match tarReader with
  | [] => mret None                                (* err == io.EOF *)
  | r :: tarReader' =>
      match tar.err r with
      | Some e => if is_EOF e then mret None else mret (Some e)
      | None =>
          match tar.hdr r with
          | None => extract_loop ctx tarReader' dest        (* continue *)
          | Some header =>
              let target := filepath.Join dest (tar.Name header) in
              if Ascii.eqb (tar.Typeflag header) tar.TypeDir then
                e ← os.MkdirAll target;
                match e with
                | Some e => mret (Some e)
                | None => extract_loop ctx tarReader' dest
                end
              else if Ascii.eqb (tar.Typeflag header) tar.TypeReg then
                statushooks.SetStatus
                  ("Extracting " ++ tar.Name header ++ ellipsis);;
                f ← os.Create target;
                match f with
                | inr e => mret (Some e)
                | inl outFile =>
                    e ← io.Copy outFile (tar.body r) (tar.body_err r);
                    match e with
                    | Some e => mret (Some e)               (* outFile.Close() *)
                    | None => extract_loop ctx tarReader' dest
                    end
                end
              else
                mret (Some (sperr_New
                  ("ExtractTarGz: uknown type: " ++ fmt.b (tar.Typeflag header)
                     ++ " in " ++ tar.Name header)))
          end
      end
  end.

Definition extractTarGz (ctx : Context) (gzipStream : Archive) (dest : string)
  : IO (option error) :=
  slog.Info "dashboardassets.extractTarGz start";;
  r ← match gzip.NewReader gzipStream with
      | inr e => mret (Some e)
      | inl uncompressedStream =>        (* Close() leaves the stream readable *)
          extract_loop ctx uncompressedStream dest
      end;
  slog.Info "dashboardassets.extractTarGz end";;
  mret r.

Definition loadReportAssetVersionFile : IO (ReportAssetsVersionFile + error) :=
  let versionFilePath := ReportAssetsVersionFilePath env in
  exists_ ← filehelpers.FileExists versionFilePath;
  if negb exists_ then mret (inl (mkVersionFile ""))
  else
    '(file, _) ← os.ReadFile versionFilePath;
    let '(versionFile, e) := json.Unmarshal file (fields_of (mkVersionFile "")) in
    match e with
    | Some e =>
        slog.Error "Error while reading dashboard assets version file";;
        mret (inr e)
    | None => mret (inl (of_fields versionFile))
    end.

Definition installedAsstesMatchAppVersion : IO bool :=
  r ← loadReportAssetVersionFile;
  match r with
  | inr _ => mret false
  | inl versionFile => mret (String.eqb (Version versionFile) (AppVersion_String env))
  end.

Definition updateAssetVersionFile : IO (option error) :=
  let versionFile := mkVersionFile (AppVersion_String env) in
  let '(versionFileJSON, e) := json.Marshal (fields_of versionFile) in
  match e with
  | Some e =>
      mret (Some (sperr_WrapWithMessage e
                    "could not marshal dashboard assets version file"))
  | None =>
      let versionFilePath := ReportAssetsVersionFilePath env in
      e ← os.WriteFile versionFilePath versionFileJSON;
      match e with
      | Some e =>
          mret (Some (sperr_WrapWithMessage e
                        "could not write dashboard assets version file"))
      | None => mret None
      end
  end.

Definition Ensure (ctx : Context) : IO (option error) :=
  logging.LogTime "dashboardassets.Ensure start";;
  r ← (installed ← installedAsstesMatchAppVersion;
       if installed : bool then mret None         (* nothing to do here *)
       else
         reportAssetsPath ← filepaths.EnsureDashboardAssetsDir env;
         emit (EvOpenEmbedded embeddedAssetArchiveName);;
         match staticFS env embeddedAssetArchiveName with
         | None =>
             mret (Some (sperr_WrapWithMessage
                           (fs_ErrNotExist embeddedAssetArchiveName)
                           "could not open embedded dashboard assets archive"))
         | Some tarGz =>
             e ← extractTarGz ctx tarGz reportAssetsPath;
             match e with
             | Some e =>
                 mret (Some (sperr_WrapWithMessage e
                   "could not extract embedded dashboard assets archive"))
             | None =>
                 e ← updateAssetVersionFile;
                 match e with
                 | Some e =>
                     mret (Some (sperr_WrapWithMessage e
                       "could not update dashboard assets version file"))
                 | None => mret None
                 end
             end
         end);
  logging.LogTime "dashboardassets.Ensure end";;
  mret r.

End Package.
End dashboardassets.

(* ===================================================================== *)
(** ** Vocabulary of the properties                                       *)
(* ===================================================================== *)

(** An element that [Clean] keeps. *)
Definition real (c : string) : bool :=
  negb (String.eqb c "") && negb (String.eqb c ".") && negb (String.eqb c "..").

(** A path element: a string without separator. *)
Fixpoint noslash (s : string) : bool :=
  match s with
  | EmptyString => true
  | String c r => negb (Ascii.eqb c filepath.Separator) && noslash r
  end.

Definition clean_elem (c : string) : Prop := real c = true ∧ noslash c = true.

(** Every change the calls above make is one of two updates: an empty
    directory appears where nothing was, or a regular file is created
    or rewritten; in both cases directly below an existing directory. *)
Inductive update := MkDir (p : path) | SetFile (p : path) (c : string).

Definition upath (u : update) : path :=
  match u with MkDir p | SetFile p _ => p end.

Definition is_SetFile (u : update) : Prop :=
  match u with SetFile _ _ => True | MkDir _ => False end.

Definition apply_update (d : Disk) (u : update) : Disk :=
  match u with
  | MkDir p => put d p (TDir ∅)
  | SetFile p c => put d p (TFile c)
  end.

Definition legal (d : Disk) (u : update) : Prop :=
  upath u ≠ [] ∧ stat d (parent (upath u)) = Found Dir ∧
  match u with
  | MkDir p => ∃ e, stat d p = Missing e
  | SetFile p _ => stat d p ≠ Found Dir
  end.

Inductive evolves : Disk → list update → Disk → Prop :=
| evolves_nil d : evolves d [] d
| evolves_cons d u us d' :
    legal d u → evolves (apply_update d u) us d' → evolves d (u :: us) d'.

(** What the loop of [extractTarGz] does with one entry. *)
Definition extract_entry (ctx : Context) (dest : string) (header : tar.Header)
    (r : tar.record) : IO (option error) :=
  let target := filepath.Join dest (tar.Name header) in
  if Ascii.eqb (tar.Typeflag header) tar.TypeDir then os.MkdirAll target
  else if Ascii.eqb (tar.Typeflag header) tar.TypeReg then
    statushooks.SetStatus
      ("Extracting " ++ tar.Name header ++ dashboardassets.ellipsis);;
    f ← os.Create target;
    match f with
    | inr e => mret (Some e)
    | inl outFile => io.Copy outFile (tar.body r) (tar.body_err r)
    end
  else
    mret (Some (sperr_New
      ("ExtractTarGz: uknown type: " ++ fmt.b (tar.Typeflag header)
         ++ " in " ++ tar.Name header))).

Arguments os.MkdirAll : simpl never.
Arguments os.Create : simpl never.
Arguments os.WriteFile : simpl never.
Arguments os.ReadFile : simpl never.
Arguments filehelpers.FileExists : simpl never.
Arguments io.Copy : simpl never.
Arguments extract_entry : simpl never.

(** Sequencing of two runs. *)
Definition then_run {A B} (x : Run A) (k : A → IO B) : Run B :=
  let y := k (val_of x) (disk_of x) in
  mkRun (disk_of y) (log_of x ++ log_of y) (val_of y).

(** Where the entry with header [h] is placed. *)
Definition target_of (dest : string) (h : tar.Header) : path :=
  resolve (filepath.Join dest (tar.Name h)).

(** A record that makes [Next] report the end of the archive. *)
Definition ends_stream (r : tar.record) : bool :=
  match tar.err r with
  | Some e => is_EOF e
  | None => false
  end.

Definition placed (l : tar.Reader) (P : tar.Header → Prop) : Prop :=
  ∃ r h, r ∈ l ∧ tar.hdr r = Some h ∧ P h.

(** Strings all of whose bytes are below [utf8.RuneSelf]. *)
Fixpoint all_ascii (s : string) : bool :=
  match s with
  | EmptyString => true
  | String c r => N.ltb (utf8.byte_val c) 128 && all_ascii r
  end.

(** The bytes [appendString] writes for a string. *)
Definition escaped (v : string) : string :=
  json.appendString_from (json.Copy 0) v.

(** The persisted marker as the specification speaks of it: absent,
    corrupt (the file exists but the bytes obtained from it do not
    decode to a marker; a file that cannot be read yields no bytes), or
    present with a version. *)
Inductive MarkerState :=
| MarkerAbsent
| MarkerCorrupt
| MarkerPresent (m : ReportAssetsVersionFile).

Definition persisted_marker (env : Env) (d : Disk) : MarkerState :=
  let p := resolve (ReportAssetsVersionFilePath env) in
  match stat d p with
  | Missing ENOENT => MarkerAbsent
  | Found (File c) =>
      if faulty d OpRead p then MarkerCorrupt
      else
        match json.Unmarshal c [("version", "")] with
        | (fields, None) => MarkerPresent (dashboardassets.of_fields fields)
        | (_, Some _) => MarkerCorrupt
        end
  | _ => MarkerCorrupt
  end.

(** The disk once [filepaths.EnsureDashboardAssetsDir] has been
    called: the disk on which the archive is extracted. *)
Definition with_root (env : Env) (d : Disk) : Disk :=
  disk_of (filepaths.EnsureDashboardAssetsDir env d).

(** The part of [Ensure] after the version gate. *)
Definition install (env : Env) (ctx : Context) : IO (option error) :=
  reportAssetsPath ← filepaths.EnsureDashboardAssetsDir env;
  emit (EvOpenEmbedded dashboardassets.embeddedAssetArchiveName);;
  match staticFS env dashboardassets.embeddedAssetArchiveName with
  | None =>
      mret (Some (sperr_WrapWithMessage
                    (fs_ErrNotExist dashboardassets.embeddedAssetArchiveName)
                    "could not open embedded dashboard assets archive"))
  | Some tarGz =>
      e ← dashboardassets.extractTarGz ctx tarGz reportAssetsPath;
      match e with
      | Some e =>
          mret (Some (sperr_WrapWithMessage e
            "could not extract embedded dashboard assets archive"))
      | None =>
          e ← dashboardassets.updateAssetVersionFile env;
          match e with
          | Some e =>
              mret (Some (sperr_WrapWithMessage e
                "could not update dashboard assets version file"))
          | None => mret None
          end
      end
  end.

Definition gate_log_hit (env : Env) : list Event :=
  [EvStat (ReportAssetsVersionFilePath env);
   EvReadFile (ReportAssetsVersionFilePath env)].

Definition gate_log_corrupt (env : Env) : list Event :=
  [EvStat (ReportAssetsVersionFilePath env);
   EvReadFile (ReportAssetsVersionFilePath env);
   EvLog Error "Error while reading dashboard assets version file"].

Arguments dashboardassets.extractTarGz : simpl never.
Arguments dashboardassets.updateAssetVersionFile : simpl never.
Arguments dashboardassets.loadReportAssetVersionFile : simpl never.
Arguments dashboardassets.installedAsstesMatchAppVersion : simpl never.
Arguments install : simpl never.
Arguments filepaths.EnsureDashboardAssetsDir : simpl never.

(** The bytes of the marker file for the current version. *)
Definition marker_bytes (env : Env) : string :=
  (json.Marshal (dashboardassets.fields_of
                   (mkVersionFile (AppVersion_String env)))).1.

(** A name with a [..] element. *)
Definition has_dotdot (name : string) : bool :=
  existsb (String.eqb "..") (filepath.split name).



(** Extraction is performed when [extractTarGz] is entered; the
    function announces it in the log. *)
Definition extraction_started (l : list Event) : Prop :=
  EvLog Info "dashboardassets.extractTarGz start" ∈ l.


(** *** Sample inputs *)

(** A disk with the directories [/opt/assets] and [/etc]. *)
Definition sample_disk : Disk :=
  mkDisk {[ "opt" := TDir {[ "assets" := TDir ∅ ]}; "etc" := TDir ∅ ]} ∅.

(** The same disk with a marker file that is not JSON. *)
Definition corrupt_disk : Disk :=
  mkDisk {[ "opt" := TDir {[ "assets" :=
              TDir {[ "versions.json" := TFile "1.2.3" ]} ]} ]} ∅.

(** A marker file that cannot be read. *)
Definition unreadable_disk : Disk :=
  mkDisk {[ "opt" := TDir {[ "assets" :=
              TDir {[ "versions.json" := TFile "1.2.3" ]} ]} ]}
    {[ (OpRead, ["opt"; "assets"; "versions.json"]) ]}.

(** A disk on which the destination root is still to be made. *)
Definition bare_disk : Disk := mkDisk {[ "opt" := TDir ∅ ]} ∅.

(** The same, with writing into [/opt/assets/b.txt] refused. *)
Definition failing_bare_disk : Disk :=
  mkDisk {[ "opt" := TDir ∅ ]} {[ (OpWrite, ["opt"; "assets"; "b.txt"]) ]}.

Definition sample_archive : Archive :=
  mkArchive None [tar.dir "a/"; tar.reg "a/b.txt" "hi"].

(** An archive with a symbolic link (type flag ['2']). *)
Definition symlink_archive : Archive :=
  mkArchive None
    [tar.dir "a/"; tar.entry "a/link" "2"%char; tar.reg "a/b.txt" "hi"].


Definition three_files : Archive :=
  mkArchive None [tar.reg "a.txt" "hi"; tar.reg "b.txt" "yo"; tar.reg "c.txt" "zz"].

(** Version 1.2.3 installing into [/opt/assets], with [a] embedded
    under the name the package opens. *)
Definition sample_env (a : Archive) : Env :=
  mkEnv "1.2.3" "/opt/assets" "/opt/assets/versions.json"
    (λ name, if String.eqb name "assets.tar.gz" then Some a else None).

(* ===================================================================== *)
(** ** Further vocabulary                                                 *)
(* ===================================================================== *)

(** The records the loop reaches: those before the first one that makes
    [Next] report the end of the archive. *)
Fixpoint before_end (l : tar.Reader) : tar.Reader :=
  match l with
  | [] => []
  | r :: l' => if ends_stream r then [] else r :: before_end l'
  end.

(** The calls the loop makes for a record it gets through. *)
Definition entry_calls (dest : string) (r : tar.record) : list Event :=
  match tar.hdr r with
  | None => []
  | Some h =>
      let target := filepath.Join dest (tar.Name h) in
      if Ascii.eqb (tar.Typeflag h) tar.TypeDir then [EvMkdirAll target]
      else if Ascii.eqb (tar.Typeflag h) tar.TypeReg then
        [EvStatus ("Extracting " ++ tar.Name h ++ dashboardassets.ellipsis);
         EvCreate target; EvCopy target (tar.body r)]
      else []
  end.

(** A regular-file entry placed on [q]. *)
Definition writes_to (dest : string) (q : path) (r : tar.record) : bool :=
  match tar.hdr r with
  | Some h =>
      Ascii.eqb (tar.Typeflag h) tar.TypeReg
      && bool_decide (target_of dest h = q)
  | None => false
  end.

(** Version strings that [appendString] writes byte for byte. *)
Fixpoint plain (s : string) : bool :=
  match s with
  | EmptyString => true
  | String c r => N.ltb (utf8.byte_val c) 128 && json.htmlSafe c && plain r
  end.



(** Where an error of the loop comes from: the tar reader (the header
    or the body of a record), one of the calls made for an entry, or
    the type of the entry. *)
Definition entry_error (dest : string) (r : tar.record) (e : error) : Prop :=
  tar.err r = Some e
  ∨ ∃ h, tar.hdr r = Some h
      ∧ ((tar.Typeflag h = tar.TypeDir ∧ ∃ p en, e = PathError "mkdir" p en)
         ∨ (tar.Typeflag h = tar.TypeReg
            ∧ ((∃ en, e = PathError "open" (target_of dest h) en)
               ∨ (∃ en, e = PathError "write" (target_of dest h) en)
               ∨ tar.body_err r = Some e))
         ∨ (tar.Typeflag h ≠ tar.TypeDir ∧ tar.Typeflag h ≠ tar.TypeReg
            ∧ e = sperr_New ("ExtractTarGz: uknown type: "
                               ++ fmt.b (tar.Typeflag h) ++ " in "
                               ++ tar.Name h))).

(** The value of a binary numeral. *)
Fixpoint bits_value_from (acc : N) (s : string) : N :=
  match s with
  | EmptyString => acc
  | String c r =>
      bits_value_from (2 * acc + (if Ascii.eqb c "1" then 1 else 0))%N r
  end.

Definition bits_value (s : string) : N := bits_value_from 0 s.

(* ===================================================================== *)
(** ** Package cmd: the summary of [mod install]                          *)
(* ===================================================================== *)

(** What a call yields: its result, or a panic (here: a nil pointer
    is dereferenced). *)
Inductive outcome (A : Type) := Returns (a : A) | Panics.
Arguments Returns {A} _.
Arguments Panics {A}.

Module cmd.
Section Package.

(** What the package takes from its surroundings: the flags as
    [viper.GetBool] reads them and the name [constants.ArgDryRun] of
    the dry-run flag; [utils.Pluralize]; and, of a
    [versionmap.DependencyVersionMap], the map its [FlatMap()] returns,
    the tree its [GetDependencyTree(path)] returns and the [String()]
    of that tree. *)
Context (viper_GetBool : string → bool) (ArgDryRun : string).
Context (Pluralize : string → Z → string).
Context {DependencyVersionMap ResolvedVersionConstraint Tree : Type}.
Context (FlatMap : DependencyVersionMap → gmap string ResolvedVersionConstraint).
Context (GetDependencyTree : DependencyVersionMap → string → Tree).
Context (Tree_String : Tree → string).

(** [dto.InstallModResponse], as far as it is read here; [Installed]
    is a pointer. *)
Record InstallModResponse := mkInstallModResponse {
  Installed : option DependencyVersionMap;
  ModDependencyPath : string
}.

Definition VerbInstalled : string := "Installed".
Definition VerbUninstalled : string := "Uninstalled".
Definition VerbUpgraded : string := "Upgraded".
Definition VerbDowngraded : string := "Downgraded".
Definition VerbPruned : string := "Pruned".

Definition dryRunVerbs : gmap string string :=
  {[ VerbInstalled := "Would install";
     VerbUninstalled := "Would uninstall";
     VerbUpgraded := "Would upgrade";
     VerbDowngraded := "Would downgrade";
     VerbPruned := "Would prune" ]}.

(** A key that a Go map does not hold reads as the zero value. *)
Definition getVerb (verb : string) : string :=
  if viper_GetBool ArgDryRun then default "" (dryRunVerbs !! verb) else verb.

Definition getInstallationResultString (items : DependencyVersionMap)
    (modDependencyPath : string) : Z * string :=
  let count := Z.of_nat (size (FlatMap items)) in
  let res :=
    if (0 <? count)%Z then Tree_String (GetDependencyTree items modDependencyPath)
    else "" in
  (count, res).

Definition newline : string := String "010" "".

(** The verb [%d]. *)
Definition fmt_d (n : Z) : string := NilZero.string_of_int (Z.to_int n).

Definition buildInstallSummary (installData : option InstallModResponse)
  : outcome string :=
  match installData with
  | None => Panics
  | Some installData =>
      match Installed installData with
      | None => Panics
      | Some installed =>
          let '(installCount, installedTreeString) :=
            getInstallationResultString installed
              (ModDependencyPath installData) in
          let installString :=
            if (0 <? installCount)%Z then
              (newline ++ getVerb VerbInstalled ++ " " ++ fmt_d installCount
                 ++ " " ++ Pluralize "mod" installCount ++ ":" ++ newline
                 ++ newline ++ installedTreeString ++ newline)%string
            else "" in
          if (installCount =? 0)%Z then Returns "All mods are up to date"
          else Returns installString
      end
  end.

End Package.
End cmd.

(** [utils.Pluralize] as the samples use it. *)
Definition sample_Pluralize (base : string) (count : Z) : string :=
  if (count =? 1)%Z then base else (base ++ "s")%string.

(** Strings that are valid UTF-8 ([utf8.ValidString]): decoding rune
    by rune never meets an invalid byte.  [k] is the number of bytes
    still to pass of a rune already decoded. *)
Fixpoint valid_from (k : nat) (s : string) : bool :=
  match s with
  | EmptyString => Nat.eqb k 0
  | String c r =>
      match k with
      | S k' => valid_from k' r
      | O =>
          if N.ltb (utf8.byte_val c) utf8.RuneSelf then valid_from 0 r
          else
            let '(rune, size) := utf8.DecodeRune s in
            negb (N.eqb rune utf8.RuneError && Nat.eqb size 1)
            && valid_from (Nat.pred size) r
      end
  end.

Definition ValidString (s : string) : bool := valid_from 0 s.

(** Continuation bytes of a multi-byte rune. *)
Fixpoint continuation (s : string) : bool :=
  match s with
  | EmptyString => true
  | String c r => utf8.in_range 128 191 c && continuation r
  end.

(** What is read back of a string written by [appendString]: every
    byte that does not begin a well-formed rune is replaced by the
    encoding of U+FFFD. *)
Fixpoint sanitized_from (k : nat) (s : string) : string :=
  match s with
  | EmptyString => ""
  | String c r =>
      match k with
      | S k' => String c (sanitized_from k' r)
      | O =>
          if N.ltb (utf8.byte_val c) utf8.RuneSelf
          then String c (sanitized_from 0 r)
          else
            let '(rune, size) := utf8.DecodeRune s in
            if N.eqb rune utf8.RuneError && Nat.eqb size 1
            then (utf8.EncodeRune utf8.RuneError ++ sanitized_from 0 r)%string
            else String c (sanitized_from (Nat.pred size) r)
      end
  end.

Definition sanitized (s : string) : string := sanitized_from 0 s.

(** A version with a letter outside ASCII: [1.2.3-] followed by the two
    bytes of U+03B2. *)
Definition sample_utf8_env : Env :=
  mkEnv ("1.2.3-" ++ String (utf8.of_byte 206) (String (utf8.of_byte 178) ""))
    "/opt/assets" "/opt/assets/versions.json" (λ _, None).

(* ===================================================================== *)
(** * Properties                                                          *)
(* ===================================================================== *)

(** ** The model at work *)

Example Clean_collapses : filepath.Clean "a//b/./c/.." = "a/b".
Proof. reflexivity. Qed.

Example Clean_root_parent : filepath.Clean "/../a/" = "/a".
Proof. reflexivity. Qed.

Example Clean_keeps_leading_dotdot : filepath.Clean "../../x/../.." = "../../..".
Proof. reflexivity. Qed.

Example Clean_empty_result : filepath.Clean "a/.." = ".".
Proof. reflexivity. Qed.

Example Join_file : filepath.Join "/opt/assets" "a/b.txt" = "/opt/assets/a/b.txt".
Proof. reflexivity. Qed.

Example Join_directory : filepath.Join "/opt/assets" "a/" = "/opt/assets/a".
Proof. reflexivity. Qed.

Example Join_escapes : filepath.Join "/opt/assets" "../../etc/passwd" = "/etc/passwd".
Proof. reflexivity. Qed.

Example resolve_elements : resolve "/opt/assets/a" = ["opt"; "assets"; "a"].
Proof. reflexivity. Qed.

Example fmt_b_symlink : fmt.b "2"%char = "110010".
Proof. reflexivity. Qed.

Example EncodeRune_ellipsis : utf8.EncodeRune 8230 = dashboardassets.ellipsis.
Proof. reflexivity. Qed.

Example DecodeRune_ellipsis :
  utf8.DecodeRune (dashboardassets.ellipsis ++ "x") = (8230%N, 3).
Proof. reflexivity. Qed.

Example parse_array :
  json.parse " [1, -2.5e+3, true, null, {}, [ ]] "
  = Some (json.Array [json.Number "1"; json.Number "-2.5e+3"; json.Bool true;
                      json.Null; json.Object []; json.Array []]).
Proof. reflexivity. Qed.

Example parse_rejects_trailing_comma : json.parse "[1,]" = None.
Proof. reflexivity. Qed.

Example parse_rejects_leading_zero : json.parse "01" = None.
Proof. reflexivity. Qed.

Example parse_rejects_two_values : json.parse "1 2" = None.
Proof. reflexivity. Qed.

Example Unmarshal_null :
  json.Unmarshal "null" [("version", "")] = ([("version", "")], None).
Proof. reflexivity. Qed.

Example Unmarshal_empty_object :
  json.Unmarshal "{}" [("version", "")] = ([("version", "")], None).
Proof. reflexivity. Qed.

Example Unmarshal_array :
  json.Unmarshal "[]" [("version", "")]
  = ([("version", "")], Some (json_UnmarshalTypeError "array")).
Proof. reflexivity. Qed.

(** Keys are matched without regard to case. *)
Example Unmarshal_folds_case :
  json.Unmarshal (json.Marshal [("VERSION", "1.2.3")]).1 [("version", "")]
  = ([("version", "1.2.3")], None).
Proof. reflexivity. Qed.

(** A number where the string is expected is a type error. *)
Example Unmarshal_number :
  json.Unmarshal
    ("{" ++ String json.quote ("version" ++ String json.quote ":5}"))
    [("version", "")]
  = ([("version", "")], Some (json_UnmarshalTypeError "number")).
Proof. reflexivity. Qed.

(** Bytes that are not UTF-8 are written as U+FFFD and do not come
    back. *)
Example Marshal_replaces_invalid_utf8 :
  json.Unmarshal (json.Marshal [("version", String "200" "")]).1
    [("version", "")]
  = ([("version", utf8.EncodeRune utf8.RuneError)], None).
Proof. reflexivity. Qed.

(** A first run installs the sample archive and writes the marker. *)
Example Ensure_first_run :
  let r := dashboardassets.Ensure (sample_env sample_archive) ctx_Background
             sample_disk in
  val_of r = None
  ∧ log_of r
    = [EvLogTime "dashboardassets.Ensure start";
       EvStat "/opt/assets/versions.json";
       EvMkdirAll "/opt/assets";
       EvOpenEmbedded "assets.tar.gz";
       EvLog Info "dashboardassets.extractTarGz start";
       EvMkdirAll "/opt/assets/a";
       EvStatus ("Extracting a/b.txt" ++ dashboardassets.ellipsis);
       EvCreate "/opt/assets/a/b.txt";
       EvCopy "/opt/assets/a/b.txt" "hi";
       EvLog Info "dashboardassets.extractTarGz end";
       EvWriteFile "/opt/assets/versions.json"
         (marker_bytes (sample_env sample_archive));
       EvLogTime "dashboardassets.Ensure end"]
  ∧ stat (disk_of r) ["opt"; "assets"; "a"; "b.txt"] = Found (File "hi")
  ∧ stat (disk_of r) ["opt"; "assets"; "versions.json"]
    = Found (File ("{" ++ String json.quote ("version" ++ String json.quote
                     (":" ++ String json.quote ("1.2.3" ++ String json.quote "}"))))).
Proof. by vm_compute. Qed.

(** On a disk without the destination root, the root is made before
    the archive is opened, so a file at the top of the archive finds
    its directory; without the root, the extraction alone fails. *)
Example Ensure_makes_root :
  let env := sample_env (mkArchive None [tar.reg "b.txt" "hi"]) in
  let r := dashboardassets.Ensure env ctx_Background bare_disk in
  stat bare_disk ["opt"; "assets"] = Missing ENOENT
  ∧ val_of r = None
  ∧ stat (disk_of r) ["opt"; "assets"; "b.txt"] = Found (File "hi")
  ∧ val_of (dashboardassets.extractTarGz ctx_Background
              (mkArchive None [tar.reg "b.txt" "hi"]) "/opt/assets" bare_disk)
    = Some (PathError "open" ["opt"; "assets"; "b.txt"] ENOENT).
Proof. by vm_compute. Qed.

(** ** Paths *)

Section PathFacts.

Import filepath.

Lemma split_nonempty s : split s ≠ [].
Proof.
  destruct s as [|c r]; simpl; [done|].
  destruct (Ascii.eqb c Separator); [done|].
  by destruct (split r).
Qed.

Lemma split_app_sep a b :
  split (a ++ String Separator b) = split a ++ split b.
Proof.
  induction a as [|c a IH]; simpl; [done|].
  destruct (Ascii.eqb c Separator); [by rewrite IH|].
  rewrite IH. pose proof (split_nonempty a) as Hne.
  by destruct (split a).
Qed.

Lemma split_noslash s : noslash s = true → split s = [s].
Proof.
  induction s as [|c r IH]; simpl; [done|].
  intros [Hc Hr]%andb_prop. destruct (Ascii.eqb c Separator); [done|].
  by rewrite (IH Hr).
Qed.

Lemma split_all_noslash s : Forall (λ c, noslash c = true) (split s).
Proof.
  induction s as [|c r IH]; simpl; [by repeat constructor|].
  destruct (Ascii.eqb c Separator) eqn:Hc; [by constructor|].
  pose proof (split_nonempty r) as Hne.
  destruct (split r) as [|x xs]; [done|].
  inversion IH; subst. constructor; [|done]. simpl. by rewrite Hc.
Qed.

Lemma split_join l :
  l ≠ [] → Forall (λ c, noslash c = true) l → split (join l) = l.
Proof.
  induction l as [|x l IH]; [done|]. intros _ Hall.
  inversion Hall as [|? ? Hx Hl]; subst.
  destruct l as [|y l]; [by apply split_noslash|].
  change (join (x :: y :: l)) with (x ++ String Separator (join (y :: l)))%string.
  rewrite split_app_sep, (split_noslash x Hx), IH; done.
Qed.

Lemma walk_app r st a b : walk r st (a ++ b) = walk r (walk r st a) b.
Proof. apply fold_left_app. Qed.

Lemma walk_cons r st c cs : walk r st (c :: cs) = walk r (step r st c) cs.
Proof. done. Qed.

(** The elements kept do not depend on the [..] prefix, nor on
    whether the path is rooted. *)
Lemma elems_walk_indep cs r r' k k' st :
  elems (walk r (WS k st) cs) = elems (walk r' (WS k' st) cs).
Proof.
  revert k k' st. induction cs as [|c cs IH]; intros k k' st; [done|].
  rewrite !walk_cons. unfold step; simpl.
  destruct (String.eqb c ""); [apply IH|].
  destruct (String.eqb c "."); [apply IH|].
  destruct (String.eqb c "..").
  - destruct st; [|apply IH]. destruct r, r'; apply IH.
  - apply IH.
Qed.

Lemma up_walk_rooted cs st : up (walk true st cs) = up st.
Proof.
  revert st. induction cs as [|c cs IH]; intros st; [done|].
  rewrite walk_cons, IH. unfold step.
  destruct (String.eqb c ""); [done|].
  destruct (String.eqb c "."); [done|].
  destruct (String.eqb c ".."); [|done].
  by destruct (elems st).
Qed.

Lemma step_clean r st c :
  noslash c = true → Forall clean_elem (elems st) →
  Forall clean_elem (elems (step r st c)).
Proof.
  intros Hc Hst. unfold step.
  destruct (String.eqb c "") eqn:E1; [done|].
  destruct (String.eqb c ".") eqn:E2; [done|].
  destruct (String.eqb c "..") eqn:E3.
  - destruct (elems st) eqn:Hel; simpl.
    + destruct r; simpl; [by rewrite Hel|done].
    + by inversion Hst.
  - simpl. constructor; [|done]. split; [|done].
    unfold real. by rewrite E1, E2, E3.
Qed.

Lemma walk_clean r cs st :
  Forall (λ c, noslash c = true) cs → Forall clean_elem (elems st) →
  Forall clean_elem (elems (walk r st cs)).
Proof.
  revert st. induction cs as [|c cs IH]; intros st Hcs Hst; [done|].
  inversion Hcs; subst. rewrite walk_cons. apply IH; [done|].
  by apply step_clean.
Qed.

(** Walking over elements that are all kept pushes each of them. *)
Lemma walk_real r k st l :
  Forall (λ c, real c = true) l → walk r (WS k st) l = WS k (rev l ++ st).
Proof.
  revert st. induction l as [|c l IH]; intros st Hl; [done|].
  inversion Hl as [|? ? Hc Hl']; subst. rewrite walk_cons.
  unfold step. unfold real in Hc.
  destruct (String.eqb c ""); [done|].
  destruct (String.eqb c "."); [done|].
  destruct (String.eqb c ".."); [done|]. simpl.
  rewrite IH by done. by rewrite <- app_assoc.
Qed.

Lemma walk_dotdots_root k n :
  walk true (WS k []) (repeat ".." n) = WS k [].
Proof. induction n as [|n IH]; [done|]. simpl repeat. by rewrite walk_cons. Qed.

Lemma resolve_join_clean n l :
  Forall clean_elem l →
  elems (walk true (WS 0 []) (split (join (repeat ".." n ++ l)))) = rev l.
Proof.
  intros Hl.
  assert (Hreal : Forall (λ c, real c = true) l).
  { eapply Forall_impl; [exact Hl|]. by intros ? [? ?]. }
  destruct (decide (repeat ".." n ++ l = [])) as [Hnil|Hne].
  - apply app_eq_nil in Hnil as [Hn ->]. by destruct n.
  - rewrite split_join; [|done|].
    + rewrite walk_app, walk_dotdots_root, walk_real by done.
      simpl. by rewrite app_nil_r.
    + apply Forall_app. split.
      * apply Forall_forall. intros x Hx. apply list_elem_of_In in Hx.
        apply repeat_spec in Hx. by subst.
      * eapply Forall_impl; [exact Hl|]. by intros ? [? ?].
Qed.

(** Cleaning a path does not change where it leads. *)
Lemma resolve_Clean s : resolve (Clean s) = resolve s.
Proof.
  unfold Clean. destruct (String.eqb_spec s "") as [->|Hs]; [done|].
  set (w := walk (is_rooted s) (WS 0 []) (split s)).
  assert (Hclean : Forall clean_elem (elems w)).
  { apply walk_clean; [apply split_all_noslash|constructor]. }
  assert (Hres : resolve s = rev (elems w)).
  { unfold resolve, w. f_equal. apply elems_walk_indep. }
  assert (Hrev : Forall clean_elem (rev (elems w))) by by apply Forall_rev.
  rewrite Hres. unfold output.
  destruct (is_rooted s) eqn:Hroot.
  - assert (up w = 0) as -> by (unfold w; by rewrite up_walk_rooted).
    unfold resolve. simpl split. rewrite walk_cons.
    change (step true (WS 0 []) "") with (WS 0 []).
    pose proof (resolve_join_clean 0 _ Hrev) as H. simpl in H.
    rewrite H. by rewrite rev_involutive.
  - destruct (repeat ".." (up w) ++ rev (elems w)) as [|x xs] eqn:Hout.
    + apply app_eq_nil in Hout as [_ ->]. done.
    + rewrite <- Hout. unfold resolve.
      rewrite resolve_join_clean by done. by rewrite rev_involutive.
Qed.

Lemma walk_rooted_state cs st :
  walk true (WS 0 st) cs = WS 0 (elems (walk true (WS 0 st) cs)).
Proof.
  pose proof (up_walk_rooted cs (WS 0 st)) as Hup.
  destruct (walk true (WS 0 st) cs) as [k e]. simpl in *. by subst.
Qed.

(** Where a joined name leads: walk the elements of the second name
    from the place the first one leads to. *)
Lemma resolve_Join a b :
  resolve (Join a b)
  = rev (elems (walk true (WS 0 (rev (resolve a))) (split b))).
Proof.
  unfold Join. destruct (String.eqb_spec a "") as [->|Ha]; simpl.
  - destruct (String.eqb_spec b "") as [->|Hb]; simpl; [done|].
    by rewrite resolve_Clean.
  - rewrite resolve_Clean. unfold resolve.
    rewrite split_app_sep, walk_app, rev_involutive.
    by rewrite (walk_rooted_state (split a)) at 1.
Qed.

Lemma walk_no_dotdot r k st cs :
  Forall (λ c, c ≠ "..") cs →
  walk r (WS k st) cs = WS k (rev (List.filter real cs) ++ st).
Proof.
  revert st. induction cs as [|c cs IH]; intros st Hcs; [done|].
  inversion Hcs as [|? ? Hc Hcs']; subst. rewrite walk_cons.
  unfold step, real. simpl List.filter.
  destruct (String.eqb_spec c ""); [by apply IH|].
  destruct (String.eqb_spec c "."); [by apply IH|].
  destruct (String.eqb_spec c ".."); [done|]. simpl.
  rewrite IH by done. by rewrite <- app_assoc.
Qed.

(** A name without [..] elements leads below the directory it is
    joined to. *)
Lemma resolve_Join_inside a b :
  Forall (λ c, c ≠ "..") (split b) →
  resolve (Join a b) = resolve a ++ List.filter real (split b).
Proof.
  intros Hb. rewrite resolve_Join, walk_no_dotdot by done. simpl.
  by rewrite rev_app_distr, !rev_involutive.
Qed.





End PathFacts.

(** ** The file tree *)

Section DiskFacts.

Lemma tput_kind t p new : p ≠ [] → kind (tput t p new) = kind t.
Proof.
  destruct p as [|c p]; [done|]. intros _. simpl.
  destruct t as [|ch]; [done|].
  destruct (ch !! c); [done|]. by destruct p.
Qed.

Lemma tlookup_tput_below t p r new :
  p ≠ [] → tlookup t (removelast p) = Found Dir →
  tlookup (tput t p new) (p ++ r) = tlookup new r.
Proof.
  revert t. induction p as [|c p IH]; intros t Hne Hpar; [done|].
  destruct p as [|c2 p].
  - simpl in *. destruct t as [|ch]; [done|].
    destruct (ch !! c); simpl; by rewrite lookup_insert_eq.
  - change (removelast (c :: c2 :: p)) with (c :: removelast (c2 :: p)) in Hpar.
    simpl in Hpar. destruct t as [|ch]; [done|].
    change (tput (TDir ch) (c :: c2 :: p) new)
      with (match ch !! c with
            | Some t' => TDir (<[c := tput t' (c2 :: p) new]> ch)
            | None => TDir ch
            end).
    destruct (ch !! c) as [t'|] eqn:Hc; [|done].
    change (tlookup (TDir (<[c:=tput t' (c2 :: p) new]> ch)) ((c :: c2 :: p) ++ r))
      with (match <[c:=tput t' (c2 :: p) new]> ch !! c with
            | None => Missing ENOENT
            | Some t'' => tlookup t'' ((c2 :: p) ++ r)
            end).
    rewrite lookup_insert_eq. by apply IH.
Qed.

Lemma tlookup_tput_self t p new :
  p ≠ [] → tlookup t (removelast p) = Found Dir →
  tlookup (tput t p new) p = Found (kind new).
Proof.
  intros Hne Hpar.
  pose proof (tlookup_tput_below t p [] new Hne Hpar) as H.
  by rewrite app_nil_r in H.
Qed.

Lemma tlookup_tput_other t p q new :
  ¬ p `prefix_of` q → tlookup (tput t p new) q = tlookup t q.
Proof.
  revert t q. induction p as [|c p IH]; intros t q Hnp.
  - destruct Hnp. apply prefix_nil.
  - destruct q as [|c' q].
    + change (Found (kind (tput t (c :: p) new)) = Found (kind t)).
      by rewrite tput_kind.
    + simpl. destruct t as [|ch]; [done|].
      destruct (ch !! c) as [t'|] eqn:Hc.
      * simpl. destruct (decide (c = c')) as [->|Hcc].
        -- rewrite lookup_insert_eq, Hc. apply IH.
           intros Hpre. apply Hnp. by apply prefix_cons.
        -- by rewrite lookup_insert_ne.
      * destruct p as [|c2 p]; [|done]. simpl.
        destruct (decide (c = c')) as [->|Hcc].
        -- destruct Hnp. apply prefix_cons, prefix_nil.
        -- by rewrite lookup_insert_ne.
Qed.

Lemma tlookup_prefix t p c r n :
  tlookup t (p ++ c :: r) = Found n → tlookup t p = Found Dir.
Proof.
  revert t. induction p as [|c0 p IH]; intros t H; simpl in *.
  - by destruct t.
  - destruct t as [|ch]; [done|]. destruct (ch !! c0); [by eapply IH|done].
Qed.

Lemma tlookup_missing_app t p r e :
  tlookup t p = Missing e → tlookup t (p ++ r) = Missing e.
Proof.
  revert t. induction p as [|c0 p IH]; intros t H; simpl in *; [done|].
  destruct t as [|ch]; [done|]. destruct (ch !! c0); [by apply IH|done].
Qed.

Lemma put_tree d p t :
  p ≠ [] → TDir (root (put d p t)) = tput (TDir (root d)) p t.
Proof.
  intros Hp. unfold put. destruct p as [|c p]; [done|].
  pose proof (tput_kind (TDir (root d)) (c :: p) t Hp) as Hk.
  by destruct (tput (TDir (root d)) (c :: p) t).
Qed.

Lemma faults_put d p t : faults (put d p t) = faults d.
Proof.
  unfold put. destruct p; [done|]. by destruct (tput _ _ _).
Qed.

Lemma faulty_put d p t o q : faulty (put d p t) o q = faulty d o q.
Proof. unfold faulty. by rewrite faults_put. Qed.

Lemma stat_root d : stat d [] = Found Dir.
Proof. done. Qed.

Lemma stat_put_self d p t :
  p ≠ [] → stat d (parent p) = Found Dir → stat (put d p t) p = Found (kind t).
Proof.
  intros Hp Hpar. unfold stat. rewrite put_tree by done.
  by apply tlookup_tput_self.
Qed.

Lemma stat_put_other d p q t :
  ¬ p `prefix_of` q → stat (put d p t) q = stat d q.
Proof.
  intros Hnp. unfold stat. destruct (decide (p = [])) as [->|Hp]; [done|].
  rewrite put_tree by done. by apply tlookup_tput_other.
Qed.

Lemma stat_found_prefix d p q n :
  stat d q = Found n → p `prefix_of` q → p ≠ q → stat d p = Found Dir.
Proof.
  intros Hq [r ->] Hne. destruct r as [|c r].
  - by rewrite app_nil_r in Hne.
  - by eapply tlookup_prefix.
Qed.

Lemma parent_snoc p c : parent (p ++ [c]) = p.
Proof. apply removelast_last. Qed.

Lemma parent_prefix p : p ≠ [] → ∃ c, p = parent p ++ [c].
Proof.
  intros Hp. destruct (exists_last Hp) as (q & c & ->).
  exists c. by rewrite parent_snoc.
Qed.

Lemma stat_found_parent d p n :
  stat d p = Found n → p ≠ [] → stat d (parent p) = Found Dir.
Proof.
  intros H Hp. destruct (parent_prefix p Hp) as [c Hc].
  rewrite Hc in H. by eapply tlookup_prefix.
Qed.

(** Putting a node where there is a regular file, or nothing, leaves
    every other existing node as it is. *)
Lemma stat_put_keeps d q t p n :
  stat d p = Found n → p ≠ q → stat d q ≠ Found Dir →
  stat (put d q t) p = Found n.
Proof.
  intros Hp Hne Hq. rewrite stat_put_other; [done|].
  intros Hpre. apply Hq. by eapply stat_found_prefix.
Qed.

Lemma stat_put_below d p t r :
  p ≠ [] → stat d (parent p) = Found Dir →
  stat (put d p t) (p ++ r) = tlookup t r.
Proof.
  intros Hp Hpar. unfold stat. rewrite put_tree by done.
  by apply tlookup_tput_below.
Qed.

Lemma stat_child_of_dir d p c :
  stat d p = Found Dir →
  (∃ n, stat d (p ++ [c]) = Found n) ∨ stat d (p ++ [c]) = Missing ENOENT.
Proof.
  unfold stat. generalize (TDir (root d)) as t.
  induction p as [|c0 p IH]; intros t H; simpl in *.
  - destruct t as [|ch]; [done|]. destruct (ch !! c); eauto.
  - destruct t as [|ch]; [done|]. destruct (ch !! c0); [by apply IH|done].
Qed.

(** *** The system calls *)

Lemma mkdir_faults p d : faults (os.mkdir p d).1 = faults d.
Proof.
  unfold os.mkdir. destruct (stat d p); [done|].
  destruct (stat d (parent p)) as [[|?]|?]; try done.
  destruct (faulty d OpMkdir p); [done|]. apply faults_put.
Qed.

(** [mkdir] only ever adds an empty directory at a missing place. *)
Lemma mkdir_cases p d :
  os.mkdir p d = (put d p (TDir ∅), None)
    ∧ p ≠ [] ∧ (∃ e, stat d p = Missing e) ∧ stat d (parent p) = Found Dir
  ∨ ∃ e, os.mkdir p d = (d, Some e).
Proof.
  unfold os.mkdir. destruct (stat d p) as [n|e] eqn:Hp; [eauto|].
  destruct (stat d (parent p)) as [[|?]|?] eqn:Hpar; eauto.
  destruct (faulty d OpMkdir p); eauto.
  left. repeat split; eauto. intros ->. by rewrite stat_root in Hp.
Qed.

Lemma mkdir_all_unfold rp d :
  os.mkdir_all rp d =
    match stat d (rev rp) with
    | Found Dir => (d, None)
    | Found (File _) => (d, Some ENOTDIR)
    | Missing _ =>
        match rp with
        | [] => (d, None)
        | _ :: rparent =>
            match os.mkdir_all rparent d with
            | (d', Some e) => (d', Some e)
            | (d', None) => os.mkdir (rev rp) d'
            end
        end
    end.
Proof. by destruct rp. Qed.

Lemma open_trunc_cases p d :
  os.open_trunc p d = (put d p (TFile ""), None)
    ∧ p ≠ [] ∧ stat d p ≠ Found Dir ∧ stat d (parent p) = Found Dir
  ∨ ∃ e, os.open_trunc p d = (d, Some e).
Proof.
  unfold os.open_trunc. destruct (stat d p) as [[|c]|e] eqn:Hp; eauto.
  - destruct (faulty d OpOpenWrite p); eauto. left.
    assert (p ≠ []) by (intros ->; by rewrite stat_root in Hp).
    repeat split; eauto. by eapply stat_found_parent.
  - destruct e; eauto.
    destruct (stat d (parent p)) as [[|?]|?] eqn:Hpar; eauto.
    destruct (faulty d OpOpenWrite p); eauto. left.
    repeat split; eauto. intros ->. by rewrite stat_root in Hp.
Qed.

Lemma write_cases p data d :
  os.write p data d = (put d p (TFile data), None)
  ∨ os.write p data d = (d, Some EIO).
Proof. unfold os.write. destruct (faulty d OpWrite p); eauto. Qed.

End DiskFacts.

(** ** How the system calls change the tree *)

Section Evolution.

Lemma evolves_one d u : legal d u → evolves d [u] (apply_update d u).
Proof. intros. econstructor; [done|constructor]. Qed.

Lemma evolves_app d us d' us' d'' :
  evolves d us d' → evolves d' us' d'' → evolves d (us ++ us') d''.
Proof.
  induction 1 as [|d u us d' Hl H IH]; intros H'; [done|].
  simpl. econstructor; [done|]. by apply IH.
Qed.

Lemma apply_update_put d u : ∃ t, apply_update d u = put d (upath u) t.
Proof. destruct u; simpl; eauto. Qed.

Lemma legal_not_dir d u : legal d u → stat d (upath u) ≠ Found Dir.
Proof.
  intros (_ & _ & H). destruct u as [p|p c]; simpl in *; [|done].
  destruct H as [e He]. by rewrite He.
Qed.

Lemma evolves_faults d us d' : evolves d us d' → faults d' = faults d.
Proof.
  induction 1 as [|d u us d' Hl H IH]; [done|]. rewrite IH.
  destruct u; apply faults_put.
Qed.

(** A directory stays a directory. *)
Lemma evolves_dir d us d' q :
  evolves d us d' → stat d q = Found Dir → stat d' q = Found Dir.
Proof.
  induction 1 as [|d u us d' Hl H IH]; intros Hq; [done|]. apply IH.
  pose proof (legal_not_dir _ _ Hl) as Hnd.
  destruct (apply_update_put d u) as [t ->].
  apply stat_put_keeps; [done| |done]. intros ->. done.
Qed.

(** An existing node that no update rewrites is kept as it is. *)
Lemma evolves_keeps d us d' q n :
  evolves d us d' → stat d q = Found n →
  Forall (λ u, is_SetFile u → upath u ≠ q) us →
  stat d' q = Found n.
Proof.
  induction 1 as [|d u us d' Hl H IH]; intros Hq Hus; [done|].
  inversion Hus as [|? ? Hu Hus']; subst. apply IH; [|done].
  pose proof (legal_not_dir _ _ Hl) as Hnd.
  destruct (apply_update_put d u) as [t Ht]. rewrite Ht.
  apply stat_put_keeps; [done| |done].
  destruct u as [p|p c]; simpl in *.
  - destruct Hl as (_ & _ & [e He]). intros ->. by rewrite He in Hq.
  - intros ->. by apply Hu.
Qed.

(** A regular file stays a regular file. *)
Lemma evolves_file d us d' q c :
  evolves d us d' → stat d q = Found (File c) →
  ∃ c', stat d' q = Found (File c').
Proof.
  intros H. revert c. induction H as [|d u us d' Hl H IH]; intros c Hq; [eauto|].
  destruct (decide (upath u = q)) as [Heq|Hne].
  - destruct u as [p|p c0]; simpl in *; subst.
    + destruct Hl as (_ & _ & [e He]). by rewrite He in Hq.
    + destruct Hl as (Hp & Hpar & _). eapply IH.
      by rewrite stat_put_self.
  - eapply IH. pose proof (legal_not_dir _ _ Hl) as Hnd.
    destruct (apply_update_put d u) as [t ->].
    by apply stat_put_keeps.
Qed.

(** Nothing changes outside a directory that contains every update. *)
Lemma evolves_frame d us d' base q :
  evolves d us d' → Forall (λ u, base `prefix_of` upath u) us →
  ¬ base `prefix_of` q → stat d' q = stat d q.
Proof.
  induction 1 as [|d u us d' Hl H IH]; intros Hus Hq; [done|].
  inversion Hus as [|? ? Hu Hus']; subst. rewrite IH by done.
  destruct (apply_update_put d u) as [t ->].
  apply stat_put_other. intros Hpre. apply Hq. by etrans.
Qed.

(** *** mkdir, MkdirAll *)

Lemma mkdir_evolves p d :
  ∃ us, evolves d us (os.mkdir p d).1 ∧ Forall (λ u, u = MkDir p) us
        ∧ ((os.mkdir p d).2 = None → stat (os.mkdir p d).1 p = Found Dir).
Proof.
  destruct (mkdir_cases p d) as [(-> & Hp & Hm & Hpar)|[e ->]].
  - exists [MkDir p]. simpl. split_and!.
    + by apply (evolves_one d (MkDir p)).
    + by repeat constructor.
    + intros _. by rewrite stat_put_self.
  - exists []. simpl. split_and!; [constructor|constructor|done].
Qed.

Lemma mkdir_all_evolves rp d :
  ∃ us, evolves d us (os.mkdir_all rp d).1
        ∧ Forall (λ u, ¬ is_SetFile u ∧ upath u `prefix_of` rev rp) us
        ∧ (∀ base, stat d base = Found Dir → base `prefix_of` rev rp →
             Forall (λ u, base `prefix_of` upath u) us)
        ∧ ((os.mkdir_all rp d).2 = None →
             stat (os.mkdir_all rp d).1 (rev rp) = Found Dir).
Proof.
  induction rp as [|c rp IH]; rewrite mkdir_all_unfold.
  - exists []. rewrite stat_root. simpl. split_and!; try constructor; done.
  - destruct (stat d (rev (c :: rp))) as [[|x]|e] eqn:Hst.
    + exists []. simpl. split_and!; try constructor; done.
    + exists []. simpl. split_and!; try constructor; done.
    + destruct IH as (us & Hev & Hus & Hbase & Hok).
      assert (Hsub : ∀ base, stat d base = Found Dir →
                base `prefix_of` rev rp ++ [c] → base `prefix_of` rev rp).
      { intros base Hb [k Hk].
        destruct (exists_last (l:=k)) as (k' & x & ->).
        { intros ->. rewrite app_nil_r in Hk. subst base.
          simpl in Hst. by rewrite Hst in Hb. }
        rewrite app_assoc in Hk. apply app_inj_tail in Hk as [-> _].
        by exists k'. }
      assert (Hus' : Forall (λ u, ¬ is_SetFile u ∧ upath u `prefix_of` rev rp ++ [c]) us).
      { eapply Forall_impl; [exact Hus|]. intros u [? ?]. split; [done|].
        etrans; [done|]. by apply prefix_app_r. }
      destruct (os.mkdir_all rp d) as [d1 [e1|]] eqn:Hrec; simpl in *.
      * exists us. split_and!; [done|done| |done].
        intros base Hb Hpre. apply Hbase; [done|]. by apply Hsub.
      * destruct (mkdir_evolves (rev rp ++ [c]) d1) as (us2 & Hev2 & Hus2 & Hok2).
        exists (us ++ us2). split_and!.
        -- by eapply evolves_app.
        -- apply Forall_app. split; [done|].
           eapply Forall_impl; [exact Hus2|]. intros u ->. simpl.
           split; [tauto|done].
        -- intros base Hb Hpre. apply Forall_app. split.
           ++ apply Hbase; [done|]. by apply Hsub.
           ++ eapply Forall_impl; [exact Hus2|]. by intros u ->.
        -- done.
Qed.

(** *** open for writing, write *)

Lemma open_trunc_evolves p d :
  ∃ us, evolves d us (os.open_trunc p d).1
        ∧ Forall (λ u, upath u = p) us
        ∧ ((os.open_trunc p d).2 = None →
             stat (os.open_trunc p d).1 p = Found (File "")).
Proof.
  destruct (open_trunc_cases p d) as [(-> & Hp & Hnd & Hpar)|[e ->]].
  - exists [SetFile p ""]. simpl. split_and!.
    + by apply (evolves_one d (SetFile p "")).
    + by repeat constructor.
    + intros _. by rewrite stat_put_self.
  - exists []. simpl. split_and!; [constructor|constructor|done].
Qed.

Lemma write_evolves p data d c0 :
  stat d p = Found (File c0) →
  ∃ us, evolves d us (os.write p data d).1
        ∧ Forall (λ u, upath u = p) us
        ∧ ((os.write p data d).2 = None →
             stat (os.write p data d).1 p = Found (File data)).
Proof.
  intros Hst.
  assert (Hp : p ≠ []) by (intros ->; by rewrite stat_root in Hst).
  pose proof (stat_found_parent _ _ _ Hst Hp) as Hpar.
  destruct (write_cases p data d) as [->| ->].
  - exists [SetFile p data]. simpl. split_and!.
    + apply (evolves_one d (SetFile p data)). split_and!; try done.
      simpl. by rewrite Hst.
    + by repeat constructor.
    + intros _. by rewrite stat_put_self.
  - exists []. simpl. split_and!; [constructor|constructor|done].
Qed.

End Evolution.

(** ** Running the calls *)

Section Runs.

Lemma bind_run {A B} (m : IO A) (k : A → IO B) d :
  (m ≫= k) d = then_run (m d) k.
Proof. done. Qed.

Lemma run_eta {A} (x : Run A) : mkRun (disk_of x) (log_of x) (val_of x) = x.
Proof. by destruct x. Qed.

Lemma then_run_mk {A B} d l (v : A) (k : A → IO B) :
  then_run (mkRun d l v) k =
    mkRun (disk_of (k v d)) (l ++ log_of (k v d)) (val_of (k v d)).
Proof. done. Qed.

Lemma ret_run {A} (a : A) d : (mret a : IO A) d = mkRun d [] a.
Proof. done. Qed.

Lemma emit_run e d : emit e d = mkRun d [e] tt.
Proof. done. Qed.

Lemma SetStatus_run msg d : statushooks.SetStatus msg d = mkRun d [EvStatus msg] tt.
Proof. done. Qed.

Lemma MkdirAll_run name d :
  os.MkdirAll name d =
    mkRun (os.mkdir_all (rev (resolve name)) d).1 [EvMkdirAll name]
      (match (os.mkdir_all (rev (resolve name)) d).2 with
       | Some e => Some (PathError "mkdir" (resolve name) e)
       | None => None
       end).
Proof.
  unfold os.MkdirAll, mbind, IO_bind, emit, get_disk. simpl.
  by destruct (os.mkdir_all (rev (resolve name)) d).
Qed.

Lemma Create_run name d :
  os.Create name d =
    mkRun (os.open_trunc (resolve name) d).1 [EvCreate name]
      (match (os.open_trunc (resolve name) d).2 with
       | Some e => inr (PathError "open" (resolve name) e)
       | None => inl name
       end).
Proof.
  unfold os.Create, mbind, IO_bind, emit, get_disk. simpl.
  by destruct (os.open_trunc (resolve name) d).
Qed.

Lemma Copy_run dst body body_err d :
  io.Copy dst body body_err d =
    if String.eqb body "" then mkRun d [EvCopy dst body] body_err
    else
      mkRun (os.write (resolve dst) body d).1 [EvCopy dst body]
        (match (os.write (resolve dst) body d).2 with
         | Some e => Some (PathError "write" (resolve dst) e)
         | None => body_err
         end).
Proof.
  unfold io.Copy, mbind, IO_bind, emit, get_disk. simpl.
  destruct (String.eqb body ""); [done|].
  by destruct (os.write (resolve dst) body d).
Qed.

Lemma WriteFile_run name data d :
  os.WriteFile name data d =
    match os.open_trunc (resolve name) d with
    | (d1, Some e) =>
        mkRun d1 [EvWriteFile name data] (Some (PathError "open" (resolve name) e))
    | (d1, None) =>
        mkRun (os.write (resolve name) data d1).1 [EvWriteFile name data]
          (match (os.write (resolve name) data d1).2 with
           | Some e => Some (PathError "write" (resolve name) e)
           | None => None
           end)
    end.
Proof.
  unfold os.WriteFile, mbind, IO_bind, emit, get_disk. simpl.
  destruct (os.open_trunc (resolve name) d) as [d1 [e|]]; [done|].
  simpl. by destruct (os.write (resolve name) data d1).
Qed.

Lemma ReadFile_run name d :
  os.ReadFile name d =
    mkRun d [EvReadFile name]
      (match stat d (resolve name) with
       | Found (File c) =>
           if faulty d OpRead (resolve name)
           then ("", Some (PathError "read" (resolve name) EIO))
           else (c, None)
       | Found Dir => ("", Some (PathError "read" (resolve name) EISDIR))
       | Missing e => ("", Some (PathError "open" (resolve name) e))
       end).
Proof. done. Qed.

Lemma FileExists_run name d :
  filehelpers.FileExists name d =
    mkRun d [EvStat name]
      (match stat d (resolve name) with
       | Missing ENOENT => false
       | _ => true
       end).
Proof. done. Qed.

(** The loop, one record at a time. *)
Lemma extract_loop_cons ctx dest r l d :
  dashboardassets.extract_loop ctx (r :: l) dest d =
    match tar.err r with
    | Some e => mkRun d [] (if is_EOF e then None else Some e)
    | None =>
        match tar.hdr r with
        | None => dashboardassets.extract_loop ctx l dest d
        | Some h =>
            let x := extract_entry ctx dest h r d in
            match val_of x with
            | Some _ => x
            | None => then_run x (λ _, dashboardassets.extract_loop ctx l dest)
            end
        end
    end.
Proof.
  simpl. destruct (tar.err r) as [e|]; [by destruct (is_EOF e)|].
  destruct (tar.hdr r) as [h|]; [|done].
  unfold extract_entry.
  destruct (Ascii.eqb (tar.Typeflag h) tar.TypeDir).
  { rewrite bind_run.
    destruct (os.MkdirAll _ d) as [d1 l1 [e|]] eqn:Hm; unfold then_run; simpl.
    - by rewrite app_nil_r.
    - done. }
  destruct (Ascii.eqb (tar.Typeflag h) tar.TypeReg); [|done].
  rewrite !bind_run, !SetStatus_run, !then_run_mk, !bind_run.
  destruct (os.Create _ d) as [d1 l1 [f|e]] eqn:Hc;
    rewrite !then_run_mk; cbn [val_of disk_of log_of]; [|done].
  rewrite !bind_run.
  destruct (io.Copy f _ _ d1) as [d2 l2 [e|]] eqn:Hv;
    rewrite !then_run_mk; cbn [val_of disk_of log_of].
  - rewrite ret_run. cbn [val_of disk_of log_of]. by rewrite app_nil_r.
  - by rewrite <- !app_assoc.
Qed.

End Runs.

(** ** Extraction, entry by entry *)

Section Extraction.

Context (ctx : Context) (dest : string).

Lemma entry_evolves h r d :
  let x := extract_entry ctx dest h r d in
  ∃ us, evolves d us (disk_of x)
    ∧ Forall (λ u, upath u `prefix_of` target_of dest h
                   ∧ (is_SetFile u →
                      upath u = target_of dest h ∧ tar.Typeflag h = tar.TypeReg)) us
    ∧ (∀ base, stat d base = Found Dir → base `prefix_of` target_of dest h →
         Forall (λ u, base `prefix_of` upath u) us)
    ∧ (tar.Typeflag h = tar.TypeReg → val_of x = None →
         stat (disk_of x) (target_of dest h) = Found (File (tar.body r)))
    ∧ (tar.Typeflag h = tar.TypeDir → val_of x = None →
         stat (disk_of x) (target_of dest h) = Found Dir)
    ∧ (∀ e n, e ∈ log_of x → written_name e = Some n →
         n = filepath.Join dest (tar.Name h)).
Proof.
  unfold extract_entry, target_of.
  set (target := filepath.Join dest (tar.Name h)).
  destruct (Ascii.eqb_spec (tar.Typeflag h) tar.TypeDir) as [Hd|Hd].
  { rewrite MkdirAll_run. cbn [disk_of log_of val_of].
    set (T := resolve target).
    destruct (mkdir_all_evolves (rev T) d) as (us & Hev & Hus & Hbase & Hok).
    rewrite rev_involutive in *.
    exists us. split_and!; [exact Hev| |exact Hbase| | |].
    - eapply Forall_impl; [exact Hus|]. intros u [Hn Hp]. split; [done|].
      intros Hs. by destruct Hn.
    - rewrite Hd. done.
    - intros _ Hv. apply Hok. by destruct (os.mkdir_all (rev T) d).2.
    - intros e n He Hn. apply list_elem_of_singleton in He. subst e.
      simpl in Hn. congruence. }
  destruct (Ascii.eqb_spec (tar.Typeflag h) tar.TypeReg) as [Hr|Hr].
  2:{ rewrite ret_run. cbn [disk_of log_of val_of]. exists [].
      split_and!; try done; try constructor.
      intros e n He. by apply elem_of_nil in He. }
  rewrite !bind_run, !SetStatus_run, !then_run_mk, !bind_run, Create_run.
  rewrite !then_run_mk. set (T := resolve target).
  destruct (open_trunc_evolves T d) as (us1 & Hev1 & Hus1 & Hok1).
  destruct (os.open_trunc T d) as [d1 [e1|]] eqn:Hopen; cbn [fst snd] in *.
  { rewrite ret_run. cbn [disk_of log_of val_of]. exists us1.
    split_and!; try done.
    - eapply Forall_impl; [exact Hus1|]. by intros u ->.
    - intros base _ Hb. eapply Forall_impl; [exact Hus1|]. by intros u ->.
    - intros e n He Hn. rewrite app_nil_r in He.
      apply elem_of_cons in He as [->|He]; [done|].
      apply list_elem_of_singleton in He. subst e. simpl in Hn. congruence. }
  specialize (Hok1 eq_refl). rewrite Copy_run. fold T.
  assert (Hnames : ∀ e n, e ∈ [EvStatus ("Extracting " +:+ tar.Name h +:+
              dashboardassets.ellipsis)] ++ [EvCreate target]
              ++ [EvCopy target (tar.body r)] →
            written_name e = Some n → n = target).
  { intros e n He Hn. simpl in He.
    repeat (apply elem_of_cons in He as [->|He]; [simpl in Hn; congruence|]).
    by apply elem_of_nil in He. }
  destruct (String.eqb_spec (tar.body r) "") as [Hb|Hb].
  { cbn [disk_of log_of val_of]. exists us1. split_and!; try done.
    - eapply Forall_impl; [exact Hus1|]. by intros u ->.
    - intros base _ Hpre. eapply Forall_impl; [exact Hus1|]. by intros u ->.
    - intros _ _. by rewrite Hb. }
  destruct (write_evolves T (tar.body r) d1 "" Hok1) as (us2 & Hev2 & Hus2 & Hok2).
  cbn [disk_of log_of val_of]. exists (us1 ++ us2). split_and!; try done.
  - by eapply evolves_app.
  - apply Forall_app. split; (eapply Forall_impl; [eassumption|]); by intros u ->.
  - intros base _ Hpre.
    apply Forall_app. split; (eapply Forall_impl; [eassumption|]); by intros u ->.
  - intros _ Hv. apply Hok2. by destruct (os.write T (tar.body r) d1).2.
Qed.

(** An entry that is neither a directory nor a regular file. *)
Lemma entry_unknown h r d :
  tar.Typeflag h ≠ tar.TypeDir → tar.Typeflag h ≠ tar.TypeReg →
  extract_entry ctx dest h r d =
    mkRun d [] (Some (sperr_New
      ("ExtractTarGz: uknown type: " ++ fmt.b (tar.Typeflag h)
         ++ " in " ++ tar.Name h))).
Proof.
  intros Hd Hr. unfold extract_entry.
  destruct (Ascii.eqb_spec (tar.Typeflag h) tar.TypeDir); [done|].
  destruct (Ascii.eqb_spec (tar.Typeflag h) tar.TypeReg); [done|]. done.
Qed.

Lemma placed_mono l l' P : l ⊆ l' → placed l P → placed l' P.
Proof. intros Hl (r & h & Hr & Hh & HP). exists r, h. eauto. Qed.

Lemma placed_here r l h (P : tar.Header → Prop) :
  tar.hdr r = Some h → P h → placed (r :: l) P.
Proof. intros Hh HP. exists r, h. split; [by left|done]. Qed.

Lemma placed_later r l (P : tar.Header → Prop) : placed l P → placed (r :: l) P.
Proof. apply placed_mono. by apply list_subseteq_cons. Qed.

Lemma loop_evolves l d :
  let x := dashboardassets.extract_loop ctx l dest d in
  ∃ us, evolves d us (disk_of x)
    ∧ Forall (λ u, placed l (λ h,
                upath u `prefix_of` target_of dest h
                ∧ (is_SetFile u →
                   upath u = target_of dest h ∧ tar.Typeflag h = tar.TypeReg))) us
    ∧ (∀ base, stat d base = Found Dir →
         (∀ r h, r ∈ l → tar.hdr r = Some h → base `prefix_of` target_of dest h) →
         Forall (λ u, base `prefix_of` upath u) us)
    ∧ (∀ e n, e ∈ log_of x → written_name e = Some n →
         placed l (λ h, n = filepath.Join dest (tar.Name h))).
Proof.
  revert d. induction l as [|r l IH]; intros d.
  { exists []. simpl. split_and!; try constructor.
    intros ev n He. by apply elem_of_nil in He. }
  cbv zeta. rewrite extract_loop_cons.
  destruct (tar.err r) as [e0|].
  { exists []. simpl. split_and!; try constructor.
    intros e' n He. by apply elem_of_nil in He. }
  destruct (tar.hdr r) as [h|] eqn:Hh.
  2:{ destruct (IH d) as (us & Hev & Hus & Hbase & Hnames). exists us.
      split_and!; [done| | |].
      - eapply Forall_impl; [exact Hus|]. intros u. apply placed_later.
      - intros base Hb Hall. apply Hbase; [done|]. intros r' h' Hr'.
        apply Hall. by right.
      - intros ev n He Hn. eapply placed_later. by eapply Hnames. }
  cbv zeta.
  destruct (entry_evolves h r d) as (us1 & Hev1 & Hus1 & Hbase1 & _ & _ & Hn1).
  assert (Hus1' : Forall (λ u, placed (r :: l) (λ h,
                upath u `prefix_of` target_of dest h
                ∧ (is_SetFile u →
                   upath u = target_of dest h ∧ tar.Typeflag h = tar.TypeReg))) us1).
  { eapply Forall_impl; [exact Hus1|]. intros u Hu. by eapply placed_here. }
  destruct (val_of (extract_entry ctx dest h r d)) eqn:Hv.
  { exists us1. split_and!; [done|done| |].
    - intros base Hb Hall. apply Hbase1; [done|]. eapply Hall; [|done]. by left.
    - intros ev n He Hn. eapply placed_here; [done|]. by eapply Hn1. }
  rewrite <- (run_eta (extract_entry ctx dest h r d)), then_run_mk.
  cbn [disk_of log_of val_of].
  destruct (IH (disk_of (extract_entry ctx dest h r d)))
    as (us2 & Hev2 & Hus2 & Hbase2 & Hn2).
  exists (us1 ++ us2). split_and!.
  - by eapply evolves_app.
  - apply Forall_app. split; [done|].
    eapply Forall_impl; [exact Hus2|]. intros u. apply placed_later.
  - intros base Hb Hall. apply Forall_app. split.
    + apply Hbase1; [done|]. eapply Hall; [|done]. by left.
    + apply Hbase2; [by eapply evolves_dir|]. intros r' h' Hr'.
      apply Hall. by right.
  - intros ev n He Hn. apply elem_of_app in He as [He|He].
    + eapply placed_here; [done|]. by eapply Hn1.
    + eapply placed_later. by eapply Hn2.
Qed.

(** Records that do not end the stream can be processed in two
    parts. *)
Lemma loop_app l1 l2 d :
  Forall (λ r, ends_stream r = false) l1 →
  dashboardassets.extract_loop ctx (l1 ++ l2) dest d =
    let x := dashboardassets.extract_loop ctx l1 dest d in
    match val_of x with
    | Some _ => x
    | None => then_run x (λ _, dashboardassets.extract_loop ctx l2 dest)
    end.
Proof.
  revert d. induction l1 as [|r l1 IH]; intros d Hl1.
  { simpl. rewrite ret_run, then_run_mk. simpl. by rewrite run_eta. }
  inversion Hl1 as [|? ? Hr Hl1']; subst.
  change ((r :: l1) ++ l2) with (r :: (l1 ++ l2)).
  cbv zeta. rewrite !extract_loop_cons. unfold ends_stream in Hr.
  destruct (tar.err r) as [e|]; [by rewrite Hr|].
  destruct (tar.hdr r) as [h|]; [|by apply IH].
  cbv zeta. destruct (extract_entry ctx dest h r d) as [d1 lg1 [e|]]; [done|].
  rewrite !then_run_mk. cbn [val_of]. rewrite IH by done. cbv zeta.
  destruct (dashboardassets.extract_loop ctx l1 dest d1) as [d2 lg2 [e|]];
    cbn [val_of disk_of log_of]; [done|].
  rewrite !then_run_mk. cbn [val_of disk_of log_of]. by rewrite app_assoc.
Qed.

End Extraction.

(** ** encoding/json: what is written is read back *)

Section JsonFacts.

Import json.

Lemma append_assoc (a b c : string) : ((a ++ b) ++ c = a ++ (b ++ c))%string.
Proof.
  induction a as [|x a IH]; [done|].
  change (String x ((a ++ b) ++ c) = String x (a ++ (b ++ c)))%string.
  by rewrite IH.
Qed.

Lemma list_ascii_of_string_app (a b : string) :
  list_ascii_of_string (a ++ b)
  = list_ascii_of_string a ++ list_ascii_of_string b.
Proof.
  induction a as [|x a IH]; [done|].
  change (x :: list_ascii_of_string (a ++ b)
          = x :: (list_ascii_of_string a ++ list_ascii_of_string b)).
  by rewrite IH.
Qed.

Lemma escaped_cons c v :
  N.ltb (utf8.byte_val c) 128 = true →
  escaped (String c v) = (escape_byte c ++ escaped v)%string.
Proof.
  intros Hc. unfold escaped.
  change (appendString_from (Copy 0) (String c v))
    with (if N.ltb (utf8.byte_val c) 128
          then (escape_byte c ++ appendString_from (Copy 0) v)%string
          else
            let '(rune, size) := utf8.DecodeRune (String c v) in
            if N.eqb rune utf8.RuneError && Nat.eqb size 1
            then (String backslash "ufffd" ++ appendString_from (Copy 0) v)%string
            else if N.eqb rune 8232 || N.eqb rune 8233
                 then (String backslash
                    (String "u" (String "2" (String "0" (String "2"
                       (String (hex_digit (N.land rune 15)) "")))))
                    ++ appendString_from (Skip (Nat.pred size)) v)%string
                 else String c (appendString_from (Copy (Nat.pred size)) v)).
  by rewrite Hc.
Qed.

Lemma ascii_top (b0 b1 b2 b3 b4 b5 b6 : bool) :
  N.ltb (utf8.byte_val (Ascii b0 b1 b2 b3 b4 b5 b6 true)) 128 = false.
Proof. by destruct b0, b1, b2, b3, b4, b5, b6. Qed.

Ltac each_byte c H :=
  destruct c as [b0 b1 b2 b3 b4 b5 b6 b7];
  destruct b7; [by rewrite ascii_top in H|];
  clear H; destruct b0, b1, b2, b3, b4, b5, b6.

(** The lexer runs through the escape of a byte and stays inside the
    string literal. *)
Lemma lex_escape_byte c acc toks rest :
  N.ltb (utf8.byte_val c) 128 = true →
  lex (LStr acc false) toks (escape_byte c ++ rest)
  = lex (LStr (rev (list_ascii_of_string (escape_byte c)) ++ acc) false) toks rest.
Proof. intros Hc. each_byte c Hc; reflexivity. Qed.

Lemma lex_escaped v acc toks rest :
  all_ascii v = true →
  lex (LStr acc false) toks (escaped v ++ rest)
  = lex (LStr (rev (list_ascii_of_string (escaped v)) ++ acc) false) toks rest.
Proof.
  revert acc. induction v as [|c v IH]; intros acc Hv; [done|].
  apply andb_prop in Hv as [Hc Hv].
  rewrite escaped_cons, append_assoc, lex_escape_byte, IH by done.
  by rewrite list_ascii_of_string_app, rev_app_distr, <- app_assoc.
Qed.

(** Unquoting the escape of a byte gives the byte back. *)
Lemma unquote_escape_byte c rest :
  N.ltb (utf8.byte_val c) 128 = true →
  unquote_from 0 (escape_byte c ++ rest) = String c <$> unquote_from 0 rest.
Proof. intros Hc. each_byte c Hc; reflexivity. Qed.

Lemma unquote_escaped v : all_ascii v = true → unquote (escaped v) = Some v.
Proof.
  unfold unquote. induction v as [|c v IH]; intros Hv; [done|].
  apply andb_prop in Hv as [Hc Hv].
  by rewrite escaped_cons, unquote_escape_byte, IH.
Qed.

Lemma Marshal_version v :
  (json.Marshal [("version", v)]).1
  = ("{" ++ String quote ("version" ++ String quote (":" ++ String quote
       (escaped v ++ String quote "}"))))%string.
Proof.
  change ((json.Marshal [("version", v)]).1)
    with ("{" ++ (String quote ("version" ++ String quote "") ++ ":"
            ++ String quote (escaped v ++ String quote "")) ++ "}")%string.
  change ("{" ++ (String quote ("version" ++ String quote "") ++ ":"
            ++ String quote (escaped v ++ String quote "")) ++ "}")%string
    with ("{" ++ String quote ("version" ++ String quote (":"
            ++ (String quote (escaped v ++ String quote "") ++ "}"))))%string.
  change (String quote (escaped v ++ String quote "") ++ "}")%string
    with (String quote ((escaped v ++ String quote "") ++ "}"))%string.
  by rewrite append_assoc.
Qed.

Lemma lex_Marshal_version v :
  all_ascii v = true →
  lex LOut [] (json.Marshal [("version", v)]).1
  = Some [TLBrace; TString "version"; TColon; TString (escaped v); TRBrace].
Proof.
  intros Hv. rewrite Marshal_version.
  change (lex LOut [] ("{" ++ String quote ("version" ++ String quote (":"
            ++ String quote (escaped v ++ String quote "}")))))
    with (lex (LStr [] false) [TColon; TString "version"; TLBrace]
            (escaped v ++ String quote "}")).
  rewrite lex_escaped by done.
  change (lex (LStr (rev (list_ascii_of_string (escaped v)) ++ []) false)
            [TColon; TString "version"; TLBrace] (String quote "}"))
    with (Some [TLBrace; TString "version"; TColon;
                TString (of_rev (rev (list_ascii_of_string (escaped v)) ++ []));
                TRBrace]).
  unfold of_rev. rewrite app_nil_r, rev_involutive.
  by rewrite string_of_list_ascii_of_string.
Qed.

Lemma parse_Marshal_version v :
  all_ascii v = true →
  parse (json.Marshal [("version", v)]).1 = Some (Object [("version", Str v)]).
Proof.
  intros Hv. unfold parse. rewrite lex_Marshal_version by done.
  change ((st ← (s ← unquote (escaped v);
                 push_value (Str s) [FObj [] (Some "version")]);
           parse_tokens st [TRBrace]) = Some (Object [("version", Str v)])).
  rewrite unquote_escaped by done. reflexivity.
Qed.

(** What [Marshal] writes for the marker, [Unmarshal] reads back. *)
Lemma Unmarshal_Marshal_version v v0 :
  all_ascii v = true →
  json.Unmarshal (json.Marshal [("version", v)]).1 [("version", v0)]
  = ([("version", v)], None).
Proof.
  intros Hv. unfold json.Unmarshal. rewrite parse_Marshal_version by done.
  reflexivity.
Qed.

Lemma Unmarshal_empty fields :
  json.Unmarshal "" fields = (fields, Some json_SyntaxError).
Proof. done. Qed.

End JsonFacts.

(** ** The marker and the version gate *)

(** Push a run through binds, emits and returns. *)
Ltac io_run :=
  repeat (progress (rewrite ?bind_run, ?emit_run, ?ret_run, ?SetStatus_run,
                      ?then_run_mk; cbn [val_of disk_of log_of])).

Section Gate.

Context (env : Env).

Let marker := ReportAssetsVersionFilePath env.
Let v := AppVersion_String env.

(** The loader, case by case. *)
Lemma load_run d :
  dashboardassets.loadReportAssetVersionFile env d =
    match persisted_marker env d with
    | MarkerAbsent => mkRun d [EvStat marker] (inl (mkVersionFile ""))
    | MarkerPresent m => mkRun d (gate_log_hit env) (inl m)
    | MarkerCorrupt =>
        mkRun d (gate_log_corrupt env)
          (inr (match (json.Unmarshal (val_of (os.ReadFile marker d)).1
                         [("version", "")]).2 with
                | Some e => e
                | None => json_SyntaxError
                end))
    end.
Proof.
  unfold dashboardassets.loadReportAssetVersionFile, persisted_marker.
  fold marker. rewrite bind_run, FileExists_run, then_run_mk.
  destruct (stat d (resolve marker)) as [[|c]|e] eqn:Hst;
    cbn [negb]; try (destruct e; cbn [negb]); try reflexivity;
    rewrite bind_run, ReadFile_run, then_run_mk, Hst; try reflexivity.
  destruct (faulty d OpRead (resolve marker)); [reflexivity|].
  cbn [fst snd val_of]. unfold dashboardassets.fields_of. cbn [Version].
  destruct (json.Unmarshal c [("version", "")]) as [fields [e|]]; reflexivity.
Qed.

Lemma load_disk d :
  disk_of (dashboardassets.loadReportAssetVersionFile env d) = d.
Proof. rewrite load_run. by destruct (persisted_marker env d). Qed.

(** The version gate, case by case. *)
Lemma gate_run d :
  dashboardassets.installedAsstesMatchAppVersion env d =
    match persisted_marker env d with
    | MarkerAbsent => mkRun d [EvStat marker] (String.eqb "" v)
    | MarkerPresent m => mkRun d (gate_log_hit env) (String.eqb (Version m) v)
    | MarkerCorrupt => mkRun d (gate_log_corrupt env) false
    end.
Proof.
  unfold dashboardassets.installedAsstesMatchAppVersion.
  rewrite bind_run, load_run.
  destruct (persisted_marker env d); rewrite then_run_mk; reflexivity.
Qed.

Lemma gate_disk d :
  disk_of (dashboardassets.installedAsstesMatchAppVersion env d) = d.
Proof. rewrite gate_run. by destruct (persisted_marker env d). Qed.

Lemma gate_no_write d e :
  e ∈ log_of (dashboardassets.installedAsstesMatchAppVersion env d) →
  is_write e = false.
Proof.
  rewrite gate_run. unfold gate_log_hit, gate_log_corrupt.
  destruct (persisted_marker env d); cbn [log_of]; intros He;
    repeat (apply elem_of_cons in He as [->|He]; [done|]);
    by apply elem_of_nil in He.
Qed.

(** [Ensure] is the gate followed, on a mismatch, by the install. *)
Lemma Ensure_run ctx d :
  dashboardassets.Ensure env ctx d =
    let g := dashboardassets.installedAsstesMatchAppVersion env d in
    if val_of g then
      mkRun d ([EvLogTime "dashboardassets.Ensure start"] ++ log_of g
                 ++ [EvLogTime "dashboardassets.Ensure end"]) None
    else
      let s := install env ctx d in
      mkRun (disk_of s)
        ([EvLogTime "dashboardassets.Ensure start"] ++ log_of g ++ log_of s
           ++ [EvLogTime "dashboardassets.Ensure end"])
        (val_of s).
Proof.
  unfold dashboardassets.Ensure. fold (install env ctx).
  unfold logging.LogTime.
  io_run. pose proof (gate_disk d) as Hd.
  destruct (dashboardassets.installedAsstesMatchAppVersion env d)
    as [d0 lg [|]]; cbn [disk_of] in Hd; subst d0; io_run.
  - by rewrite !app_nil_r.
  - destruct (install env ctx d) as [d1 l1 r1]. io_run.
    by rewrite app_nil_r, <- !app_assoc.
Qed.

(** *** Writing the marker *)

Lemma WriteFile_evolves name data d :
  let w := os.WriteFile name data d in
  ∃ us, evolves d us (disk_of w)
    ∧ Forall (λ u, upath u = resolve name) us
    ∧ log_of w = [EvWriteFile name data]
    ∧ (val_of w = None → stat (disk_of w) (resolve name) = Found (File data)).
Proof.
  cbv zeta. rewrite WriteFile_run.
  destruct (open_trunc_evolves (resolve name) d) as (us1 & Hev1 & Hus1 & Hok1).
  destruct (os.open_trunc (resolve name) d) as [d1 [e1|]];
    cbn [fst snd val_of disk_of log_of] in *.
  { exists us1. by split_and!. }
  specialize (Hok1 eq_refl).
  destruct (write_evolves (resolve name) data d1 "" Hok1)
    as (us2 & Hev2 & Hus2 & Hok2).
  exists (us1 ++ us2). split_and!; [by eapply evolves_app| |done|].
  - by apply Forall_app.
  - intros Hv. apply Hok2. by destruct (os.write (resolve name) data d1).2.
Qed.

Lemma update_run d :
  dashboardassets.updateAssetVersionFile env d =
    let w := os.WriteFile marker (marker_bytes env) d in
    mkRun (disk_of w) (log_of w)
      (match val_of w with
       | Some e => Some (sperr_WrapWithMessage e
                           "could not write dashboard assets version file")
       | None => None
       end).
Proof.
  unfold dashboardassets.updateAssetVersionFile.
  change (json.Marshal (dashboardassets.fields_of (mkVersionFile (AppVersion_String env))))
    with ((marker_bytes env), @None error).
  cbv iota beta zeta. rewrite bind_run. fold marker.
  destruct (os.WriteFile marker (marker_bytes env) d) as [d1 l1 [e|]];
    io_run; by rewrite app_nil_r.
Qed.

(** After a successful update the marker file holds the encoding of
    the current version. *)
Lemma update_ok d :
  val_of (dashboardassets.updateAssetVersionFile env d) = None →
  stat (disk_of (dashboardassets.updateAssetVersionFile env d)) (resolve marker)
  = Found (File (marker_bytes env)).
Proof.
  rewrite update_run. cbv zeta. cbn [val_of disk_of].
  destruct (WriteFile_evolves marker (marker_bytes env) d) as (us & _ & _ & _ & Hok).
  intros Hv. apply Hok.
  by destruct (val_of (os.WriteFile marker (marker_bytes env) d)).
Qed.

Lemma update_faults d :
  faults (disk_of (dashboardassets.updateAssetVersionFile env d)) = faults d.
Proof.
  rewrite update_run. cbv zeta. cbn [disk_of].
  destruct (WriteFile_evolves marker (marker_bytes env) d) as (us & Hev & _).
  by eapply evolves_faults.
Qed.

(** A readable marker holding the current version is a hit. *)
Lemma marker_written_present d :
  all_ascii v = true →
  stat d (resolve marker) = Found (File (marker_bytes env)) →
  faulty d OpRead (resolve marker) = false →
  persisted_marker env d = MarkerPresent (mkVersionFile v).
Proof.
  intros Hv Hst Hf. unfold persisted_marker. fold marker. rewrite Hst, Hf.
  unfold marker_bytes, dashboardassets.fields_of. cbn [Version].
  by rewrite Unmarshal_Marshal_version.
Qed.

(** *** Extraction and install *)

Lemma extractTarGz_run ctx a dest d :
  dashboardassets.extractTarGz ctx a dest d =
    match gzip_header_err a with
    | Some e =>
        mkRun d [EvLog Info "dashboardassets.extractTarGz start";
                 EvLog Info "dashboardassets.extractTarGz end"] (Some e)
    | None =>
        let x := dashboardassets.extract_loop ctx (tar_records a) dest d in
        mkRun (disk_of x)
          ([EvLog Info "dashboardassets.extractTarGz start"] ++ log_of x
             ++ [EvLog Info "dashboardassets.extractTarGz end"])
          (val_of x)
    end.
Proof.
  unfold dashboardassets.extractTarGz, gzip.NewReader, slog.Info.
  io_run. destruct (gzip_header_err a) as [e|]; io_run; [done|].
  destruct (dashboardassets.extract_loop ctx (tar_records a) dest d)
    as [d1 l1 r1]. io_run. by rewrite app_nil_r.
Qed.

(** The helper makes the root and hands its path on. *)
Lemma EnsureDashboardAssetsDir_run d :
  filepaths.EnsureDashboardAssetsDir env d
  = mkRun (os.mkdir_all (rev (resolve (EnsureDashboardAssetsDir env))) d).1
      [EvMkdirAll (EnsureDashboardAssetsDir env)]
      (EnsureDashboardAssetsDir env).
Proof.
  unfold filepaths.EnsureDashboardAssetsDir. cbv zeta.
  rewrite bind_run, MkdirAll_run, then_run_mk, ret_run.
  cbn [disk_of log_of val_of]. by rewrite app_nil_r.
Qed.

Lemma with_root_evolves d :
  ∃ us, evolves d us (with_root env d)
    ∧ Forall (λ u, ¬ is_SetFile u
                   ∧ upath u `prefix_of` resolve (EnsureDashboardAssetsDir env)) us.
Proof.
  unfold with_root. rewrite EnsureDashboardAssetsDir_run. cbn [disk_of].
  destruct (mkdir_all_evolves (rev (resolve (EnsureDashboardAssetsDir env))) d)
    as (us & Hev & Hus & _).
  rewrite rev_involutive in Hus. by exists us.
Qed.

Lemma with_root_faults d : faults (with_root env d) = faults d.
Proof.
  destruct (with_root_evolves d) as (us & Hev & _). by eapply evolves_faults.
Qed.

(** Nothing is made when the root is there. *)
Lemma with_root_there d :
  stat d (resolve (EnsureDashboardAssetsDir env)) = Found Dir →
  with_root env d = d.
Proof.
  intros Hroot. unfold with_root. rewrite EnsureDashboardAssetsDir_run.
  cbn [disk_of].
  by rewrite mkdir_all_unfold, rev_involutive, Hroot.
Qed.

(** Only the root and its ancestors can have been made. *)
Lemma with_root_frame d q :
  ¬ q `prefix_of` resolve (EnsureDashboardAssetsDir env) →
  stat (with_root env d) q = stat d q.
Proof.
  intros Hq. destruct (with_root_evolves d) as (us & Hev & Hus).
  clear -Hev Hus Hq. induction Hev as [|d u us d' Hl H IH]; [done|].
  inversion Hus as [|? ? [Hn Hu] Hus']; subst. rewrite IH by done.
  destruct u as [p|p c]; [|by destruct Hn].
  destruct Hl as (Hp & Hpar & e & He). cbn [upath apply_update] in *.
  destruct (decide (p `prefix_of` q)) as [[k ->]|Hpre];
    [|by apply stat_put_other].
  destruct k as [|c k]; [by rewrite app_nil_r in Hq|].
  rewrite stat_put_below by done. cbn [tlookup]. rewrite lookup_empty.
  destruct (parent_prefix p Hp) as [c0 Hc0].
  destruct (stat_child_of_dir d (parent p) c0 Hpar) as [[n Hn']|Hn'];
    rewrite <- Hc0 in Hn'; [congruence|].
  symmetry. unfold stat in *. by apply tlookup_missing_app.
Qed.

(** What was there before the root was made is still there. *)
Lemma with_root_keeps d p n :
  stat d p = Found n → stat (with_root env d) p = Found n.
Proof.
  intros Hp. destruct (with_root_evolves d) as (us & Hev & Hus).
  eapply evolves_keeps; [done..|].
  eapply Forall_impl; [exact Hus|]. by intros u [Hn _] Hs.
Qed.

Lemma install_run ctx d :
  install env ctx d =
    match staticFS env dashboardassets.embeddedAssetArchiveName with
    | None =>
        mkRun (with_root env d)
          [EvMkdirAll (EnsureDashboardAssetsDir env);
           EvOpenEmbedded dashboardassets.embeddedAssetArchiveName]
          (Some (sperr_WrapWithMessage
                   (fs_ErrNotExist dashboardassets.embeddedAssetArchiveName)
                   "could not open embedded dashboard assets archive"))
    | Some a =>
        let x := dashboardassets.extractTarGz ctx a (EnsureDashboardAssetsDir env)
                   (with_root env d) in
        match val_of x with
        | Some e =>
            mkRun (disk_of x)
              (EvMkdirAll (EnsureDashboardAssetsDir env)
                 :: EvOpenEmbedded dashboardassets.embeddedAssetArchiveName
                 :: log_of x)
              (Some (sperr_WrapWithMessage e
                       "could not extract embedded dashboard assets archive"))
        | None =>
            let y := dashboardassets.updateAssetVersionFile env (disk_of x) in
            mkRun (disk_of y)
              (EvMkdirAll (EnsureDashboardAssetsDir env)
                 :: EvOpenEmbedded dashboardassets.embeddedAssetArchiveName
                 :: log_of x ++ log_of y)
              (match val_of y with
               | Some e => Some (sperr_WrapWithMessage e
                   "could not update dashboard assets version file")
               | None => None
               end)
        end
    end.
Proof.
  unfold install, with_root. rewrite bind_run, EnsureDashboardAssetsDir_run.
  rewrite then_run_mk. cbn [disk_of log_of val_of].
  set (d0 := (os.mkdir_all (rev (resolve (EnsureDashboardAssetsDir env))) d).1).
  io_run.
  destruct (staticFS env dashboardassets.embeddedAssetArchiveName) as [a|];
    io_run; [|done].
  cbv zeta.
  destruct (dashboardassets.extractTarGz ctx a (EnsureDashboardAssetsDir env) d0)
    as [d1 l1 [e|]]; io_run.
  - by rewrite app_nil_r.
  - destruct (dashboardassets.updateAssetVersionFile env d1) as [d2 l2 [e|]];
      io_run; by rewrite app_nil_r.
Qed.

Lemma extractTarGz_evolves ctx a dest d :
  ∃ us, evolves d us (disk_of (dashboardassets.extractTarGz ctx a dest d)).
Proof.
  rewrite extractTarGz_run. destruct (gzip_header_err a).
  - exists []. constructor.
  - destruct (loop_evolves ctx dest (tar_records a) d) as (us & Hev & _).
    by exists us.
Qed.

Lemma install_faults ctx d : faults (disk_of (install env ctx d)) = faults d.
Proof.
  rewrite install_run.
  destruct (staticFS env dashboardassets.embeddedAssetArchiveName) as [a|];
    [|apply with_root_faults].
  cbv zeta.
  destruct (extractTarGz_evolves ctx a (EnsureDashboardAssetsDir env)
              (with_root env d)) as [us Hev].
  rewrite <- (with_root_faults d).
  destruct (val_of (dashboardassets.extractTarGz ctx a _ (with_root env d)));
    cbn [disk_of].
  - by eapply evolves_faults.
  - rewrite update_faults. by eapply evolves_faults.
Qed.

(** On a mismatch [Ensure] is the install, between the log lines. *)
Lemma Ensure_miss ctx d :
  val_of (dashboardassets.installedAsstesMatchAppVersion env d) = false →
  dashboardassets.Ensure env ctx d =
    let g := dashboardassets.installedAsstesMatchAppVersion env d in
    let s := install env ctx d in
    mkRun (disk_of s)
      ([EvLogTime "dashboardassets.Ensure start"] ++ log_of g ++ log_of s
         ++ [EvLogTime "dashboardassets.Ensure end"])
      (val_of s).
Proof. intros Hg. rewrite Ensure_run. cbv zeta. by rewrite Hg. Qed.

Lemma Ensure_hit ctx d :
  val_of (dashboardassets.installedAsstesMatchAppVersion env d) = true →
  dashboardassets.Ensure env ctx d =
    mkRun d ([EvLogTime "dashboardassets.Ensure start"]
               ++ log_of (dashboardassets.installedAsstesMatchAppVersion env d)
               ++ [EvLogTime "dashboardassets.Ensure end"]) None.
Proof. intros Hg. rewrite Ensure_run. cbv zeta. by rewrite Hg. Qed.

(** When extraction and the marker update succeed, so does the
    install, and the marker then holds the current version. *)
Lemma install_ok ctx d a :
  staticFS env dashboardassets.embeddedAssetArchiveName = Some a →
  let x := dashboardassets.extractTarGz ctx a (EnsureDashboardAssetsDir env)
             (with_root env d) in
  val_of x = None →
  val_of (dashboardassets.updateAssetVersionFile env (disk_of x)) = None →
  val_of (install env ctx d) = None
  ∧ stat (disk_of (install env ctx d)) (resolve marker) = Found (File (marker_bytes env)).
Proof.
  intros Ha x Hx Hy. rewrite install_run, Ha. cbv zeta. fold x.
  rewrite Hx. cbn [val_of disk_of]. rewrite Hy. split; [done|].
  by apply update_ok.
Qed.

Lemma install_opens ctx d :
  EvOpenEmbedded dashboardassets.embeddedAssetArchiveName
    ∈ log_of (install env ctx d).
Proof.
  rewrite install_run.
  destruct (staticFS env dashboardassets.embeddedAssetArchiveName) as [a|];
    [|right; by left].
  cbv zeta.
  destruct (val_of (dashboardassets.extractTarGz ctx a _ (with_root env d)));
    right; by left.
Qed.

End Gate.

(** ** What extraction leaves behind *)

Section Durability.

Context (ctx : Context) (dest : string).

(** An existing node that no regular-file entry is placed on is kept. *)
Lemma loop_keeps l d p n :
  stat d p = Found n →
  (∀ r h, r ∈ l → tar.hdr r = Some h → tar.Typeflag h = tar.TypeReg →
     target_of dest h ≠ p) →
  stat (disk_of (dashboardassets.extract_loop ctx l dest d)) p = Found n.
Proof.
  intros Hp Hl.
  destruct (loop_evolves ctx dest l d) as (us & Hev & Hus & _).
  eapply evolves_keeps; [done..|].
  eapply Forall_impl; [exact Hus|]. intros u (r & h & Hr & Hh & _ & Hset) Hs.
  destruct (Hset Hs) as [-> Hreg]. by eapply Hl.
Qed.



(** A regular file stays a regular file. *)
Lemma loop_file l d p c :
  stat d p = Found (File c) →
  ∃ c', stat (disk_of (dashboardassets.extract_loop ctx l dest d)) p
        = Found (File c').
Proof.
  intros Hp. destruct (loop_evolves ctx dest l d) as (us & Hev & _).
  by eapply evolves_file.
Qed.

(** A successful pass over [l1 ++ l2] is a successful pass over [l1]
    followed by a successful pass over [l2]. *)
Lemma loop_app_ok l1 l2 d :
  Forall (λ r, ends_stream r = false) l1 →
  val_of (dashboardassets.extract_loop ctx (l1 ++ l2) dest d) = None →
  val_of (dashboardassets.extract_loop ctx l1 dest d) = None
  ∧ disk_of (dashboardassets.extract_loop ctx (l1 ++ l2) dest d)
    = disk_of (dashboardassets.extract_loop ctx l2 dest
                 (disk_of (dashboardassets.extract_loop ctx l1 dest d)))
  ∧ val_of (dashboardassets.extract_loop ctx l2 dest
              (disk_of (dashboardassets.extract_loop ctx l1 dest d))) = None.
Proof.
  intros Hl1. rewrite loop_app by done. cbv zeta.
  destruct (dashboardassets.extract_loop ctx l1 dest d) as [d1 lg1 [e|]];
    cbn [val_of disk_of]; [done|].
  rewrite then_run_mk. cbn [val_of disk_of]. done.
Qed.

(** After a successful pass, the body of a regular-file entry is in
    place as soon as the entry has been processed. *)
Lemma loop_cons_ok r l d h :
  ends_stream r = false → tar.hdr r = Some h →
  val_of (dashboardassets.extract_loop ctx (r :: l) dest d) = None →
  val_of (extract_entry ctx dest h r d) = None
  ∧ disk_of (dashboardassets.extract_loop ctx (r :: l) dest d)
    = disk_of (dashboardassets.extract_loop ctx l dest
                 (disk_of (extract_entry ctx dest h r d)))
  ∧ val_of (dashboardassets.extract_loop ctx l dest
              (disk_of (extract_entry ctx dest h r d))) = None.
Proof.
  intros Hr Hh. rewrite extract_loop_cons, Hh. unfold ends_stream in Hr.
  destruct (tar.err r) as [e|]; [by rewrite Hr|]. cbv zeta.
  destruct (extract_entry ctx dest h r d) as [d1 lg1 [e|]];
    cbn [val_of disk_of]; [done|].
  by rewrite then_run_mk.
Qed.

End Durability.

Section Aborts.

Context (env : Env) (ctx : Context).

(** When the gate reports a mismatch and the archive opens, what
    [Ensure] returns is decided by the pass over the records. *)
Lemma Ensure_extract_error d a e :
  val_of (dashboardassets.installedAsstesMatchAppVersion env d) = false →
  staticFS env dashboardassets.embeddedAssetArchiveName = Some a →
  gzip_header_err a = None →
  val_of (dashboardassets.extract_loop ctx (tar_records a)
            (EnsureDashboardAssetsDir env) (with_root env d)) = Some e →
  val_of (dashboardassets.Ensure env ctx d)
    = Some (sperr_WrapWithMessage e
              "could not extract embedded dashboard assets archive")
  ∧ disk_of (dashboardassets.Ensure env ctx d)
    = disk_of (dashboardassets.extract_loop ctx (tar_records a)
                 (EnsureDashboardAssetsDir env) (with_root env d))
  ∧ log_of (dashboardassets.Ensure env ctx d)
    = [EvLogTime "dashboardassets.Ensure start"]
        ++ log_of (dashboardassets.installedAsstesMatchAppVersion env d)
        ++ (EvMkdirAll (EnsureDashboardAssetsDir env)
              :: EvOpenEmbedded dashboardassets.embeddedAssetArchiveName
              :: [EvLog Info "dashboardassets.extractTarGz start"]
              ++ log_of (dashboardassets.extract_loop ctx (tar_records a)
                           (EnsureDashboardAssetsDir env) (with_root env d))
              ++ [EvLog Info "dashboardassets.extractTarGz end"])
        ++ [EvLogTime "dashboardassets.Ensure end"].
Proof.
  intros Hg Ha Hz He. rewrite Ensure_miss by done. cbv zeta.
  rewrite install_run, Ha. cbv zeta. rewrite extractTarGz_run, Hz. cbv zeta.
  cbn [val_of disk_of log_of]. rewrite He. done.
Qed.

(** The pass over [pre ++ bad :: post] when [pre] goes through and
    [bad] aborts. *)
Lemma loop_abort dest pre bad post d e :
  Forall (λ r, ends_stream r = false) pre →
  val_of (dashboardassets.extract_loop ctx pre dest d) = None →
  val_of (dashboardassets.extract_loop ctx [bad] dest
            (disk_of (dashboardassets.extract_loop ctx pre dest d))) = Some e →
  val_of (dashboardassets.extract_loop ctx (pre ++ bad :: post) dest d) = Some e
  ∧ disk_of (dashboardassets.extract_loop ctx (pre ++ bad :: post) dest d)
    = disk_of (dashboardassets.extract_loop ctx [bad] dest
                 (disk_of (dashboardassets.extract_loop ctx pre dest d)))
  ∧ log_of (dashboardassets.extract_loop ctx (pre ++ bad :: post) dest d)
    = log_of (dashboardassets.extract_loop ctx pre dest d)
        ++ log_of (dashboardassets.extract_loop ctx [bad] dest
                     (disk_of (dashboardassets.extract_loop ctx pre dest d))).
Proof.
  intros Hpre Hx Hbad. rewrite loop_app by done. cbv zeta.
  destruct (dashboardassets.extract_loop ctx pre dest d) as [d1 lg1 r1].
  cbn [val_of disk_of log_of] in *. subst r1. rewrite then_run_mk.
  cbn [val_of disk_of log_of].
  rewrite (extract_loop_cons ctx dest bad post).
  rewrite !(extract_loop_cons ctx dest bad []) in *.
  destruct (tar.err bad) as [e0|]; [by split_and!|].
  destruct (tar.hdr bad) as [h|].
  - cbv zeta in *.
    destruct (extract_entry ctx dest h bad d1) as [d2 lg2 [e2|]];
      cbn [val_of disk_of log_of] in *; [by split_and!|].
    rewrite then_run_mk in Hbad. cbn [val_of] in Hbad. done.
  - simpl in Hbad. discriminate Hbad.
Qed.

End Aborts.

(** ** When the calls succeed *)

Section Success.

Lemma faulty_no_faults d o p : faults d = ∅ → faulty d o p = false.
Proof. intros H. unfold faulty. rewrite H. by apply bool_decide_eq_false. Qed.

(** Ensuring a directory directly below an existing one. *)
Lemma mkdir_all_child d P c :
  stat d P = Found Dir →
  (∀ x, stat d (P ++ [c]) ≠ Found (File x)) →
  faulty d OpMkdir (P ++ [c]) = false →
  (os.mkdir_all (rev (P ++ [c])) d).2 = None
  ∧ ∀ name, stat (os.mkdir_all (rev (P ++ [c])) d).1 (P ++ [c; name])
            ≠ Found Dir
            ∨ stat d (P ++ [c; name]) = Found Dir.
Proof.
  intros HP Hc Hf.
  assert (Hrev : rev (P ++ [c]) = c :: rev P) by (by rewrite rev_app_distr).
  rewrite Hrev, mkdir_all_unfold.
  replace (rev (c :: rev P)) with (P ++ [c])
    by (simpl; by rewrite rev_involutive).
  destruct (stat d (P ++ [c])) as [[|x]|e] eqn:Hst.
  - split; [done|]. intros name. cbn [fst].
    destruct (stat d (P ++ [c; name])) as [[|?]|?] eqn:Hn;
      [by right|by left|by left].
  - by destruct (Hc x).
  - rewrite mkdir_all_unfold, rev_involutive, HP.
    unfold os.mkdir. rewrite Hst, parent_snoc, HP, Hf. simpl.
    split; [done|]. intros name. left.
    change (P ++ [c; name]) with (P ++ [c] ++ [name]).
    rewrite app_assoc, stat_put_below; [done| |by rewrite parent_snoc].
    by destruct P.
Qed.

Lemma open_trunc_ok d p :
  p ≠ [] → stat d (parent p) = Found Dir → stat d p ≠ Found Dir →
  faulty d OpOpenWrite p = false →
  os.open_trunc p d = (put d p (TFile ""), None).
Proof.
  intros Hp Hpar Hnd Hf. unfold os.open_trunc.
  destruct (parent_prefix p Hp) as [c Hc].
  destruct (stat_child_of_dir d (parent p) c Hpar) as [[n Hn]|Hn];
    rewrite <- Hc in Hn; rewrite Hn.
  - destruct n; [done|]. by rewrite Hf.
  - by rewrite Hpar, Hf.
Qed.

End Success.

Lemma no_dotdot_elems name :
  has_dotdot name = false → Forall (λ c, c ≠ "..") (filepath.split name).
Proof.
  unfold has_dotdot. induction (filepath.split name) as [|c l IH]; [done|].
  cbn [existsb]. intros [Hc Hl]%orb_false_elim. constructor; [|by apply IH].
  apply String.eqb_neq in Hc. congruence.
Qed.

(** * The claims *)

(** C6.  Reading the marker when the marker file is missing returns an
    empty marker, version [""], with no error, and touches nothing;
    since the running version is never empty, the gate then reports a
    mismatch and the install is forced. *)
Theorem load_missing_marker env d :
  stat d (resolve (ReportAssetsVersionFilePath env)) = Missing ENOENT →
  dashboardassets.loadReportAssetVersionFile env d
    = mkRun d [EvStat (ReportAssetsVersionFilePath env)] (inl (mkVersionFile ""))
  ∧ (AppVersion_String env ≠ "" →
     val_of (dashboardassets.installedAsstesMatchAppVersion env d) = false).
Proof.
  intros Hst.
  assert (Hm : persisted_marker env d = MarkerAbsent).
  { unfold persisted_marker. by rewrite Hst. }
  split.
  - by rewrite load_run, Hm.
  - intros Hv. rewrite gate_run, Hm. cbn [val_of].
    apply String.eqb_neq. congruence.
Qed.

(** C7.  Marker round trip: once [updateAssetVersionFile] has written
    the marker for a version [v] of ASCII characters (as every rendered
    semantic version is), [loadReportAssetVersionFile] reads back the
    marker [{version: v}]; at the level of the codec, [Unmarshal]
    inverts [Marshal] on it. *)
Theorem marker_round_trip env d :
  all_ascii (AppVersion_String env) = true →
  faulty d OpRead (resolve (ReportAssetsVersionFilePath env)) = false →
  val_of (dashboardassets.updateAssetVersionFile env d) = None →
  val_of (dashboardassets.loadReportAssetVersionFile env
            (disk_of (dashboardassets.updateAssetVersionFile env d)))
    = inl (mkVersionFile (AppVersion_String env))
  ∧ json.Unmarshal
      (json.Marshal (dashboardassets.fields_of
                       (mkVersionFile (AppVersion_String env)))).1
      (dashboardassets.fields_of (mkVersionFile ""))
    = (dashboardassets.fields_of (mkVersionFile (AppVersion_String env)), None).
Proof.
  intros Hv Hf Hok. split.
  - rewrite load_run, (marker_written_present env); [done|done| |].
    + by apply update_ok.
    + unfold faulty in *. by rewrite update_faults.
  - by apply Unmarshal_Marshal_version.
Qed.

(** C8.  Idempotence: after one run of [Ensure] that returned no error,
    a second run with the same current version consists of the gate
    alone: it returns no error, leaves the disk as it is and makes no
    call that writes. *)
Theorem Ensure_twice env ctx d :
  all_ascii (AppVersion_String env) = true →
  faulty d OpRead (resolve (ReportAssetsVersionFilePath env)) = false →
  val_of (dashboardassets.Ensure env ctx d) = None →
  let d1 := disk_of (dashboardassets.Ensure env ctx d) in
  let second := dashboardassets.Ensure env ctx d1 in
  second
    = mkRun d1 ([EvLogTime "dashboardassets.Ensure start"]
                  ++ log_of (dashboardassets.installedAsstesMatchAppVersion env d1)
                  ++ [EvLogTime "dashboardassets.Ensure end"]) None
  ∧ (∀ e, e ∈ log_of second → is_write e = false).
Proof.
  intros Hv Hf Hok d1 second.
  assert (Hhit : val_of (dashboardassets.installedAsstesMatchAppVersion env d1)
                 = true).
  { subst d1. rewrite Ensure_run in Hok |- *. cbv zeta in *.
    destruct (val_of (dashboardassets.installedAsstesMatchAppVersion env d))
      eqn:Hg; cbn [val_of disk_of] in *; [done|].
    rewrite install_run in Hok |- *.
    destruct (staticFS env dashboardassets.embeddedAssetArchiveName) as [a|];
      [|done].
    cbv zeta in *.
    destruct (extractTarGz_evolves ctx a (EnsureDashboardAssetsDir env)
                (with_root env d)) as [us Hev].
    destruct (dashboardassets.extractTarGz ctx a (EnsureDashboardAssetsDir env)
                (with_root env d))
      as [dx lx [e|]]; cbn [val_of disk_of] in *; [done|].
    destruct (val_of (dashboardassets.updateAssetVersionFile env dx)) eqn:Hu;
      [done|].
    rewrite gate_run, (marker_written_present env); [|done| |].
    - cbn [val_of Version]. apply String.eqb_refl.
    - by apply update_ok.
    - unfold faulty in *. rewrite update_faults.
      by rewrite (evolves_faults _ _ _ Hev), with_root_faults. }
  assert (Hsecond : second
    = mkRun d1 ([EvLogTime "dashboardassets.Ensure start"]
                  ++ log_of (dashboardassets.installedAsstesMatchAppVersion env d1)
                  ++ [EvLogTime "dashboardassets.Ensure end"]) None).
  { subst second. by rewrite Ensure_hit. }
  split; [done|]. rewrite Hsecond. cbn [log_of]. intros e He.
  apply elem_of_cons in He as [->|He]; [done|].
  apply elem_of_app in He as [He|He]; [by eapply gate_no_write|].
  apply list_elem_of_singleton in He. by subst.
Qed.

(** C1.  Version gate: [Ensure] goes on to the archive if and only if
    the marker is absent, corrupt, or carries a version different from
    the current one, and with the archive embedded that is exactly when
    [extractTarGz] is entered; on a marker carrying the current version
    [Ensure] returns success at once, having only looked at and read
    the marker file. *)
Theorem version_gate env ctx d :
  AppVersion_String env ≠ "" →
  let r := dashboardassets.Ensure env ctx d in
  let m := persisted_marker env d in
  let stale :=
    m = MarkerAbsent ∨ m = MarkerCorrupt
    ∨ ∃ x, m = MarkerPresent x ∧ Version x ≠ AppVersion_String env in
  (EvOpenEmbedded dashboardassets.embeddedAssetArchiveName ∈ log_of r ↔ stale)
  ∧ (∀ a, staticFS env dashboardassets.embeddedAssetArchiveName = Some a →
       (extraction_started (log_of r) ↔ stale))
  ∧ (∀ x, m = MarkerPresent x → Version x = AppVersion_String env →
       r = mkRun d ([EvLogTime "dashboardassets.Ensure start"]
                      ++ gate_log_hit env
                      ++ [EvLogTime "dashboardassets.Ensure end"]) None).
Proof.
  intros Hv r m stale.
  assert (Hstart : ∀ a, staticFS env dashboardassets.embeddedAssetArchiveName
                        = Some a →
                   extraction_started (log_of (install env ctx d))).
  { intros a Ha. unfold extraction_started. rewrite install_run, Ha. cbv zeta.
    rewrite extractTarGz_run.
    destruct (gzip_header_err a); cbn [val_of log_of disk_of].
    - do 2 right. by left.
    - destruct (val_of (dashboardassets.extract_loop ctx (tar_records a) _
                          (with_root env d)));
        cbn [log_of]; do 2 right; by left. }
  assert (Hhit : ∀ x, m = MarkerPresent x → Version x = AppVersion_String env →
    r = mkRun d ([EvLogTime "dashboardassets.Ensure start"]
                   ++ gate_log_hit env
                   ++ [EvLogTime "dashboardassets.Ensure end"]) None).
  { intros x Hm Hx. subst r m. rewrite Ensure_hit; rewrite gate_run, Hm; [done|].
    cbn [val_of]. by apply String.eqb_eq. }
  assert (Hfresh : ¬ stale → ∀ ev,
            ev ∈ log_of r →
            ev = EvLogTime "dashboardassets.Ensure start"
            ∨ ev = EvStat (ReportAssetsVersionFilePath env)
            ∨ ev = EvReadFile (ReportAssetsVersionFilePath env)
            ∨ ev = EvLogTime "dashboardassets.Ensure end").
  { intros Hns ev Hev. subst stale m.
    destruct (persisted_marker env d) as [| |x] eqn:Hm;
      [destruct Hns; eauto|destruct Hns; eauto|].
    destruct (decide (Version x = AppVersion_String env)) as [Hx|Hx].
    2:{ destruct Hns. right. right. eauto. }
    rewrite (Hhit x eq_refl Hx) in Hev. cbn [log_of] in Hev.
    unfold gate_log_hit in Hev. simpl in Hev.
    repeat (apply elem_of_cons in Hev as [->|Hev]; [eauto|]).
    by apply elem_of_nil in Hev. }
  assert (Hmiss : stale →
    val_of (dashboardassets.installedAsstesMatchAppVersion env d) = false).
  { intros Hs. rewrite gate_run. subst stale m.
    destruct Hs as [-> | [-> | (x & -> & Hx)]]; cbn [val_of]; [|done|].
    - apply String.eqb_neq. congruence.
    - by apply String.eqb_neq. }
  assert (Hdec : stale ∨ ¬ stale).
  { subst stale m. destruct (persisted_marker env d) as [| |x]; eauto.
    destruct (decide (Version x = AppVersion_String env)) as [Hx|Hx].
    - right. intros [?|[?|(y & [= <-] & Hy)]]; done.
    - left. right. right. eauto. }
  split_and!; [| |done].
  - split.
    + intros Hin. destruct Hdec as [Hs|Hs]; [done|].
      destruct (Hfresh Hs _ Hin) as [?|[?|[?|?]]]; done.
    + intros Hs. subst r. rewrite Ensure_miss by by apply Hmiss.
      cbn [log_of]. rewrite !elem_of_app. right. right. left.
      apply install_opens.
  - intros a Ha. split.
    + intros Hin. destruct Hdec as [Hs|Hs]; [done|].
      destruct (Hfresh Hs _ Hin) as [?|[?|[?|?]]]; done.
    + intros Hs. subst r. rewrite Ensure_miss by by apply Hmiss.
      cbn [log_of]. unfold extraction_started. rewrite !elem_of_app.
      right. right. left. by eapply Hstart.
Qed.

(** C3.  Corrupt-marker recovery: when the marker file exists and its
    bytes do not decode, the loader returns the decoder's error, the
    gate reports a mismatch without touching the disk, and [Ensure]
    goes on with the install; if extraction, on the disk with the
    destination root ensured (the disk itself when the root is there),
    and the marker update then succeed, [Ensure] succeeds and the
    marker holds the current version. *)
Theorem corrupt_marker_recovery env ctx d c fields e :
  stat d (resolve (ReportAssetsVersionFilePath env)) = Found (File c) →
  faulty d OpRead (resolve (ReportAssetsVersionFilePath env)) = false →
  json.Unmarshal c [("version", "")] = (fields, Some e) →
  dashboardassets.loadReportAssetVersionFile env d
    = mkRun d (gate_log_corrupt env) (inr e)
  ∧ dashboardassets.installedAsstesMatchAppVersion env d
    = mkRun d (gate_log_corrupt env) false
  ∧ dashboardassets.Ensure env ctx d
    = (let s := install env ctx d in
       mkRun (disk_of s)
         ([EvLogTime "dashboardassets.Ensure start"] ++ gate_log_corrupt env
            ++ log_of s ++ [EvLogTime "dashboardassets.Ensure end"])
         (val_of s))
  ∧ EvOpenEmbedded dashboardassets.embeddedAssetArchiveName
      ∈ log_of (dashboardassets.Ensure env ctx d)
  ∧ (∀ a, staticFS env dashboardassets.embeddedAssetArchiveName = Some a →
       let x := dashboardassets.extractTarGz ctx a (EnsureDashboardAssetsDir env)
                  (with_root env d) in
       val_of x = None →
       val_of (dashboardassets.updateAssetVersionFile env (disk_of x)) = None →
       val_of (dashboardassets.Ensure env ctx d) = None
       ∧ stat (disk_of (dashboardassets.Ensure env ctx d))
              (resolve (ReportAssetsVersionFilePath env))
         = Found (File (marker_bytes env)))
  ∧ (stat d (resolve (EnsureDashboardAssetsDir env)) = Found Dir →
     with_root env d = d).
Proof.
  intros Hst Hf Hun.
  assert (Hm : persisted_marker env d = MarkerCorrupt).
  { unfold persisted_marker. by rewrite Hst, Hf, Hun. }
  assert (Hg : dashboardassets.installedAsstesMatchAppVersion env d
               = mkRun d (gate_log_corrupt env) false).
  { by rewrite gate_run, Hm. }
  assert (HE : dashboardassets.Ensure env ctx d
    = (let s := install env ctx d in
       mkRun (disk_of s)
         ([EvLogTime "dashboardassets.Ensure start"] ++ gate_log_corrupt env
            ++ log_of s ++ [EvLogTime "dashboardassets.Ensure end"])
         (val_of s))).
  { rewrite Ensure_miss; by rewrite Hg. }
  split_and!; [|done|done| | |apply with_root_there].
  - rewrite load_run, Hm, ReadFile_run, Hst, Hf. cbn [val_of fst].
    by rewrite Hun.
  - rewrite HE. cbv zeta. cbn [log_of]. rewrite !elem_of_app.
    right. right. left. apply install_opens.
  - intros a Ha x Hx Hy. rewrite HE. cbv zeta. cbn [val_of disk_of].
    by apply (install_ok env ctx d a).
Qed.

(** C10.  A marker that exists but cannot be read: the read error is
    dropped, the decoder is given no bytes and reports a syntax error,
    so the loader, the gate and [Ensure] behave as for a corrupt
    marker, and the install goes ahead, on the disk with the
    destination root ensured (the disk itself when the root is
    there). *)
Theorem unreadable_marker_as_corrupt env ctx d :
  val_of (filehelpers.FileExists (ReportAssetsVersionFilePath env) d) = true →
  (val_of (os.ReadFile (ReportAssetsVersionFilePath env) d)).2 ≠ None →
  (val_of (os.ReadFile (ReportAssetsVersionFilePath env) d)).1 = ""
  ∧ dashboardassets.loadReportAssetVersionFile env d
    = mkRun d (gate_log_corrupt env) (inr json_SyntaxError)
  ∧ dashboardassets.installedAsstesMatchAppVersion env d
    = mkRun d (gate_log_corrupt env) false
  ∧ dashboardassets.Ensure env ctx d
    = (let s := install env ctx d in
       mkRun (disk_of s)
         ([EvLogTime "dashboardassets.Ensure start"] ++ gate_log_corrupt env
            ++ log_of s ++ [EvLogTime "dashboardassets.Ensure end"])
         (val_of s))
  ∧ EvOpenEmbedded dashboardassets.embeddedAssetArchiveName
      ∈ log_of (dashboardassets.Ensure env ctx d)
  ∧ (∀ a, staticFS env dashboardassets.embeddedAssetArchiveName = Some a →
       let x := dashboardassets.extractTarGz ctx a (EnsureDashboardAssetsDir env)
                  (with_root env d) in
       val_of x = None →
       val_of (dashboardassets.updateAssetVersionFile env (disk_of x)) = None →
       val_of (dashboardassets.Ensure env ctx d) = None
       ∧ stat (disk_of (dashboardassets.Ensure env ctx d))
              (resolve (ReportAssetsVersionFilePath env))
         = Found (File (marker_bytes env)))
  ∧ (stat d (resolve (EnsureDashboardAssetsDir env)) = Found Dir →
     with_root env d = d).
Proof.
  intros Hex Hrd. rewrite FileExists_run in Hex. rewrite ReadFile_run in Hrd.
  cbn [val_of] in Hex, Hrd.
  assert (Hbytes :
    (val_of (os.ReadFile (ReportAssetsVersionFilePath env) d)).1 = "").
  { rewrite ReadFile_run. cbn [val_of].
    destruct (stat d (resolve (ReportAssetsVersionFilePath env))) as [[|c]|e0];
      try done.
    by destruct (faulty d OpRead (resolve (ReportAssetsVersionFilePath env))). }
  assert (Hm : persisted_marker env d = MarkerCorrupt).
  { unfold persisted_marker.
    destruct (stat d (resolve (ReportAssetsVersionFilePath env))) as [[|c]|e0];
      try done.
    - by destruct (faulty d OpRead (resolve (ReportAssetsVersionFilePath env))).
    - by destruct e0. }
  assert (Hg : dashboardassets.installedAsstesMatchAppVersion env d
               = mkRun d (gate_log_corrupt env) false).
  { by rewrite gate_run, Hm. }
  assert (HE : dashboardassets.Ensure env ctx d
    = (let s := install env ctx d in
       mkRun (disk_of s)
         ([EvLogTime "dashboardassets.Ensure start"] ++ gate_log_corrupt env
            ++ log_of s ++ [EvLogTime "dashboardassets.Ensure end"])
         (val_of s))).
  { rewrite Ensure_miss; by rewrite Hg. }
  split_and!; [done| |done|done| | |apply with_root_there].
  - rewrite load_run, Hm, Hbytes. by rewrite Unmarshal_empty.
  - rewrite HE. cbv zeta. cbn [log_of]. rewrite !elem_of_app.
    right. right. left. apply install_opens.
  - intros a Ha x Hx Hy. rewrite HE. cbv zeta. cbn [val_of disk_of].
    by apply (install_ok env ctx d a).
Qed.

(** C5.  Unknown entry rejection: an entry that is neither a directory
    nor a regular file always makes [Ensure] return an error; when the
    entries before it were extracted (on the disk with the destination
    root ensured), the error is the explicit one built from the type
    flag and the name of the entry, nothing is created for the entry,
    and no later entry is looked at. *)
Theorem unknown_entry_rejected env ctx d a pre bad h post :
  val_of (dashboardassets.installedAsstesMatchAppVersion env d) = false →
  staticFS env dashboardassets.embeddedAssetArchiveName = Some a →
  gzip_header_err a = None →
  tar_records a = pre ++ bad :: post →
  Forall (λ r, ends_stream r = false) pre →
  tar.err bad = None → tar.hdr bad = Some h →
  tar.Typeflag h ≠ tar.TypeDir → tar.Typeflag h ≠ tar.TypeReg →
  let dest := EnsureDashboardAssetsDir env in
  let x := dashboardassets.extract_loop ctx pre dest (with_root env d) in
  let unsupported :=
    sperr_New ("ExtractTarGz: uknown type: " ++ fmt.b (tar.Typeflag h)
                 ++ " in " ++ tar.Name h) in
  val_of (dashboardassets.Ensure env ctx d) ≠ None
  ∧ (val_of x = None →
     dashboardassets.extract_loop ctx (tar_records a) dest (with_root env d)
       = mkRun (disk_of x) (log_of x) (Some unsupported)
     ∧ val_of (dashboardassets.Ensure env ctx d)
       = Some (sperr_WrapWithMessage unsupported
                 "could not extract embedded dashboard assets archive")
     ∧ disk_of (dashboardassets.Ensure env ctx d) = disk_of x).
Proof.
  intros Hg Ha Hz Hrec Hpre Herr Hh Hd Hr dest x unsupported.
  assert (Hbad : ∀ d', dashboardassets.extract_loop ctx (bad :: post) dest d'
                       = mkRun d' [] (Some unsupported)).
  { intros d'. rewrite extract_loop_cons, Herr, Hh. cbv zeta.
    by rewrite entry_unknown. }
  assert (Hloop : dashboardassets.extract_loop ctx (tar_records a) dest
                     (with_root env d)
            = match val_of x with
              | Some _ => x
              | None => mkRun (disk_of x) (log_of x) (Some unsupported)
              end).
  { rewrite Hrec, loop_app by done. cbv zeta. fold x.
    destruct x as [d1 lg1 [e1|]]; cbn [val_of disk_of log_of]; [done|].
    rewrite then_run_mk, Hbad. cbn [val_of disk_of log_of].
    by rewrite app_nil_r. }
  pose proof (Ensure_extract_error env ctx d a) as HEE. fold dest in HEE.
  split.
  - destruct (val_of x) as [e1|] eqn:Hx.
    + destruct (HEE e1) as (HE & _); try done; [by rewrite Hloop|].
      by rewrite HE.
    + destruct (HEE unsupported) as (HE & _); try done; [by rewrite Hloop|].
      by rewrite HE.
  - intros Hx. rewrite Hx in Hloop. split; [done|].
    destruct (HEE unsupported) as (HE & HD & _); try done; [by rewrite Hloop|].
    split; [done|]. by rewrite HD, Hloop.
Qed.

(** C4.  Partial-failure durability: when the entries [pre] have been
    extracted (on the disk with the destination root ensured) and the
    next entry aborts with error [e], [Ensure] returns [e] (wrapped
    with the stage message), the disk is left as it was at the abort,
    every regular file written for [pre] is still a regular file, it
    still holds the bytes of its entry unless a later entry was placed
    on the same path, and the marker writer was not called. *)
Theorem partial_failure_durability env ctx d a pre bad post e :
  val_of (dashboardassets.installedAsstesMatchAppVersion env d) = false →
  staticFS env dashboardassets.embeddedAssetArchiveName = Some a →
  gzip_header_err a = None →
  tar_records a = pre ++ bad :: post →
  Forall (λ r, ends_stream r = false) pre →
  let dest := EnsureDashboardAssetsDir env in
  let x := dashboardassets.extract_loop ctx pre dest (with_root env d) in
  let y := dashboardassets.extract_loop ctx [bad] dest (disk_of x) in
  val_of x = None →
  val_of y = Some e →
  let r := dashboardassets.Ensure env ctx d in
  val_of r = Some (sperr_WrapWithMessage e
                     "could not extract embedded dashboard assets archive")
  ∧ disk_of r = disk_of y
  ∧ (∀ l1 rc l2 h,
       pre = l1 ++ rc :: l2 → tar.hdr rc = Some h →
       tar.Typeflag h = tar.TypeReg →
       (∃ c, stat (disk_of r) (target_of dest h) = Found (File c))
       ∧ ((∀ r' h', r' ∈ l2 ++ [bad] → tar.hdr r' = Some h' →
             tar.Typeflag h' = tar.TypeReg →
             target_of dest h' ≠ target_of dest h) →
          stat (disk_of r) (target_of dest h) = Found (File (tar.body rc))))
  ∧ (∀ ev, ev ∈ log_of r → ∀ n data, ev ≠ EvWriteFile n data)
  ∧ (∀ n, stat d (resolve (ReportAssetsVersionFilePath env)) = Found n →
       (∀ r' h', r' ∈ pre ++ [bad] → tar.hdr r' = Some h' →
          tar.Typeflag h' = tar.TypeReg →
          target_of dest h' ≠ resolve (ReportAssetsVersionFilePath env)) →
       stat (disk_of r) (resolve (ReportAssetsVersionFilePath env)) = Found n).
Proof.
  intros Hg Ha Hz Hrec Hpre dest x y Hx Hy r.
  destruct (loop_abort ctx dest pre bad post (with_root env d) e Hpre Hx Hy)
    as (Hv & Hd & Hl).
  rewrite <- Hrec in Hv, Hd, Hl.
  destruct (Ensure_extract_error env ctx d a e Hg Ha Hz Hv) as (HE & HD & HL).
  fold r in HE, HD, HL. fold dest in HD, HL.
  assert (Hdisk : disk_of r = disk_of y) by (by rewrite HD, Hd).
  split_and!; [done|done| | |].
  - intros l1 rc l2 h -> Hh Hreg.
    apply Forall_app in Hpre as [Hl1 Hrest].
    inversion Hrest as [|? ? Hrc Hl2]; subst.
    destruct (loop_app_ok ctx dest l1 (rc :: l2) (with_root env d) Hl1 Hx)
      as (Hx1 & Hdx & Hx2).
    destruct (loop_cons_ok ctx dest rc l2 _ h Hrc Hh Hx2) as (Hent & Hdc & _).
    set (d1 := disk_of (dashboardassets.extract_loop ctx l1 dest
                          (with_root env d))) in *.
    set (d2 := disk_of (extract_entry ctx dest h rc d1)) in *.
    assert (Hwritten : stat d2 (target_of dest h) = Found (File (tar.body rc))).
    { destruct (entry_evolves ctx dest h rc d1) as (_ & _ & _ & _ & Hw & _).
      by apply Hw. }
    assert (Hdx' : disk_of x = disk_of (dashboardassets.extract_loop ctx l2 dest d2)).
    { subst x. by rewrite Hdx, Hdc. }
    split.
    + destruct (loop_file ctx dest l2 d2 _ _ Hwritten) as [c1 Hc1].
      rewrite <- Hdx' in Hc1.
      destruct (loop_file ctx dest [bad] (disk_of x) _ _ Hc1) as [c2 Hc2].
      exists c2. by rewrite Hdisk.
    + intros Hfresh. rewrite Hdisk. apply loop_keeps.
      * rewrite Hdx'. apply loop_keeps; [done|].
        intros r' h' Hr'. apply Hfresh. apply elem_of_app. by left.
      * intros r' h' Hr'. apply Hfresh. apply elem_of_app. by right.
  - intros ev Hev n data ->. rewrite HL in Hev. rewrite Hl in Hev.
    apply elem_of_cons in Hev as [Hev|Hev]; [done|].
    apply elem_of_app in Hev as [Hev|Hev].
    { by apply (gate_no_write env) in Hev. }
    apply elem_of_app in Hev as [Hev|Hev].
    2:{ apply list_elem_of_singleton in Hev. done. }
    apply elem_of_cons in Hev as [Hev|Hev]; [done|].
    apply elem_of_cons in Hev as [Hev|Hev]; [done|].
    apply elem_of_cons in Hev as [Hev|Hev]; [done|].
    apply elem_of_app in Hev as [Hev|Hev].
    2:{ apply list_elem_of_singleton in Hev. done. }
    assert (Hnames : ∀ l d', EvWriteFile n data
              ∈ log_of (dashboardassets.extract_loop ctx l dest d') → False).
    { clear. intros l. induction l as [|r0 l IH]; intros d' Hin.
      - by apply elem_of_nil in Hin.
      - rewrite extract_loop_cons in Hin.
        destruct (tar.err r0); [by apply elem_of_nil in Hin|].
        destruct (tar.hdr r0) as [h0|]; [|by eapply IH].
        cbv zeta in Hin.
        assert (Hent : EvWriteFile n data
                  ∈ log_of (extract_entry ctx dest h0 r0 d') → False).
        { unfold extract_entry.
          destruct (Ascii.eqb _ tar.TypeDir).
          { rewrite MkdirAll_run. cbn [log_of]. intros H.
            by apply list_elem_of_singleton in H. }
          destruct (Ascii.eqb _ tar.TypeReg).
          2:{ rewrite ret_run. cbn [log_of]. intros H. by apply elem_of_nil in H. }
          io_run. rewrite Create_run. io_run.
          destruct (os.open_trunc _ d').2; io_run.
          - intros H. repeat (apply elem_of_cons in H as [H|H]; [done|]).
            by apply elem_of_nil in H.
          - rewrite Copy_run.
            destruct (String.eqb (tar.body r0) ""); cbn [log_of];
              intros H; repeat (apply elem_of_cons in H as [H|H]; [done|]);
              by apply elem_of_nil in H. }
        destruct (val_of (extract_entry ctx dest h0 r0 d')); [done|].
        rewrite <- (run_eta (extract_entry ctx dest h0 r0 d')), then_run_mk in Hin.
        cbn [log_of] in Hin. apply elem_of_app in Hin as [Hin|Hin]; [done|].
        by eapply IH. }
    apply elem_of_app in Hev as [Hev|Hev]; by eapply Hnames.
  - intros n Hn Hfresh. rewrite Hdisk. apply loop_keeps.
    + apply loop_keeps; [by apply with_root_keeps|].
      intros r' h' Hr'. apply Hfresh. apply elem_of_app. by left.
    + intros r' h' Hr'. apply Hfresh. apply elem_of_app. by right.
Qed.



(** C2.  Extraction completeness: for the archive of the directory
    entry [a/] and the file entry [a/b.txt] with body [hi], a run of
    [extractTarGz] that returns no error leaves a directory [a] and a
    file [a/b.txt] holding [hi] under the destination root; and the run
    does return no error, the end of the stream included, when the root
    exists, nothing on the disk is refused and no node of the other
    kind is in the way. *)
Theorem extraction_completeness ctx dest d :
  let x := dashboardassets.extractTarGz ctx
             (mkArchive None [tar.dir "a/"; tar.reg "a/b.txt" "hi"]) dest d in
  (val_of x = None →
     stat (disk_of x) (resolve dest ++ ["a"]) = Found Dir
     ∧ stat (disk_of x) (resolve dest ++ ["a"; "b.txt"]) = Found (File "hi"))
  ∧ (stat d (resolve dest) = Found Dir →
     faults d = ∅ →
     (∀ c, stat d (resolve dest ++ ["a"]) ≠ Found (File c)) →
     stat d (resolve dest ++ ["a"; "b.txt"]) ≠ Found Dir →
     val_of x = None).
Proof.
  intros x. subst x. rewrite extractTarGz_run. cbv zeta.
  cbn [gzip_header_err tar_records val_of disk_of].
  set (ha := tar.mkHeader "a/" tar.TypeDir).
  set (hb := tar.mkHeader "a/b.txt" tar.TypeReg).
  assert (Hta : target_of dest ha = resolve dest ++ ["a"]).
  { unfold target_of. by rewrite resolve_Join_inside by (by repeat constructor). }
  assert (Htb : target_of dest hb = resolve dest ++ ["a"; "b.txt"]).
  { unfold target_of. by rewrite resolve_Join_inside by (by repeat constructor). }
  split.
  - intros Hok.
    destruct (loop_cons_ok ctx dest (tar.dir "a/") [tar.reg "a/b.txt" "hi"] d ha
                eq_refl eq_refl Hok) as (Ha & Hda & Hok1).
    rewrite Hda.
    set (d1 := disk_of (extract_entry ctx dest ha (tar.dir "a/") d)) in *.
    destruct (loop_cons_ok ctx dest (tar.reg "a/b.txt" "hi") [] d1 hb
                eq_refl eq_refl Hok1) as (Hb & Hdb & _).
    rewrite Hdb. simpl dashboardassets.extract_loop. rewrite ret_run.
    cbn [disk_of].
    destruct (entry_evolves ctx dest ha (tar.dir "a/") d)
      as (_ & _ & _ & _ & _ & Hdir & _).
    destruct (entry_evolves ctx dest hb (tar.reg "a/b.txt" "hi") d1)
      as (us & Hev & _ & _ & Hfile & _).
    rewrite <- Hta, <- Htb. split.
    + eapply evolves_dir; [done|]. by apply Hdir.
    + by apply Hfile.
  - intros Hroot Hfaults Hna Hnb.
    rewrite !extract_loop_cons. cbn [tar.dir tar.reg tar.err tar.hdr]. cbv zeta.
    fold ha hb.
    destruct (mkdir_all_child d (resolve dest) "a" Hroot Hna
                (faulty_no_faults _ _ _ Hfaults)) as (Hmk & Hbelow).
    destruct (mkdir_all_evolves (rev (resolve dest ++ ["a"])) d)
      as (us1 & Hev1 & _ & _ & Hdir1).
    rewrite rev_involutive in Hdir1. specialize (Hdir1 Hmk).
    assert (Hea : extract_entry ctx dest ha (tar.dir "a/") d
              = mkRun (os.mkdir_all (rev (resolve dest ++ ["a"])) d).1
                  [EvMkdirAll (filepath.Join dest "a/")] None).
    { unfold extract_entry. cbn [tar.Typeflag tar.Name ha].
      change (Ascii.eqb tar.TypeDir tar.TypeDir) with true. cbv iota.
      rewrite MkdirAll_run.
      change (resolve (filepath.Join dest "a/")) with (target_of dest ha).
      rewrite Hta, Hmk. done. }
    rewrite Hea. cbn [val_of]. rewrite then_run_mk. cbn [val_of].
    set (d1 := (os.mkdir_all (rev (resolve dest ++ ["a"])) d).1) in *.
    rewrite extract_loop_cons. cbn [tar.reg tar.err tar.hdr]. cbv zeta. fold hb.
    assert (Hf1 : faults d1 = ∅) by (by rewrite (evolves_faults _ _ _ Hev1)).
    assert (Hopen : os.open_trunc (resolve dest ++ ["a"; "b.txt"]) d1
              = (put d1 (resolve dest ++ ["a"; "b.txt"]) (TFile ""), None)).
    { apply open_trunc_ok.
      - by destruct (resolve dest).
      - change (resolve dest ++ ["a"; "b.txt"])
          with (resolve dest ++ ["a"] ++ ["b.txt"]).
        by rewrite app_assoc, parent_snoc.
      - destruct (Hbelow "b.txt") as [H|H]; [done|by destruct Hnb].
      - by apply faulty_no_faults. }
    assert (Heb : val_of (extract_entry ctx dest hb (tar.reg "a/b.txt" "hi") d1)
              = None).
    { unfold extract_entry. cbn [tar.Typeflag tar.Name tar.body tar.body_err hb
                                   tar.reg].
      change (Ascii.eqb tar.TypeReg tar.TypeDir) with false.
      change (Ascii.eqb tar.TypeReg tar.TypeReg) with true. cbv iota.
      io_run. rewrite Create_run.
      change (resolve (filepath.Join dest "a/b.txt")) with (target_of dest hb).
      rewrite Htb, Hopen. cbn [fst snd].
      io_run. rewrite Copy_run. change (String.eqb "hi" "") with false. cbv iota.
      cbn [val_of].
      change (resolve (filepath.Join dest "a/b.txt")) with (target_of dest hb).
      rewrite Htb.
      unfold os.write. rewrite faulty_no_faults; [done|].
      by rewrite faults_put. }
    rewrite Heb.
    rewrite <- (run_eta (extract_entry _ _ _ _ _)), then_run_mk. by cbn [val_of].
Qed.

(** ** The theorems at sample inputs *)

Lemma load_missing_marker_witness :
  stat sample_disk (resolve "/opt/assets/versions.json") = Missing ENOENT
  ∧ dashboardassets.loadReportAssetVersionFile (sample_env sample_archive)
      sample_disk
    = mkRun sample_disk [EvStat "/opt/assets/versions.json"]
        (inl (mkVersionFile "")).
Proof.
  split; [by vm_compute|].
  apply (load_missing_marker (sample_env sample_archive) sample_disk).
  by vm_compute.
Defined.

Lemma marker_round_trip_witness :
  all_ascii "1.2.3" = true
  ∧ val_of (dashboardassets.updateAssetVersionFile (sample_env sample_archive)
              sample_disk) = None
  ∧ val_of (dashboardassets.loadReportAssetVersionFile
              (sample_env sample_archive)
              (disk_of (dashboardassets.updateAssetVersionFile
                          (sample_env sample_archive) sample_disk)))
    = inl (mkVersionFile "1.2.3").
Proof.
  split; [reflexivity|]. split; [by vm_compute|].
  apply (marker_round_trip (sample_env sample_archive) sample_disk);
    by vm_compute.
Defined.

Lemma Ensure_twice_witness :
  let env := sample_env sample_archive in
  let first := dashboardassets.Ensure env ctx_Background sample_disk in
  val_of first = None
  ∧ ∀ e, e ∈ log_of (dashboardassets.Ensure env ctx_Background (disk_of first)) →
         is_write e = false.
Proof.
  split; [by vm_compute|].
  apply (Ensure_twice (sample_env sample_archive) ctx_Background sample_disk);
    by vm_compute.
Defined.

Lemma version_gate_witness :
  persisted_marker (sample_env sample_archive) sample_disk = MarkerAbsent
  ∧ extraction_started
      (log_of (dashboardassets.Ensure (sample_env sample_archive)
                 ctx_Background sample_disk)).
Proof.
  split; [by vm_compute|].
  assert (Hv : AppVersion_String (sample_env sample_archive) ≠ "") by done.
  destruct (version_gate (sample_env sample_archive) ctx_Background sample_disk Hv)
    as (_ & Hx & _).
  apply (Hx sample_archive eq_refl). left. by vm_compute.
Defined.

Lemma corrupt_marker_recovery_witness :
  let env := sample_env sample_archive in
  json.Unmarshal "1.2.3" [("version", "")]
    = ([("version", "")], Some json_SyntaxError)
  ∧ dashboardassets.installedAsstesMatchAppVersion env corrupt_disk
    = mkRun corrupt_disk (gate_log_corrupt env) false
  ∧ val_of (dashboardassets.Ensure env ctx_Background corrupt_disk) = None.
Proof.
  intros env. split; [by vm_compute|].
  destruct (corrupt_marker_recovery env ctx_Background corrupt_disk "1.2.3"
              [("version", "")] json_SyntaxError)
    as (_ & Hg & _ & _ & Hok & _); [by vm_compute..|].
  split; [exact Hg|].
  apply (Hok sample_archive eq_refl); by vm_compute.
Defined.

Lemma unreadable_marker_as_corrupt_witness :
  let env := sample_env sample_archive in
  val_of (filehelpers.FileExists "/opt/assets/versions.json" unreadable_disk)
    = true
  ∧ val_of (os.ReadFile "/opt/assets/versions.json" unreadable_disk)
    = ("", Some (PathError "read" ["opt"; "assets"; "versions.json"] EIO))
  ∧ dashboardassets.loadReportAssetVersionFile env unreadable_disk
    = mkRun unreadable_disk (gate_log_corrupt env) (inr json_SyntaxError)
  ∧ val_of (dashboardassets.Ensure env ctx_Background unreadable_disk) = None.
Proof.
  intros env. split; [by vm_compute|]. split; [by vm_compute|].
  destruct (unreadable_marker_as_corrupt env ctx_Background unreadable_disk)
    as (_ & Hl & _ & _ & _ & Hok & _); [by vm_compute..|].
  split; [exact Hl|].
  apply (Hok sample_archive eq_refl); by vm_compute.
Defined.

Lemma unknown_entry_rejected_witness :
  stat bare_disk ["opt"; "assets"] = Missing ENOENT
  ∧ val_of (dashboardassets.Ensure (sample_env symlink_archive) ctx_Background
              bare_disk)
    = Some (sperr_WrapWithMessage
              (sperr_New "ExtractTarGz: uknown type: 110010 in a/link")
              "could not extract embedded dashboard assets archive")
  ∧ stat (disk_of (dashboardassets.Ensure (sample_env symlink_archive)
                     ctx_Background bare_disk))
         ["opt"; "assets"; "a"] = Found Dir
  ∧ stat (disk_of (dashboardassets.Ensure (sample_env symlink_archive)
                     ctx_Background bare_disk))
         ["opt"; "assets"; "a"; "b.txt"] = Missing ENOENT.
Proof.
  split; [by vm_compute|].
  destruct (unknown_entry_rejected (sample_env symlink_archive) ctx_Background
              bare_disk symlink_archive [tar.dir "a/"]
              (tar.entry "a/link" "2"%char)
              (tar.mkHeader "a/link" "2"%char) [tar.reg "a/b.txt" "hi"])
    as (_ & Hx); [solve [by vm_compute | by repeat constructor]..|].
  destruct Hx as (_ & Hv & Hd); [by vm_compute|].
  split; [exact Hv|]. rewrite Hd. split; by vm_compute.
Defined.

Lemma partial_failure_durability_witness :
  let env := sample_env three_files in
  let r := dashboardassets.Ensure env ctx_Background failing_bare_disk in
  val_of r
    = Some (sperr_WrapWithMessage
              (PathError "write" ["opt"; "assets"; "b.txt"] EIO)
              "could not extract embedded dashboard assets archive")
  ∧ stat (disk_of r) ["opt"; "assets"; "a.txt"] = Found (File "hi")
  ∧ ∀ ev, ev ∈ log_of r → ∀ n data, ev ≠ EvWriteFile n data.
Proof.
  intros env r.
  destruct (partial_failure_durability env ctx_Background failing_bare_disk
              three_files [tar.reg "a.txt" "hi"] (tar.reg "b.txt" "yo")
              [tar.reg "c.txt" "zz"]
              (PathError "write" ["opt"; "assets"; "b.txt"] EIO))
    as (Hv & _ & Hfiles & Hlog & _);
    [solve [by vm_compute | by repeat constructor]..|].
  split; [exact Hv|]. split; [|exact Hlog].
  destruct (Hfiles [] (tar.reg "a.txt" "hi") []
              (tar.mkHeader "a.txt" tar.TypeReg) eq_refl eq_refl eq_refl)
    as (_ & Hbody).
  apply Hbody. intros r' h' Hr' Hh' _.
  apply list_elem_of_singleton in Hr'. subst r'. injection Hh' as <-.
  by vm_compute.
Defined.


Lemma extraction_completeness_witness :
  let x := dashboardassets.extractTarGz ctx_Background sample_archive
             "/opt/assets" sample_disk in
  val_of x = None
  ∧ stat (disk_of x) ["opt"; "assets"; "a"] = Found Dir
  ∧ stat (disk_of x) ["opt"; "assets"; "a"; "b.txt"] = Found (File "hi").
Proof.
  destruct (extraction_completeness ctx_Background "/opt/assets" sample_disk)
    as (Hpost & Hok).
  assert (Hv : val_of (dashboardassets.extractTarGz ctx_Background sample_archive
                         "/opt/assets" sample_disk) = None).
  { apply Hok; by vm_compute. }
  split; [exact Hv|]. exact (Hpost Hv).
Defined.

(* ===================================================================== *)
(** * Further properties                                                  *)
(* ===================================================================== *)

(** As above, a disk refuses an operation on a location always or
    never. *)

(** ** The loop, record by record *)

Section MoreExtraction.

Context (ctx : Context) (dest : string).

Lemma before_end_all l : Forall (λ r, ends_stream r = false) (before_end l).
Proof.
  induction l as [|r l IH]; simpl; [constructor|].
  destruct (ends_stream r) eqn:Hr; by constructor.
Qed.

(** The loop stops at the first record that ends the stream. *)
Lemma loop_before_end l d :
  dashboardassets.extract_loop ctx l dest d
  = dashboardassets.extract_loop ctx (before_end l) dest d.
Proof.
  revert d. induction l as [|r l IH]; intros d; [done|].
  cbn [before_end]. destruct (ends_stream r) eqn:Hr.
  - rewrite extract_loop_cons. unfold ends_stream in Hr.
    destruct (tar.err r) as [e|]; [|done]. by rewrite Hr.
  - rewrite !extract_loop_cons.
    destruct (tar.err r) as [e|]; [done|].
    destruct (tar.hdr r) as [h|]; [|apply IH]. cbv zeta.
    destruct (val_of (extract_entry ctx dest h r d)); [done|].
    unfold then_run. by rewrite IH.
Qed.

Lemma entry_dir_run h r d :
  tar.Typeflag h = tar.TypeDir →
  extract_entry ctx dest h r d =
    mkRun (os.mkdir_all (rev (target_of dest h)) d).1
      [EvMkdirAll (filepath.Join dest (tar.Name h))]
      (match (os.mkdir_all (rev (target_of dest h)) d).2 with
       | Some e => Some (PathError "mkdir" (target_of dest h) e)
       | None => None
       end).
Proof.
  intros Hd. unfold extract_entry. rewrite Hd.
  change (Ascii.eqb tar.TypeDir tar.TypeDir) with true. cbv iota.
  by rewrite MkdirAll_run.
Qed.

Lemma entry_reg_run h r d :
  tar.Typeflag h = tar.TypeReg →
  extract_entry ctx dest h r d =
    let T := target_of dest h in
    let target := filepath.Join dest (tar.Name h) in
    let st := EvStatus ("Extracting " ++ tar.Name h ++ dashboardassets.ellipsis) in
    match os.open_trunc T d with
    | (d1, Some e) => mkRun d1 [st; EvCreate target] (Some (PathError "open" T e))
    | (d1, None) =>
        if String.eqb (tar.body r) "" then
          mkRun d1 [st; EvCreate target; EvCopy target (tar.body r)] (tar.body_err r)
        else
          mkRun (os.write T (tar.body r) d1).1
            [st; EvCreate target; EvCopy target (tar.body r)]
            (match (os.write T (tar.body r) d1).2 with
             | Some e => Some (PathError "write" T e)
             | None => tar.body_err r
             end)
    end.
Proof.
  intros Hr. unfold extract_entry, target_of. rewrite Hr.
  change (Ascii.eqb tar.TypeReg tar.TypeDir) with false.
  change (Ascii.eqb tar.TypeReg tar.TypeReg) with true. cbv iota zeta.
  io_run. rewrite Create_run. io_run.
  destruct (os.open_trunc (resolve (filepath.Join dest (tar.Name h))) d)
    as [d1 [e|]]; cbn [fst snd]; io_run; [done|].
  rewrite Copy_run. by destruct (String.eqb (tar.body r) "").
Qed.


Lemma entry_calls_ok h r d :
  tar.hdr r = Some h →
  val_of (extract_entry ctx dest h r d) = None →
  log_of (extract_entry ctx dest h r d) = entry_calls dest r.
Proof.
  intros Hh. unfold entry_calls. rewrite Hh. cbv zeta.
  destruct (Ascii.eqb_spec (tar.Typeflag h) tar.TypeDir) as [Hd|Hd].
  { by rewrite entry_dir_run. }
  destruct (Ascii.eqb_spec (tar.Typeflag h) tar.TypeReg) as [Hr|Hr].
  2:{ by rewrite entry_unknown. }
  rewrite entry_reg_run by done. cbv zeta.
  destruct (os.open_trunc (target_of dest h) d) as [d1 [e|]]; [done|].
  by destruct (String.eqb (tar.body r) "").
Qed.

Lemma loop_trace l d :
  Forall (λ r, ends_stream r = false) l →
  val_of (dashboardassets.extract_loop ctx l dest d) = None →
  log_of (dashboardassets.extract_loop ctx l dest d)
  = flat_map (entry_calls dest) l.
Proof.
  revert d. induction l as [|r l IH]; intros d Hl; [done|].
  inversion Hl as [|? ? Hr Hl']; subst.
  rewrite extract_loop_cons. unfold ends_stream in Hr.
  destruct (tar.err r) as [e|] eqn:He; [by rewrite Hr|].
  cbn [flat_map]. destruct (tar.hdr r) as [h|] eqn:Hh.
  2:{ intros Hv. unfold entry_calls at 1. rewrite Hh. by apply IH. }
  cbv zeta.
  destruct (val_of (extract_entry ctx dest h r d)) eqn:Hx.
  { by rewrite Hx. }
  rewrite <- (run_eta (extract_entry ctx dest h r d)), then_run_mk.
  cbn [val_of log_of]. intros Hv.
  by rewrite (entry_calls_ok h), IH.
Qed.

End MoreExtraction.

(** ** More on the file tree *)

Section MoreDisk.

Lemma tlookup_below_leaf t c r :
  (t = TDir ∅ ∨ ∃ x, t = TFile x) → ∃ e, tlookup t (c :: r) = Missing e.
Proof.
  intros [->|[x ->]]; simpl; [|eauto].
  rewrite lookup_empty. eauto.
Qed.

Lemma prefix_cases (p q : path) :
  p `prefix_of` q → p = q ∨ ∃ c r, q = p ++ c :: r.
Proof.
  intros [k ->]. destruct k as [|c r]; [left; by rewrite app_nil_r|right; eauto].
Qed.

Lemma prefix_snoc (q p : path) c :
  q `prefix_of` p ++ [c] → q = p ++ [c] ∨ q `prefix_of` p.
Proof.
  intros [k Hk]. destruct (decide (k = [])) as [->|Hne].
  - left. by rewrite app_nil_r in Hk.
  - right. destruct (exists_last Hne) as (k' & x & ->).
    rewrite app_assoc in Hk. apply app_inj_tail in Hk as [-> _]. by exists k'.
Qed.

(** Rewriting a regular file changes nothing anywhere else. *)
Lemma stat_put_file_other d T c0 c q :
  stat d T = Found (File c0) → q ≠ T →
  stat (put d T (TFile c)) q = stat d q.
Proof.
  intros HT Hq.
  assert (Hne : T ≠ []) by (intros ->; by rewrite stat_root in HT).
  pose proof (stat_found_parent _ _ _ HT Hne) as Hpar.
  destruct (decide (T `prefix_of` q)) as [Hpre|Hpre].
  - apply prefix_cases in Hpre as [->|(x & r & ->)]; [done|].
    rewrite stat_put_below by done. simpl.
    unfold stat in *. clear -HT. revert HT. generalize (TDir (root d)).
    induction T as [|c1 T IH]; intros t HT; simpl in *.
    + by destruct t.
    + destruct t as [|ch]; [done|]. destruct (ch !! c1); [by apply IH|done].
  - by apply stat_put_other.
Qed.

Lemma stat_put_file_self d T c0 c :
  stat d T = Found (File c0) → stat (put d T (TFile c)) T = Found (File c).
Proof.
  intros HT.
  assert (Hne : T ≠ []) by (intros ->; by rewrite stat_root in HT).
  rewrite stat_put_self; [done|done|]. by eapply stat_found_parent.
Qed.

(** What an update leaves missing. *)
Lemma evolves_missing d us d' p :
  evolves d us d' → (∃ e, stat d p = Missing e) →
  Forall (λ u, upath u ≠ p) us → ∃ e, stat d' p = Missing e.
Proof.
  induction 1 as [|d u us d' Hl H IH]; intros Hp Hus; [done|].
  inversion Hus as [|? ? Hu Hus']; subst. apply IH; [|done].
  destruct Hl as (Hne & Hpar & Hk).
  assert (Ht : ∃ t, apply_update d u = put d (upath u) t
                    ∧ (t = TDir ∅ ∨ ∃ x, t = TFile x)).
  { destruct u; simpl; eauto. }
  destruct Ht as (t & -> & Ht).
  destruct (decide (upath u `prefix_of` p)) as [Hpre|Hpre].
  - apply prefix_cases in Hpre as [Heq|(c & r & ->)]; [done|].
    rewrite stat_put_below by done. by apply tlookup_below_leaf.
  - by rewrite stat_put_other.
Qed.

(** A regular file found after updates none of which wrote it was
    there before, with the same bytes. *)
Lemma evolves_file_origin d us d' q c :
  evolves d us d' →
  Forall (λ u, is_SetFile u → upath u ≠ q) us →
  stat d' q = Found (File c) → stat d q = Found (File c).
Proof.
  induction 1 as [|d u us d' Hl H IH]; intros Hus Hq; [done|].
  inversion Hus as [|? ? Hu Hus']; subst. specialize (IH Hus' Hq).
  destruct Hl as (Hne & Hpar & Hk).
  destruct (decide (upath u `prefix_of` q)) as [Hpre|Hpre].
  - apply prefix_cases in Hpre as [Heq|(x & r & ->)].
    + destruct u as [p|p c1]; simpl in *; subst.
      * by rewrite stat_put_self in IH.
      * by destruct Hu.
    + assert (Ht : ∃ t, apply_update d u = put d (upath u) t
                        ∧ (t = TDir ∅ ∨ ∃ x, t = TFile x)).
      { destruct u; simpl; eauto. }
      destruct Ht as (t & Heq & Ht). rewrite Heq in IH.
      rewrite stat_put_below in IH by done.
      destruct (tlookup_below_leaf t x r Ht) as [e He]. by rewrite He in IH.
  - destruct (apply_update_put d u) as [t Heq]. rewrite Heq in IH.
    by rewrite stat_put_other in IH.
Qed.

(** *** MkdirAll *)

Lemma mkdir_all_keeps rp d q n :
  stat d q = Found n → stat (os.mkdir_all rp d).1 q = Found n.
Proof.
  intros Hq. destruct (mkdir_all_evolves rp d) as (us & Hev & Hus & _).
  eapply evolves_keeps; [done..|].
  eapply Forall_impl; [exact Hus|]. intros u [Hn _] Hs. by destruct Hn.
Qed.

Lemma mkdir_all_faults rp d : faults (os.mkdir_all rp d).1 = faults d.
Proof.
  destruct (mkdir_all_evolves rp d) as (us & Hev & _). by eapply evolves_faults.
Qed.

(** With nothing refused, [mkdir_all] fails exactly when a regular
    file lies on the way. *)
Lemma mkdir_all_iff rp d :
  (∀ q, q `prefix_of` rev rp → faulty d OpMkdir q = false) →
  (os.mkdir_all rp d).2 = None
  ↔ ∀ q c, q `prefix_of` rev rp → stat d q ≠ Found (File c).
Proof.
  induction rp as [|c rp IH]; intros Hf; rewrite mkdir_all_unfold.
  { rewrite stat_root. simpl. split; [|done]. intros _ q x Hq.
    apply prefix_nil_inv in Hq. subst. by rewrite stat_root. }
  change (rev (c :: rp)) with (rev rp ++ [c]) in *.
  destruct (stat d (rev rp ++ [c])) as [[|x]|e] eqn:Hst.
  - split; [|done]. intros _ q y Hq Hy.
    destruct (decide (q = rev rp ++ [c])) as [->|Hne]; [congruence|].
    rewrite (stat_found_prefix _ _ _ _ Hst Hq Hne) in Hy. done.
  - split; [done|]. intros H. by destruct (H (rev rp ++ [c]) x).
  - assert (Hf' : ∀ q, q `prefix_of` rev rp → faulty d OpMkdir q = false).
    { intros q Hq. apply Hf. by apply prefix_app_r. }
    specialize (IH Hf').
    destruct (mkdir_all_evolves rp d) as (us & Hev & Hus & _ & Hok).
    destruct (os.mkdir_all rp d) as [d1 [e1|]] eqn:Hrec; cbn [fst snd] in *.
    + split; [done|]. intros H. apply IH. intros q y Hq. apply H.
      by apply prefix_app_r.
    + assert (Hall : ∀ q y, q `prefix_of` rev rp → stat d q ≠ Found (File y))
        by by apply IH.
      assert (Hmiss : ∃ e', stat d1 (rev rp ++ [c]) = Missing e').
      { eapply evolves_missing; [done|eauto|].
        eapply Forall_impl; [exact Hus|]. intros u [_ Hu] Heq.
        rewrite Heq in Hu. apply prefix_length in Hu.
        rewrite length_app in Hu. simpl in Hu. lia. }
      destruct Hmiss as [e' He'].
      assert (Hmk : (os.mkdir (rev rp ++ [c]) d1).2 = None).
      { unfold os.mkdir. rewrite He', parent_snoc, (Hok eq_refl).
        unfold faulty. rewrite (evolves_faults _ _ _ Hev).
        fold (faulty d OpMkdir (rev rp ++ [c])). by rewrite Hf. }
      split; [|done]. intros _ q y Hq.
      apply prefix_snoc in Hq as [->|Hq]; [by rewrite Hst|by apply Hall].
Qed.

Lemma open_trunc_faulty p d :
  (os.open_trunc p d).2 = None → faulty d OpOpenWrite p = false.
Proof.
  unfold os.open_trunc. destruct (stat d p) as [[|c]|e]; [done| |].
  - by destruct (faulty d OpOpenWrite p).
  - destruct e; try done.
    destruct (stat d (parent p)) as [[|?]|?]; try done.
    by destruct (faulty d OpOpenWrite p).
Qed.

Lemma open_trunc_file p d c :
  stat d p = Found (File c) → faulty d OpOpenWrite p = false →
  os.open_trunc p d = (put d p (TFile ""), None).
Proof. intros Hp Hf. unfold os.open_trunc. by rewrite Hp, Hf. Qed.

Lemma open_trunc_faults p d : faults (os.open_trunc p d).1 = faults d.
Proof.
  destruct (open_trunc_evolves p d) as (us & Hev & _). by eapply evolves_faults.
Qed.

Lemma write_faulty p data d :
  (os.write p data d).2 = None → faulty d OpWrite p = false.
Proof. unfold os.write. by destruct (faulty d OpWrite p). Qed.

Lemma write_ok p data d :
  faulty d OpWrite p = false → os.write p data d = (put d p (TFile data), None).
Proof. intros Hf. unfold os.write. by rewrite Hf. Qed.

End MoreDisk.

(** ** A second pass over the same archive *)

Section Again.

Context (ctx : Context) (dest : string).

(** An entry that went through on [d] goes through on a disk where
    its target already is what the entry makes of it. *)
Lemma entry_again h r d d2 :
  val_of (extract_entry ctx dest h r d) = None →
  faults d2 = faults d →
  (tar.Typeflag h = tar.TypeDir → stat d2 (target_of dest h) = Found Dir) →
  (tar.Typeflag h = tar.TypeReg →
     ∃ c, stat d2 (target_of dest h) = Found (File c)) →
  let y := extract_entry ctx dest h r d2 in
  val_of y = None ∧ faults (disk_of y) = faults d2
  ∧ (tar.Typeflag h = tar.TypeDir → disk_of y = d2)
  ∧ (tar.Typeflag h = tar.TypeReg →
       stat (disk_of y) (target_of dest h) = Found (File (tar.body r))
       ∧ ∀ q, q ≠ target_of dest h → stat (disk_of y) q = stat d2 q).
Proof.
  intros Hv Hf Hdir Hreg. cbv zeta.
  destruct (decide (tar.Typeflag h = tar.TypeDir)) as [Hd|Hd].
  { rewrite entry_dir_run by done. cbn [val_of disk_of].
    rewrite mkdir_all_unfold, rev_involutive, (Hdir Hd). cbn [fst snd].
    split_and!; try done. intros Hr. rewrite Hr in Hd. done. }
  destruct (decide (tar.Typeflag h = tar.TypeReg)) as [Hr|Hr].
  2:{ by rewrite entry_unknown in Hv. }
  destruct (Hreg Hr) as [c2 Hc2]. set (T := target_of dest h) in *.
  rewrite entry_reg_run in Hv |- * by done. cbv zeta in *. fold T in Hv |- *.
  pose proof (open_trunc_faulty T d) as Hopen.
  pose proof (open_trunc_faults T d) as Hfo.
  destruct (os.open_trunc T d) as [da [e|]]; cbn [fst snd] in *; [done|].
  specialize (Hopen eq_refl).
  assert (Hopen2 : faulty d2 OpOpenWrite T = false).
  { unfold faulty in *. by rewrite Hf. }
  rewrite (open_trunc_file T d2 c2) by done.
  assert (H0 : stat (put d2 T (TFile "")) T = Found (File ""))
    by by eapply stat_put_file_self.
  destruct (String.eqb_spec (tar.body r) "") as [Hb|Hb].
  { cbn [val_of disk_of] in *. rewrite faults_put, Hb.
    split_and!; try done. intros _. split; [done|].
    intros q Hq. by eapply stat_put_file_other. }
  cbn [val_of disk_of] in *.
  pose proof (write_faulty T (tar.body r) da) as Hw.
  destruct (os.write T (tar.body r) da) as [db [e|]]; cbn [fst snd] in *;
    [done|].
  specialize (Hw eq_refl).
  assert (Hw2 : faulty (put d2 T (TFile "")) OpWrite T = false).
  { rewrite faulty_put. unfold faulty in *. by rewrite Hf, <- Hfo. }
  rewrite (write_ok T _ _ Hw2). cbn [fst snd]. rewrite !faults_put.
  split_and!; try done. intros _. split.
  - by eapply stat_put_file_self.
  - intros q Hq. erewrite stat_put_file_other by done.
    by eapply stat_put_file_other.
Qed.

Lemma existsb_writes_to_cons q r l h :
  tar.hdr r = Some h →
  existsb (writes_to dest q) (r :: l) = true →
  (tar.Typeflag h = tar.TypeReg ∧ target_of dest h = q)
  ∨ existsb (writes_to dest q) l = true.
Proof.
  intros Hh. cbn [existsb]. intros [Hw|Hw]%orb_prop; [left|by right].
  unfold writes_to in Hw. rewrite Hh in Hw.
  apply andb_prop in Hw as [Hr Hq]. split.
  - by apply Ascii.eqb_eq.
  - by apply bool_decide_eq_true in Hq.
Qed.

Lemma not_written_later q l :
  existsb (writes_to dest q) l = false →
  ∀ r h, r ∈ l → tar.hdr r = Some h → tar.Typeflag h = tar.TypeReg →
         target_of dest h ≠ q.
Proof.
  intros Hex r h Hr Hh Hreg Heq.
  assert (Hw : existsb (writes_to dest q) l = true); [|congruence].
  apply existsb_exists. exists r. split; [by apply list_elem_of_In|].
  unfold writes_to. rewrite Hh, Hreg. subst q.
  by rewrite Ascii.eqb_refl, bool_decide_eq_true_2.
Qed.

Lemma loop_again l :
  Forall (λ r, ends_stream r = false) l →
  ∀ d d2,
    val_of (dashboardassets.extract_loop ctx l dest d) = None →
    faults d2 = faults d →
    (∀ q, stat d2 q = stat (disk_of (dashboardassets.extract_loop ctx l dest d)) q
          ∨ (existsb (writes_to dest q) l = true
             ∧ ∃ c c', stat d2 q = Found (File c)
                 ∧ stat (disk_of (dashboardassets.extract_loop ctx l dest d)) q
                   = Found (File c'))) →
    val_of (dashboardassets.extract_loop ctx l dest d2) = None
    ∧ faults (disk_of (dashboardassets.extract_loop ctx l dest d2)) = faults d2
    ∧ ∀ q, stat (disk_of (dashboardassets.extract_loop ctx l dest d2)) q
           = stat (disk_of (dashboardassets.extract_loop ctx l dest d)) q.
Proof.
  induction 1 as [|r l Hr Hl IH]; intros d d2 Hv Hf Hsim.
  { simpl in *. split_and!; try done. intros q.
    by destruct (Hsim q) as [?|[? _]]. }
  destruct (tar.hdr r) as [h|] eqn:Hh.
  2:{ assert (Hskip : ∀ d', dashboardassets.extract_loop ctx (r :: l) dest d'
                            = dashboardassets.extract_loop ctx l dest d').
      { intros d'. rewrite extract_loop_cons, Hh. unfold ends_stream in Hr.
        destruct (tar.err r) as [e|] eqn:He; [|done].
        (* a record with an error and no header *)
        rewrite extract_loop_cons, He, Hr in Hv. done. }
      rewrite !Hskip in *. apply IH; [done|done|].
      intros q. destruct (Hsim q) as [?|[Hex ?]]; [by left|right].
      split; [|done]. cbn [existsb] in Hex. unfold writes_to at 1 in Hex.
      by rewrite Hh in Hex. }
  destruct (loop_cons_ok ctx dest r l d h Hr Hh Hv) as (Hent & Hdisk & Hrest).
  set (x1 := extract_entry ctx dest h r d) in *.
  set (d1 := disk_of (dashboardassets.extract_loop ctx l dest (disk_of x1))) in *.
  rewrite Hdisk in Hsim. rewrite Hdisk.
  destruct (entry_evolves ctx dest h r d) as (us1 & Hev1 & _ & _ & Hfile1 & Hdir1 & _).
  fold x1 in Hev1, Hfile1, Hdir1.
  destruct (loop_evolves ctx dest l (disk_of x1)) as (us2 & Hev2 & _).
  fold d1 in Hev2.
  assert (Herr : tar.err r = None).
  { unfold ends_stream in Hr. destruct (tar.err r) as [e|] eqn:He; [|done].
    rewrite extract_loop_cons, He, Hr in Hv. done. }
  (* what the target is on [d2] *)
  assert (Hd2dir : tar.Typeflag h = tar.TypeDir →
                   stat d2 (target_of dest h) = Found Dir).
  { intros Hd.
    assert (H1 : stat d1 (target_of dest h) = Found Dir).
    { eapply evolves_dir; [done|]. by apply Hdir1. }
    destruct (Hsim (target_of dest h)) as [Heq|(_ & c & c' & _ & Hc')];
      congruence. }
  assert (Hd2reg : tar.Typeflag h = tar.TypeReg →
                   ∃ c, stat d2 (target_of dest h) = Found (File c)).
  { intros Hreg.
    destruct (evolves_file _ _ _ _ _ Hev2 (Hfile1 Hreg Hent)) as [c' Hc'].
    destruct (Hsim (target_of dest h)) as [Heq|(_ & c & c'' & Hc & _)].
    - exists c'. congruence.
    - by exists c. }
  destruct (entry_again h r d d2 Hent Hf Hd2dir Hd2reg)
    as (Hy & Hfy & Hydir & Hyreg).
  set (y := extract_entry ctx dest h r d2) in *.
  assert (Hstep : dashboardassets.extract_loop ctx (r :: l) dest d2
                  = then_run y (λ _, dashboardassets.extract_loop ctx l dest)).
  { rewrite extract_loop_cons, Herr, Hh. cbv zeta. fold y. by rewrite Hy. }
  rewrite Hstep. unfold then_run. cbn [val_of disk_of].
  assert (Hfaults : faults (disk_of y) = faults (disk_of x1)).
  { rewrite Hfy, Hf. symmetry. by eapply evolves_faults. }
  destruct (IH (disk_of x1) (disk_of y) Hrest Hfaults) as (Hv2 & Hf2 & Hq2).
  2:{ split_and!; [done| |done]. by rewrite Hf2. }
  fold d1. intros q.
  destruct (decide (tar.Typeflag h = tar.TypeReg)) as [Hreg|Hreg].
  - destruct (Hyreg Hreg) as (Hself & Hother).
    destruct (decide (q = target_of dest h)) as [->|Hq].
    + rewrite Hself.
      destruct (existsb (writes_to dest (target_of dest h)) l) eqn:Hex.
      * right. split; [done|].
        destruct (evolves_file _ _ _ _ _ Hev2 (Hfile1 Hreg Hent)) as [c' Hc'].
        eauto.
      * left. symmetry. apply loop_keeps; [by apply Hfile1|].
        by apply not_written_later.
    + rewrite Hother by done.
      destruct (Hsim q) as [?|[Hex ?]]; [by left|right]. split; [|done].
      destruct (existsb_writes_to_cons q r l h Hh Hex) as [[_ Heq]|?];
        [by subst q|done].
  - assert (Hd : tar.Typeflag h = tar.TypeDir).
    { destruct (decide (tar.Typeflag h = tar.TypeDir)) as [?|Hnd]; [done|].
      subst x1. by rewrite entry_unknown in Hent. }
    rewrite (Hydir Hd).
    destruct (Hsim q) as [?|[Hex ?]]; [by left|right]. split; [|done].
    destruct (existsb_writes_to_cons q r l h Hh Hex) as [[? _]|?]; done.
Qed.

End Again.

(** ** Where errors come from *)

Lemma entry_error_of ctx dest h r d e :
  tar.err r = None → tar.hdr r = Some h →
  val_of (extract_entry ctx dest h r d) = Some e → entry_error dest r e.
Proof.
  intros Herr Hh Hv. right. exists h. split; [done|].
  destruct (decide (tar.Typeflag h = tar.TypeDir)) as [Hd|Hd].
  { left. split; [done|]. rewrite entry_dir_run in Hv by done.
    cbn [val_of] in Hv.
    destruct ((os.mkdir_all (rev (target_of dest h)) d).2) as [en|]; [|done].
    injection Hv as <-. eauto. }
  destruct (decide (tar.Typeflag h = tar.TypeReg)) as [Hr|Hr].
  2:{ right. right. rewrite entry_unknown in Hv by done.
      injection Hv as <-. done. }
  right. left. split; [done|]. rewrite entry_reg_run in Hv by done.
  cbv zeta in Hv.
  destruct (os.open_trunc (target_of dest h) d) as [d1 [en|]].
  { injection Hv as <-. eauto. }
  destruct (String.eqb (tar.body r) ""); cbn [val_of] in Hv; [eauto|].
  destruct ((os.write (target_of dest h) (tar.body r) d1).2) as [en|]; [|eauto].
  injection Hv as <-. eauto.
Qed.

Lemma loop_error ctx dest l d e :
  val_of (dashboardassets.extract_loop ctx l dest d) = Some e →
  ∃ r, r ∈ l ∧ entry_error dest r e.
Proof.
  revert d. induction l as [|r l IH]; intros d; [done|].
  rewrite extract_loop_cons.
  destruct (tar.err r) as [e0|] eqn:Herr.
  { cbn [val_of]. destruct (is_EOF e0); [done|]. intros [= <-].
    exists r. split; [by left|by left]. }
  destruct (tar.hdr r) as [h|] eqn:Hh.
  2:{ intros Hv. destruct (IH _ Hv) as (r' & Hr' & He). exists r'.
      split; [by right|done]. }
  cbv zeta. destruct (val_of (extract_entry ctx dest h r d)) as [e1|] eqn:Hx.
  - rewrite Hx. intros [= <-]. exists r. split; [by left|].
    by eapply entry_error_of.
  - unfold then_run. cbn [val_of]. intros Hv.
    destruct (IH _ Hv) as (r' & Hr' & He). exists r'. split; [by right|done].
Qed.

(** ** More on the marker *)

Section MoreGate.

Context (env : Env).

(** Updates that do not write the marker file cannot make the gate
    report a match. *)
Lemma gate_stays_closed d us d' :
  AppVersion_String env ≠ "" →
  evolves d us d' →
  Forall (λ u, is_SetFile u → upath u ≠ resolve (ReportAssetsVersionFilePath env)) us →
  val_of (dashboardassets.installedAsstesMatchAppVersion env d) = false →
  val_of (dashboardassets.installedAsstesMatchAppVersion env d') = false.
Proof.
  intros Hv Hev Hus. rewrite !gate_run. unfold persisted_marker.
  assert (Hf : ∀ o p, faulty d' o p = faulty d o p).
  { intros o p. unfold faulty. by rewrite (evolves_faults _ _ _ Hev). }
  rewrite Hf.
  destruct (stat d' (resolve (ReportAssetsVersionFilePath env)))
    as [[|c]|e] eqn:H'.
  - done.
  - rewrite (evolves_file_origin _ _ _ _ _ Hev Hus H').
    destruct (faulty d OpRead _); [done|].
    by destruct (json.Unmarshal c [("version", "")]) as [fields [e|]].
  - intros _. destruct e; try done. cbn [val_of].
    apply String.eqb_neq. congruence.
Qed.

(** A failed [os.WriteFile] has either changed nothing or left the
    file empty. *)
Lemma WriteFile_failed name data d e :
  val_of (os.WriteFile name data d) = Some e →
  disk_of (os.WriteFile name data d) = d
  ∨ (disk_of (os.WriteFile name data d) = put d (resolve name) (TFile "")
     ∧ stat (put d (resolve name) (TFile "")) (resolve name) = Found (File "")).
Proof.
  rewrite WriteFile_run.
  destruct (open_trunc_cases (resolve name) d) as [(-> & Hp & Hnd & Hpar)|[e0 ->]];
    [|by left].
  destruct (write_cases (resolve name) data (put d (resolve name) (TFile "")))
    as [-> | ->]; cbn [fst snd val_of disk_of]; [done|].
  intros _. right. split; [done|]. by rewrite stat_put_self.
Qed.

Lemma loop_writes_only_targets ctx dest l d :
  ∃ us, evolves d us (disk_of (dashboardassets.extract_loop ctx l dest d))
    ∧ ∀ q, (∀ r h, r ∈ l → tar.hdr r = Some h →
              tar.Typeflag h = tar.TypeReg → target_of dest h ≠ q) →
           Forall (λ u, is_SetFile u → upath u ≠ q) us.
Proof.
  destruct (loop_evolves ctx dest l d) as (us & Hev & Hus & _).
  exists us. split; [done|]. intros q Hq.
  eapply Forall_impl; [exact Hus|].
  intros u (r & h & Hr & Hh & _ & Hset) Hs.
  destruct (Hset Hs) as [-> Hreg]. by eapply Hq.
Qed.

End MoreGate.

Lemma escaped_plain v : plain v = true → escaped v = v.
Proof.
  induction v as [|c v IH]; [done|]. cbn [plain].
  intros [[Hc Hs]%andb_prop Hv]%andb_prop.
  rewrite escaped_cons by done. unfold json.escape_byte. rewrite Hs.
  change (String c "" ++ escaped v)%string with (String c (escaped v)).
  by rewrite IH.
Qed.

(** When the gate reports a match. *)
Lemma gate_true_iff env d :
  val_of (dashboardassets.installedAsstesMatchAppVersion env d) = true
  ↔ (∃ m, persisted_marker env d = MarkerPresent m
          ∧ Version m = AppVersion_String env)
    ∨ (persisted_marker env d = MarkerAbsent ∧ AppVersion_String env = "").
Proof.
  rewrite gate_run. destruct (persisted_marker env d) as [| |m]; cbn [val_of].
  - rewrite String.eqb_eq. split.
    + intros <-. by right.
    + by intros [(m & ? & _)|[_ ->]].
  - split; [done|]. by intros [(m & ? & _)|[? _]].
  - rewrite String.eqb_eq. split.
    + intros Hm. left. eauto.
    + by intros [(m' & [= <-] & ?)|[? _]].
Qed.

(** ** UTF-8 and the JSON codec *)

Section Utf8Facts.

Import utf8 json.

Local Open Scope N_scope.

Lemma byte_val_bound c : byte_val c < 256.
Proof. apply N_ascii_bounded. Qed.

Lemma mod_window b k lo :
  k ≠ 0 → lo mod k = 0 → lo <= b → b < lo + k → b mod k = b - lo.
Proof.
  intros Hk Hlo H1 H2.
  pose proof (N.div_mod lo k Hk) as E. rewrite Hlo in E.
  symmetry. apply (N.mod_unique b k (lo / k)); lia.
Qed.

Lemma lor_shiftl a b n : b < 2 ^ n → N.lor (N.shiftl a n) b = a * 2 ^ n + b.
Proof.
  intros Hb. rewrite N.shiftl_mul_pow2.
  assert (H0 : N.land (a * 2 ^ n) b = 0).
  { apply N.bits_inj_0. intros m. rewrite N.land_spec.
    destruct (N.lt_ge_cases m n) as [Hm|Hm].
    - by rewrite N.mul_pow2_bits_low.
    - destruct (N.eq_dec b 0) as [->|Hz].
      + rewrite N.bits_0. apply andb_false_r.
      + rewrite (N.bits_above_log2 b m), andb_false_r; [done|].
        apply N.lt_le_trans with n; [|done].
        apply N.log2_lt_pow2; [lia|done]. }
  rewrite <- N.lxor_lor by done. symmetry. by apply N.add_nocarry_lxor.
Qed.

Lemma in_range_spec lo hi c :
  in_range lo hi c = true ↔ lo <= byte_val c ∧ byte_val c <= hi.
Proof. unfold in_range. by rewrite andb_true_iff, !N.leb_le. Qed.

Lemma low6_continuation c :
  in_range 128 191 c = true → low6 c = byte_val c - 128.
Proof.
  intros [H1 H2]%in_range_spec. unfold low6.
  change 63 with (N.ones 6). rewrite N.land_ones.
  apply mod_window; [done|done|lia|lia].
Qed.

Lemma of_byte_val c n : byte_val c = n → c = of_byte n.
Proof.
  intros <-. unfold of_byte, byte_val. by rewrite ascii_N_embedding.
Qed.

Lemma continuation_high c :
  in_range 128 191 c = true → N.ltb (byte_val c) 128 = false.
Proof. intros [H1 H2]%in_range_spec. apply N.ltb_ge. lia. Qed.

(** A rune that decodes is followed by its continuation bytes, and
    what comes after them has no part in its decoding. *)
Lemma decode_valid c r rune size :
  N.ltb (byte_val c) 128 = false →
  DecodeRune (String c r) = (rune, size) →
  N.eqb rune RuneError && Nat.eqb size 1 = false →
  ∃ xs r', r = (xs ++ r')%string
    ∧ String.length xs = Nat.pred size
    ∧ continuation xs = true
    ∧ ∀ t, DecodeRune (String c (xs ++ t)) = (rune, size).
Proof.
  intros Hc Hd Hv.
  assert (Hbad : ∀ A : Prop, (RuneError, 1%nat) = (rune, size) → A).
  { intros A [= <- <-]. done. }
  unfold DecodeRune in Hd. cbv zeta in Hd. rewrite Hc in Hd.
  destruct ((byte_val c <? 194) || (244 <? byte_val c)) eqn:H1;
    [by apply Hbad|].
  destruct (byte_val c <? 224) eqn:H2.
  { destruct r as [|c1 r]; [by apply Hbad|].
    destruct (in_range 128 191 c1) eqn:Hr1; [|by apply Hbad].
    exists (String c1 ""), r. split_and!; [done|by injection Hd as <- <-| |].
    - cbn. by rewrite Hr1.
    - intros t. unfold DecodeRune. cbv zeta.
      change (String c1 "" ++ t)%string with (String c1 t).
      by rewrite Hc, H1, H2, Hr1. }
  destruct (byte_val c <? 240) eqn:H3.
  { destruct r as [|c1 [|c2 r]]; [by apply Hbad|by apply Hbad|].
    destruct (in_range _ _ c1) eqn:Hr1; [|by apply Hbad].
    destruct (in_range 128 191 c2) eqn:Hr2; [|by apply Hbad].
    cbn [andb] in Hd.
    exists (String c1 (String c2 "")), r.
    split_and!; [done|by injection Hd as <- <-| |].
    - cbn. rewrite Hr2. rewrite andb_true_r. apply in_range_spec.
      apply in_range_spec in Hr1.
      destruct (byte_val c =? 224), (byte_val c =? 237); lia.
    - intros t. unfold DecodeRune. cbv zeta.
      change (String c1 (String c2 "") ++ t)%string
        with (String c1 (String c2 t)).
      by rewrite Hc, H1, H2, H3, Hr1, Hr2. }
  destruct r as [|c1 [|c2 [|c3 r]]];
    [by apply Hbad|by apply Hbad|by apply Hbad|].
  destruct (in_range _ _ c1) eqn:Hr1; [|by apply Hbad].
  destruct (in_range 128 191 c2) eqn:Hr2; [|by apply Hbad].
  destruct (in_range 128 191 c3) eqn:Hr3; [|by apply Hbad].
  cbn [andb] in Hd.
  exists (String c1 (String c2 (String c3 ""))), r.
  split_and!; [done|by injection Hd as <- <-| |].
  - cbn. rewrite Hr2, Hr3. rewrite andb_true_r. apply in_range_spec.
    apply in_range_spec in Hr1.
    destruct (byte_val c =? 240), (byte_val c =? 244); lia.
  - intros t. unfold DecodeRune. cbv zeta.
    change (String c1 (String c2 (String c3 "")) ++ t)%string
      with (String c1 (String c2 (String c3 t))).
    by rewrite Hc, H1, H2, H3, Hr1, Hr2, Hr3.
Qed.

(** The two line separators have one encoding each. *)
Lemma decode_line_separator c r rune size :
  DecodeRune (String c r) = (rune, size) →
  rune = 8232 ∨ rune = 8233 →
  ∃ r', String c r = (EncodeRune rune ++ r')%string ∧ size = 3%nat.
Proof.
  intros Hd Hr.
  assert (Hbad : ∀ A : Prop, (RuneError, 1%nat) = (rune, size) → A).
  { intros A [= <- <-]. by destruct Hr. }
  unfold DecodeRune in Hd. cbv zeta in Hd.
  destruct (byte_val c <? 128) eqn:H0.
  { injection Hd as <- <-. apply N.ltb_lt in H0. lia. }
  destruct ((byte_val c <? 194) || (244 <? byte_val c)) eqn:H1;
    [by apply Hbad|].
  apply orb_false_elim in H1 as [H1 H1']. apply N.ltb_ge in H0, H1, H1'.
  destruct (byte_val c <? 224) eqn:H2.
  { destruct r as [|c1 r]; [by apply Hbad|].
    destruct (in_range 128 191 c1) eqn:Hr1; [|by apply Hbad].
    injection Hd as <- <-. exfalso.
    rewrite (low6_continuation c1 Hr1) in Hr.
    apply in_range_spec in Hr1.
    rewrite (lor_shiftl _ _ 6) in Hr by (change (2 ^ 6) with 64; lia).
    change 31 with (N.ones 5) in Hr. rewrite N.land_ones in Hr.
    pose proof (N.mod_lt (byte_val c) (2 ^ 5)) as Hm.
    change (2 ^ 5) with 32 in *. change (2 ^ 6) with 64 in *. lia. }
  destruct (byte_val c <? 240) eqn:H3.
  { apply N.ltb_ge in H2. apply N.ltb_lt in H3.
    destruct r as [|c1 [|c2 r]]; [by apply Hbad|by apply Hbad|].
    destruct (in_range _ _ c1) eqn:Hr1; [|by apply Hbad].
    destruct (in_range 128 191 c2) eqn:Hr2; [|by apply Hbad].
    cbn [andb] in Hd. injection Hd as <- <-.
    assert (Hr1' : in_range 128 191 c1 = true).
    { apply in_range_spec. apply in_range_spec in Hr1.
      destruct (byte_val c =? 224), (byte_val c =? 237); lia. }
    rewrite (low6_continuation c1 Hr1'), (low6_continuation c2 Hr2) in *.
    apply in_range_spec in Hr1', Hr2.
    rewrite (lor_shiftl _ _ 6) in * by (change (2 ^ 6) with 64; lia).
    change (2 ^ 6) with 64 in *.
    rewrite (lor_shiftl _ _ 12) in * by (change (2 ^ 12) with 4096; lia).
    change (2 ^ 12) with 4096 in *.
    change 15 with (N.ones 4) in *. rewrite N.land_ones in *.
    rewrite (mod_window (byte_val c) (2 ^ 4) 224) in *
      by (change (2 ^ 4) with 16; done || lia).
    exists r. split; [|done].
    assert (Hc : byte_val c = 226) by lia.
    assert (Hc1 : byte_val c1 = 128) by lia.
    apply of_byte_val in Hc as ->. apply of_byte_val in Hc1 as ->.
    destruct Hr as [Hr|Hr].
    - assert (Hc2 : byte_val c2 = 168) by (change (byte_val (of_byte 226)) with 226 in Hr; change (byte_val (of_byte 128)) with 128 in Hr; lia).
      apply of_byte_val in Hc2 as ->. by rewrite Hr.
    - assert (Hc2 : byte_val c2 = 169) by (change (byte_val (of_byte 226)) with 226 in Hr; change (byte_val (of_byte 128)) with 128 in Hr; lia).
      apply of_byte_val in Hc2 as ->. by rewrite Hr. }
  apply N.ltb_ge in H2, H3.
  destruct r as [|c1 [|c2 [|c3 r]]];
    [by apply Hbad|by apply Hbad|by apply Hbad|].
  destruct (in_range _ _ c1) eqn:Hr1; [|by apply Hbad].
  destruct (in_range 128 191 c2) eqn:Hr2; [|by apply Hbad].
  destruct (in_range 128 191 c3) eqn:Hr3; [|by apply Hbad].
  cbn [andb] in Hd. injection Hd as <- <-. exfalso.
  assert (Hr1' : in_range 128 191 c1 = true).
  { apply in_range_spec. apply in_range_spec in Hr1.
    destruct (byte_val c =? 240), (byte_val c =? 244); lia. }
  assert (Hlo : byte_val c = 240 → 144 <= byte_val c1).
  { intros E. rewrite E in Hr1. apply in_range_spec in Hr1.
    change (240 =? 240) with true in Hr1. cbv iota in Hr1. lia. }
  rewrite (low6_continuation c1 Hr1'), (low6_continuation c2 Hr2),
    (low6_continuation c3 Hr3) in *.
  apply in_range_spec in Hr1', Hr2, Hr3.
  rewrite (lor_shiftl _ _ 6) in * by (change (2 ^ 6) with 64; lia).
  change (2 ^ 6) with 64 in *.
  rewrite (lor_shiftl _ _ 12) in * by (change (2 ^ 12) with 4096; lia).
  change (2 ^ 12) with 4096 in *.
  rewrite (lor_shiftl _ _ 18) in * by (change (2 ^ 18) with 262144; lia).
  change (2 ^ 18) with 262144 in *.
  change 7 with (N.ones 3) in *. rewrite N.land_ones in *.
  rewrite (mod_window (byte_val c) (2 ^ 3) 240) in *
    by (change (2 ^ 3) with 8; done || lia).
  lia.
Qed.

End Utf8Facts.

Section JsonUtf8.

Import utf8 json.

Lemma length_append (a b : string) :
  String.length (a ++ b) = (String.length a + String.length b)%nat.
Proof.
  induction a as [|x a IH]; [done|].
  change (S (String.length (a ++ b))
          = S (String.length a + String.length b)).
  by rewrite IH.
Qed.

Lemma valid_from_pending xs r :
  valid_from (String.length xs) (xs ++ r) = valid_from 0 r.
Proof. induction xs as [|x xs IH]; [done|]. exact IH. Qed.

Lemma copy_pending xs r :
  appendString_from (Copy (String.length xs)) (xs ++ r)
  = (xs ++ appendString_from (Copy 0) r)%string.
Proof.
  induction xs as [|x xs IH]; [done|].
  change (String x (appendString_from (Copy (String.length xs)) (xs ++ r))
          = String x (xs ++ appendString_from (Copy 0) r)).
  by rewrite IH.
Qed.

Lemma skip_pending xs r :
  appendString_from (Skip (String.length xs)) (xs ++ r)
  = appendString_from (Copy 0) r.
Proof.
  induction xs as [|x xs IH]; [by destruct r|]. exact IH.
Qed.

Lemma appendString_from_rune c v :
  appendString_from (Copy 0) (String c v)
  = if N.ltb (byte_val c) 128
    then (escape_byte c ++ appendString_from (Copy 0) v)%string
    else
      let '(rune, size) := DecodeRune (String c v) in
      if N.eqb rune RuneError && Nat.eqb size 1
      then (String backslash "ufffd" ++ appendString_from (Copy 0) v)%string
      else if N.eqb rune 8232 || N.eqb rune 8233
           then (String backslash
              (String "u" (String "2" (String "0" (String "2"
                 (String (hex_digit (N.land rune 15)) "")))))
              ++ appendString_from (Skip (Nat.pred size)) v)%string
           else String c (appendString_from (Copy (Nat.pred size)) v).
Proof. reflexivity. Qed.

(** What [appendString] writes for a rune of several bytes. *)
Lemma escaped_rune c xs r rune size :
  N.ltb (byte_val c) 128 = false →
  DecodeRune (String c (xs ++ r)) = (rune, size) →
  N.eqb rune RuneError && Nat.eqb size 1 = false →
  String.length xs = Nat.pred size →
  escaped (String c (xs ++ r))
  = if N.eqb rune 8232 || N.eqb rune 8233
    then (String backslash
            (String "u" (String "2" (String "0" (String "2"
               (String (hex_digit (N.land rune 15)) "")))))
            ++ escaped r)%string
    else String c (xs ++ escaped r).
Proof.
  intros Hc Hd Hv Hlen. unfold escaped.
  rewrite appendString_from_rune, Hc, Hd, Hv, <- Hlen.
  by rewrite skip_pending, copy_pending.
Qed.

Lemma lex_high c acc toks rest :
  N.ltb (byte_val c) 128 = false →
  lex (LStr acc false) toks (String c rest)
  = lex (LStr (c :: acc) false) toks rest.
Proof.
  intros Hc%N.ltb_ge.
  change (lex (LStr acc false) toks (String c rest))
    with (if is_byte c 34 then lex LOut (TString (of_rev acc) :: toks) rest
          else lex (LStr (c :: acc) (is_byte c 92)) toks rest).
  unfold is_byte.
  destruct (N.eqb_spec (byte_val c) 34) as [E|_]; [lia|].
  destruct (N.eqb_spec (byte_val c) 92) as [E|_]; [lia|]. done.
Qed.

Lemma lex_continuation xs acc toks rest :
  continuation xs = true →
  lex (LStr acc false) toks (xs ++ rest)
  = lex (LStr (rev (list_ascii_of_string xs) ++ acc) false) toks rest.
Proof.
  revert acc. induction xs as [|x xs IH]; intros acc Hxs; [done|].
  cbn [continuation] in Hxs. apply andb_prop in Hxs as [Hx Hxs].
  change (String x xs ++ rest)%string with (String x (xs ++ rest)).
  rewrite lex_high by by apply continuation_high.
  rewrite IH by done.
  change (list_ascii_of_string (String x xs))
    with (x :: list_ascii_of_string xs).
  cbn [rev]. by rewrite <- app_assoc.
Qed.

Lemma unquote_pending xs t :
  unquote_from (String.length xs) (xs ++ t)
  = (λ u, xs ++ u)%string <$> unquote_from 0 t.
Proof.
  induction xs as [|x xs IH].
  { change (unquote_from 0 t = (λ u, u) <$> unquote_from 0 t).
    by destruct (unquote_from 0 t). }
  change (String x <$> unquote_from (String.length xs) (xs ++ t)
          = (λ u, String x (xs ++ u)) <$> unquote_from 0 t).
  rewrite IH. by destruct (unquote_from 0 t).
Qed.

Lemma unquote_from_high c r :
  N.ltb (byte_val c) 128 = false →
  unquote_from 0 (String c r)
  = let '(rune, size) := DecodeRune (String c r) in
    if N.eqb rune RuneError && Nat.eqb size 1
    then (λ t, EncodeRune RuneError ++ t)%string <$> unquote_from 0 r
    else String c <$> unquote_from (Nat.pred size) r.
Proof.
  intros Hc.
  assert (H92 : is_byte c 92 = false).
  { apply N.ltb_ge in Hc. apply N.eqb_neq. lia. }
  assert (H34 : is_byte c 34 || N.ltb (byte_val c) 32 = false).
  { apply N.ltb_ge in Hc. apply orb_false_intro; [apply N.eqb_neq|apply N.ltb_ge]; lia. }
  destruct r as [|e r1].
  - cbn [unquote_from]. rewrite H92, H34. unfold RuneSelf. by rewrite Hc.
  - cbn [unquote_from]. rewrite H92, H34. unfold RuneSelf. by rewrite Hc.
Qed.

(** Unquoting a rune of several bytes copies it. *)
Lemma unquote_rune c xs t rune size :
  N.ltb (byte_val c) 128 = false →
  DecodeRune (String c (xs ++ t)) = (rune, size) →
  N.eqb rune RuneError && Nat.eqb size 1 = false →
  String.length xs = Nat.pred size →
  unquote_from 0 (String c (xs ++ t))
  = (λ u, String c (xs ++ u)) <$> unquote_from 0 t.
Proof.
  intros Hc Hd Hv Hlen.
  rewrite unquote_from_high, Hd, Hv, <- Hlen, unquote_pending by done.
  by destruct (unquote_from 0 t).
Qed.

Lemma valid_from_rune c r :
  valid_from 0 (String c r)
  = if N.ltb (byte_val c) 128 then valid_from 0 r
    else
      let '(rune, size) := DecodeRune (String c r) in
      negb (N.eqb rune RuneError && Nat.eqb size 1)
      && valid_from (Nat.pred size) r.
Proof. reflexivity. Qed.

Lemma lex_line_separator rune acc toks rest :
  rune = 8232%N ∨ rune = 8233%N →
  let e := String backslash
             (String "u" (String "2" (String "0" (String "2"
                (String (hex_digit (N.land rune 15)) ""))))) in
  lex (LStr acc false) toks (e ++ rest)
  = lex (LStr (rev (list_ascii_of_string e) ++ acc) false) toks rest.
Proof. by intros [-> | ->]. Qed.

Lemma unquote_line_separator rune rest :
  rune = 8232%N ∨ rune = 8233%N →
  unquote_from 0
    (String backslash
       (String "u" (String "2" (String "0" (String "2"
          (String (hex_digit (N.land rune 15)) "")))))
       ++ rest)
  = (λ t, EncodeRune rune ++ t)%string <$> unquote_from 0 rest.
Proof. by intros [-> | ->]. Qed.

Lemma sanitized_from_rune c r :
  sanitized_from 0 (String c r)
  = if N.ltb (byte_val c) 128 then String c (sanitized_from 0 r)
    else
      let '(rune, size) := DecodeRune (String c r) in
      if N.eqb rune RuneError && Nat.eqb size 1
      then (EncodeRune RuneError ++ sanitized_from 0 r)%string
      else String c (sanitized_from (Nat.pred size) r).
Proof. reflexivity. Qed.

Lemma sanitized_pending xs r :
  sanitized_from (String.length xs) (xs ++ r)
  = (xs ++ sanitized_from 0 r)%string.
Proof.
  induction xs as [|x xs IH]; [done|].
  change (String x (sanitized_from (String.length xs) (xs ++ r))
          = String x (xs ++ sanitized_from 0 r)).
  by rewrite IH.
Qed.

(** The lexer runs through what [appendString] writes and stays inside
    the string literal; unquoting it gives the string back, up to the
    replacement of invalid bytes. *)
Lemma escaped_read_back n v :
  (String.length v <= n)%nat →
  (∀ acc toks rest,
     lex (LStr acc false) toks (escaped v ++ rest)
     = lex (LStr (rev (list_ascii_of_string (escaped v)) ++ acc) false)
         toks rest)
  ∧ unquote (escaped v) = Some (sanitized v).
Proof.
  revert v. induction n as [|n IH]; intros v Hn.
  { destruct v; [done|]. cbn in Hn. lia. }
  destruct v as [|c r]; [done|].
  unfold sanitized. rewrite sanitized_from_rune.
  cbn [String.length] in Hn.
  destruct (N.ltb (byte_val c) 128) eqn:Hc.
  { destruct (IH r) as [Hlex Hun]; [lia|].
    rewrite escaped_cons by done. split.
    - intros acc toks rest.
      rewrite append_assoc, lex_escape_byte, Hlex by done.
      by rewrite list_ascii_of_string_app, rev_app_distr, <- app_assoc.
    - unfold unquote in *. by rewrite unquote_escape_byte, Hun. }
  destruct (DecodeRune (String c r)) as [rune size] eqn:Hd.
  destruct (N.eqb rune RuneError && Nat.eqb size 1) eqn:Hok.
  { destruct (IH r) as [Hlex Hun]; [lia|].
    assert (He : escaped (String c r)
                 = (String backslash "ufffd" ++ escaped r)%string).
    { unfold escaped. by rewrite appendString_from_rune, Hc, Hd, Hok. }
    rewrite He. split.
    - intros acc toks rest. rewrite append_assoc.
      change (lex (LStr acc false) toks
                (String backslash "ufffd" ++ escaped r ++ rest))
        with (lex (LStr (rev (list_ascii_of_string (String backslash "ufffd"))
                           ++ acc) false) toks (escaped r ++ rest)).
      rewrite Hlex.
      by rewrite list_ascii_of_string_app, rev_app_distr, <- app_assoc.
    - unfold unquote in *.
      change (unquote_from 0 (String backslash "ufffd" ++ escaped r))
        with ((λ t, EncodeRune RuneError ++ t)%string
                <$> unquote_from 0 (escaped r)).
      by rewrite Hun. }
  destruct (decode_valid c r rune size Hc Hd Hok)
    as (xs & r' & -> & Hlen & Hxs & Hany).
  rewrite <- Hlen, sanitized_pending.
  assert (Hr' : (String.length r' <= n)%nat).
  { rewrite length_append in Hn. lia. }
  destruct (IH r' Hr') as [Hlex Hun].
  rewrite (escaped_rune c xs r' rune size) by done.
  destruct (N.eqb rune 8232 || N.eqb rune 8233) eqn:Hsep.
  - assert (Hr : rune = 8232%N ∨ rune = 8233%N).
    { apply orb_prop in Hsep as [H|H]; apply N.eqb_eq in H; auto. }
    destruct (decode_line_separator c _ rune size Hd Hr) as (r'' & Hc' & ->).
    assert (Hcx : String c xs = EncodeRune rune ∧ r' = r'').
    { destruct xs as [|x1 [|x2 [|x3 xs]]]; try (cbn in Hlen; lia).
      destruct Hr as [-> | ->]; vm_compute in Hc';
        by injection Hc' as -> -> -> ->. }
    destruct Hcx as [Hcx _]. split.
    + intros acc toks rest.
      rewrite append_assoc, (lex_line_separator rune) by done. cbv zeta.
      rewrite Hlex.
      by rewrite list_ascii_of_string_app, rev_app_distr, <- app_assoc.
    + unfold unquote in *. rewrite unquote_line_separator, Hun by done.
      cbn [fmap option_fmap option_map]. rewrite <- Hcx. done.
  - split.
    + intros acc toks rest.
      change (String c (xs ++ escaped r') ++ rest)%string
        with (String c ((xs ++ escaped r') ++ rest)).
      rewrite append_assoc, lex_high, lex_continuation, Hlex by done.
      change (list_ascii_of_string (String c (xs ++ escaped r')))
        with (c :: list_ascii_of_string (xs ++ escaped r')).
      rewrite list_ascii_of_string_app. cbn [rev].
      by rewrite rev_app_distr, <- !app_assoc.
    + unfold unquote in *.
      by rewrite (unquote_rune c xs _ rune size), Hun.
Qed.

(** Replacing invalid bytes never shortens a string, leaves valid
    UTF-8 as it is and lengthens everything else. *)
Lemma sanitized_length n v :
  (String.length v <= n)%nat →
  (String.length v <= String.length (sanitized v))%nat
  ∧ (ValidString v = true → sanitized v = v)
  ∧ (ValidString v = false →
     (String.length v < String.length (sanitized v))%nat).
Proof.
  revert v. induction n as [|n IH]; intros v Hn.
  { destruct v; [done|]. cbn in Hn. lia. }
  destruct v as [|c r]; [done|].
  unfold sanitized, ValidString.
  rewrite sanitized_from_rune, valid_from_rune.
  cbn [String.length] in Hn.
  destruct (N.ltb (byte_val c) 128) eqn:Hc.
  { destruct (IH r) as (Hle & Hv & Hnv); [lia|].
    unfold sanitized, ValidString in *. cbn [String.length].
    split_and!; [lia| |].
    - intros H. by rewrite Hv.
    - intros H. specialize (Hnv H). lia. }
  destruct (DecodeRune (String c r)) as [rune size] eqn:Hd.
  destruct (N.eqb rune RuneError && Nat.eqb size 1) eqn:Hok.
  { destruct (IH r) as (Hle & _ & _); [lia|]. unfold sanitized in Hle.
    rewrite length_append.
    change (String.length (EncodeRune RuneError)) with 3%nat.
    cbn [String.length negb andb]. split_and!; [lia|done|lia]. }
  destruct (decode_valid c r rune size Hc Hd Hok)
    as (xs & r' & -> & Hlen & Hxs & Hany).
  rewrite <- Hlen, sanitized_pending, valid_from_pending.
  assert (Hr' : (String.length r' <= n)%nat).
  { rewrite length_append in Hn. lia. }
  destruct (IH r' Hr') as (Hle & Hv & Hnv).
  unfold sanitized, ValidString in *.
  cbn [String.length negb andb]. rewrite !length_append.
  split_and!; [lia| |].
  - intros H. by rewrite Hv.
  - intros H. specialize (Hnv H). lia.
Qed.

Lemma sanitized_valid v : sanitized v = v ↔ ValidString v = true.
Proof.
  destruct (sanitized_length (String.length v) v) as (_ & Hv & Hnv); [done|].
  split; [|done]. intros E.
  destruct (ValidString v); [done|]. specialize (Hnv eq_refl).
  rewrite E in Hnv. lia.
Qed.

Lemma all_ascii_valid v : all_ascii v = true → ValidString v = true.
Proof.
  unfold ValidString. induction v as [|c v IH]; [done|].
  intros [Hc Hv]%andb_prop. rewrite valid_from_rune, Hc. by apply IH.
Qed.

Lemma lex_Marshal_any v :
  lex LOut [] (json.Marshal [("version", v)]).1
  = Some [TLBrace; TString "version"; TColon; TString (escaped v); TRBrace].
Proof.
  rewrite Marshal_version.
  change (lex LOut [] ("{" ++ String quote ("version" ++ String quote (":"
            ++ String quote (escaped v ++ String quote "}")))))
    with (lex (LStr [] false) [TColon; TString "version"; TLBrace]
            (escaped v ++ String quote "}")).
  destruct (escaped_read_back (String.length v) v) as [Hlex _]; [done|].
  rewrite Hlex.
  change (lex (LStr (rev (list_ascii_of_string (escaped v)) ++ []) false)
            [TColon; TString "version"; TLBrace] (String quote "}"))
    with (Some [TLBrace; TString "version"; TColon;
                TString (of_rev (rev (list_ascii_of_string (escaped v)) ++ []));
                TRBrace]).
  unfold of_rev. rewrite app_nil_r, rev_involutive.
  by rewrite string_of_list_ascii_of_string.
Qed.

Lemma parse_Marshal_any v :
  parse (json.Marshal [("version", v)]).1
  = Some (Object [("version", Str (sanitized v))]).
Proof.
  unfold parse. rewrite lex_Marshal_any.
  change ((st ← (s ← unquote (escaped v);
                 push_value (Str s) [FObj [] (Some "version")]);
           parse_tokens st [TRBrace])
          = Some (Object [("version", Str (sanitized v))])).
  destruct (escaped_read_back (String.length v) v) as [_ Hun]; [done|].
  rewrite Hun. reflexivity.
Qed.

(** What [Unmarshal] reads of what [Marshal] wrote for the marker. *)
Lemma Unmarshal_Marshal_any v v0 :
  json.Unmarshal (json.Marshal [("version", v)]).1 [("version", v0)]
  = ([("version", sanitized v)], None).
Proof. unfold json.Unmarshal. rewrite parse_Marshal_any. reflexivity. Qed.

End JsonUtf8.

(** ** Successful runs *)

(** The log of a successful extraction. *)
Lemma extraction_trace_loop ctx a dest d :
  val_of (dashboardassets.extractTarGz ctx a dest d) = None →
  log_of (dashboardassets.extractTarGz ctx a dest d)
  = [EvLog Info "dashboardassets.extractTarGz start"]
      ++ flat_map (entry_calls dest) (before_end (tar_records a))
      ++ [EvLog Info "dashboardassets.extractTarGz end"].
Proof.
  rewrite extractTarGz_run.
  destruct (gzip_header_err a) as [e|]; [done|]. cbv zeta.
  cbn [val_of log_of]. rewrite loop_before_end. intros Hv.
  by rewrite loop_trace by (done || apply before_end_all).
Qed.

(** What a run of [Ensure] without error has done. *)
Lemma Ensure_ok_cases env ctx d :
  val_of (dashboardassets.Ensure env ctx d) = None →
  let r := dashboardassets.Ensure env ctx d in
  (val_of (dashboardassets.installedAsstesMatchAppVersion env d) = true
   ∧ disk_of r = d)
  ∨ (val_of (dashboardassets.installedAsstesMatchAppVersion env d) = false
     ∧ ∃ a, staticFS env dashboardassets.embeddedAssetArchiveName = Some a
         ∧ let x := dashboardassets.extractTarGz ctx a
                      (EnsureDashboardAssetsDir env) (with_root env d) in
           val_of x = None
           ∧ stat (disk_of r) (resolve (ReportAssetsVersionFilePath env))
             = Found (File (marker_bytes env))
           ∧ ∀ q, ¬ resolve (ReportAssetsVersionFilePath env) `prefix_of` q →
                  stat (disk_of r) q = stat (disk_of x) q).
Proof.
  cbv zeta. rewrite Ensure_run. cbv zeta.
  destruct (val_of (dashboardassets.installedAsstesMatchAppVersion env d));
    cbn [val_of disk_of]; [by left|].
  rewrite install_run. intros Hv. right. split; [done|].
  destruct (staticFS env dashboardassets.embeddedAssetArchiveName) as [a|];
    [|done].
  exists a. split; [done|]. cbv zeta in *.
  destruct (val_of (dashboardassets.extractTarGz ctx a
                      (EnsureDashboardAssetsDir env) (with_root env d)))
    as [e|] eqn:Hx; cbn [val_of disk_of] in *; [done|].
  split; [done|].
  set (x := dashboardassets.extractTarGz ctx a (EnsureDashboardAssetsDir env)
              (with_root env d)) in *.
  assert (Hu : val_of (dashboardassets.updateAssetVersionFile env (disk_of x))
               = None).
  { by destruct (val_of (dashboardassets.updateAssetVersionFile env (disk_of x))). }
  split; [by apply update_ok|]. intros q Hq.
  rewrite update_run. cbv zeta. cbn [disk_of].
  destruct (WriteFile_evolves (ReportAssetsVersionFilePath env) (marker_bytes env)
              (disk_of x)) as (us & Hev & Hus & _).
  apply (evolves_frame (disk_of x) us _ (resolve (ReportAssetsVersionFilePath env)));
    [done| |done].
  eapply Forall_impl; [exact Hus|]. by intros u ->.
Qed.

(** ** [Ensure] *)

(** X1.  What a successful run of [Ensure] has done: either the
    version gate reported a match and the disk is as it was, or the
    destination root was ensured, the archive was opened and extracted
    without error on the disk so prepared, and the marker file now
    holds the encoding of the running version, everything outside the
    marker path being as extraction left it. *)
Theorem Ensure_success env ctx d :
  val_of (dashboardassets.Ensure env ctx d) = None →
  let r := dashboardassets.Ensure env ctx d in
  (val_of (dashboardassets.installedAsstesMatchAppVersion env d) = true
   ∧ disk_of r = d)
  ∨ (val_of (dashboardassets.installedAsstesMatchAppVersion env d) = false
     ∧ ∃ a, staticFS env dashboardassets.embeddedAssetArchiveName = Some a
         ∧ let x := dashboardassets.extractTarGz ctx a
                      (EnsureDashboardAssetsDir env) (with_root env d) in
           val_of x = None
           ∧ stat (disk_of r) (resolve (ReportAssetsVersionFilePath env))
             = Found (File (marker_bytes env))
           ∧ ∀ q, ¬ resolve (ReportAssetsVersionFilePath env) `prefix_of` q →
                  stat (disk_of r) q = stat (disk_of x) q).
Proof. apply Ensure_ok_cases. Qed.

(** X2.  The calls of a successful install, in order: the gate,
    the making of the destination root, the opening of the archive,
    the extraction of every entry, and only then, as the last call
    that touches the disk, the writing of the marker. *)
Theorem Ensure_install_trace env ctx d a :
  val_of (dashboardassets.installedAsstesMatchAppVersion env d) = false →
  staticFS env dashboardassets.embeddedAssetArchiveName = Some a →
  val_of (dashboardassets.Ensure env ctx d) = None →
  log_of (dashboardassets.Ensure env ctx d)
  = [EvLogTime "dashboardassets.Ensure start"]
      ++ log_of (dashboardassets.installedAsstesMatchAppVersion env d)
      ++ [EvMkdirAll (EnsureDashboardAssetsDir env);
          EvOpenEmbedded dashboardassets.embeddedAssetArchiveName;
          EvLog Info "dashboardassets.extractTarGz start"]
      ++ flat_map (entry_calls (EnsureDashboardAssetsDir env))
           (before_end (tar_records a))
      ++ [EvLog Info "dashboardassets.extractTarGz end";
          EvWriteFile (ReportAssetsVersionFilePath env) (marker_bytes env);
          EvLogTime "dashboardassets.Ensure end"].
Proof.
  intros Hg Ha. rewrite Ensure_miss by done. cbv zeta. cbn [val_of log_of].
  rewrite install_run, Ha. cbv zeta.
  pose proof (extraction_trace_loop ctx a (EnsureDashboardAssetsDir env)
                (with_root env d)) as Ht.
  destruct (val_of (dashboardassets.extractTarGz ctx a
                      (EnsureDashboardAssetsDir env) (with_root env d)))
    as [e|]; [done|].
  cbn [val_of log_of]. rewrite (Ht eq_refl), update_run. cbv zeta.
  cbn [val_of log_of].
  destruct (WriteFile_evolves (ReportAssetsVersionFilePath env) (marker_bytes env)
              (disk_of (dashboardassets.extractTarGz ctx a
                          (EnsureDashboardAssetsDir env) (with_root env d))))
    as (us & _ & _ & Hlog & _).
  rewrite Hlog. intros _. cbn [app]. f_equal. f_equal. f_equal.
  by rewrite <- !app_assoc.
Qed.

(** X3.  The stage of a failure: an error that [Ensure] returns was
    met after a mismatch of the version gate and carries the message
    of the stage that failed: opening the archive (the disk is then as
    the making of the destination root left it), extraction (the disk
    is as extraction left it), or the update of the marker (the error
    of [os.WriteFile], wrapped by [updateAssetVersionFile] first). *)
Theorem Ensure_errors_name_their_stage env ctx d e :
  val_of (dashboardassets.Ensure env ctx d) = Some e →
  val_of (dashboardassets.installedAsstesMatchAppVersion env d) = false
  ∧ ((staticFS env dashboardassets.embeddedAssetArchiveName = None
      ∧ e = sperr_WrapWithMessage
              (fs_ErrNotExist dashboardassets.embeddedAssetArchiveName)
              "could not open embedded dashboard assets archive"
      ∧ disk_of (dashboardassets.Ensure env ctx d) = with_root env d)
     ∨ ∃ a cause,
         staticFS env dashboardassets.embeddedAssetArchiveName = Some a
         ∧ let x := dashboardassets.extractTarGz ctx a
                      (EnsureDashboardAssetsDir env) (with_root env d) in
           (val_of x = Some cause
            ∧ e = sperr_WrapWithMessage cause
                    "could not extract embedded dashboard assets archive"
            ∧ disk_of (dashboardassets.Ensure env ctx d) = disk_of x)
           ∨ (val_of x = None
              ∧ val_of (os.WriteFile (ReportAssetsVersionFilePath env)
                          (marker_bytes env) (disk_of x)) = Some cause
              ∧ e = sperr_WrapWithMessage
                      (sperr_WrapWithMessage cause
                         "could not write dashboard assets version file")
                      "could not update dashboard assets version file")).
Proof.
  rewrite Ensure_run. cbv zeta.
  destruct (val_of (dashboardassets.installedAsstesMatchAppVersion env d));
    [done|].
  cbn [val_of disk_of]. rewrite install_run. intros Hv. split; [done|].
  destruct (staticFS env dashboardassets.embeddedAssetArchiveName) as [a|].
  2:{ left. cbn [val_of disk_of] in *. injection Hv as <-. done. }
  right. cbv zeta in *.
  destruct (val_of (dashboardassets.extractTarGz ctx a
                      (EnsureDashboardAssetsDir env) (with_root env d)))
    as [cause|] eqn:Hx; cbn [val_of disk_of] in *.
  { exists a, cause. split; [done|]. left. injection Hv as <-. done. }
  rewrite update_run in Hv. cbv zeta in Hv. cbn [val_of] in Hv.
  destruct (val_of (os.WriteFile (ReportAssetsVersionFilePath env)
                      (marker_bytes env) _)) as [cause|] eqn:Hw; [|done].
  exists a, cause. split; [done|]. right. injection Hv as <-. done.
Qed.

(** X4.  A run of [Ensure] that fails never leaves a marker for the
    current version: when no regular-file entry of the archive is
    placed on the marker file, the version gate still reports a
    mismatch on the disk a failed run leaves, so the next run installs
    again. *)
Theorem failed_Ensure_leaves_gate_closed env ctx d e :
  AppVersion_String env ≠ "" →
  (∀ a r h, staticFS env dashboardassets.embeddedAssetArchiveName = Some a →
     r ∈ tar_records a → tar.hdr r = Some h → tar.Typeflag h = tar.TypeReg →
     target_of (EnsureDashboardAssetsDir env) h
     ≠ resolve (ReportAssetsVersionFilePath env)) →
  val_of (dashboardassets.Ensure env ctx d) = Some e →
  val_of (dashboardassets.installedAsstesMatchAppVersion env
            (disk_of (dashboardassets.Ensure env ctx d))) = false.
Proof.
  intros Hv Harch. rewrite Ensure_run. cbv zeta.
  destruct (val_of (dashboardassets.installedAsstesMatchAppVersion env d)) eqn:Hg;
    [done|].
  cbn [val_of disk_of]. rewrite install_run.
  assert (Hroot : val_of (dashboardassets.installedAsstesMatchAppVersion env
                            (with_root env d)) = false).
  { destruct (with_root_evolves env d) as (us & Hev & Hus).
    eapply gate_stays_closed; [done|done| |done].
    eapply Forall_impl; [exact Hus|]. by intros u [Hn _] Hs. }
  destruct (staticFS env dashboardassets.embeddedAssetArchiveName) as [a|] eqn:Ha;
    [|done].
  cbv zeta.
  assert (Hx : val_of (dashboardassets.installedAsstesMatchAppVersion env
                 (disk_of (dashboardassets.extractTarGz ctx a
                             (EnsureDashboardAssetsDir env) (with_root env d))))
               = false).
  { rewrite extractTarGz_run. destruct (gzip_header_err a); [done|].
    cbv zeta. cbn [disk_of].
    destruct (loop_writes_only_targets ctx (EnsureDashboardAssetsDir env)
                (tar_records a) (with_root env d)) as (us & Hev & Hus).
    eapply gate_stays_closed; [done|done| |done].
    apply Hus. intros r h Hr Hh Hreg. by eapply Harch. }
  set (x := dashboardassets.extractTarGz ctx a (EnsureDashboardAssetsDir env)
              (with_root env d)) in *.
  destruct (val_of x); [done|]. cbn [val_of disk_of].
  rewrite update_run. cbv zeta. cbn [val_of disk_of].
  destruct (val_of (os.WriteFile (ReportAssetsVersionFilePath env)
                      (marker_bytes env) (disk_of x))) as [e0|] eqn:Hw; [|done].
  intros _.
  destruct (WriteFile_failed _ _ _ _ Hw) as [-> | [-> Hst]]; [done|].
  rewrite gate_run. unfold persisted_marker. rewrite Hst.
  by destruct (faulty _ OpRead _).
Qed.

(** X5.  A change of version is detected: after a run of [Ensure]
    that returned no error for a running version of ASCII characters,
    the version gate of a program with any other running version (and
    the same marker path) reports a mismatch. *)
Theorem other_version_is_detected env env' ctx d :
  all_ascii (AppVersion_String env) = true →
  ReportAssetsVersionFilePath env' = ReportAssetsVersionFilePath env →
  AppVersion_String env' ≠ AppVersion_String env →
  val_of (dashboardassets.Ensure env ctx d) = None →
  val_of (dashboardassets.installedAsstesMatchAppVersion env'
            (disk_of (dashboardassets.Ensure env ctx d))) = false.
Proof.
  intros Hv Hpath Hne Hok.
  assert (Hpm : ∀ d0, persisted_marker env' d0 = persisted_marker env d0).
  { intros d0. unfold persisted_marker. by rewrite Hpath. }
  rewrite gate_run, Hpm.
  destruct (Ensure_ok_cases env ctx d Hok)
    as [[Hg ->]|(Hg & a & Ha & Hx & Hm & _)].
  - apply gate_true_iff in Hg as [(m & -> & Hm)|[-> He]]; cbn [val_of].
    + apply String.eqb_neq. congruence.
    + apply String.eqb_neq. congruence.
  - cbv zeta in Hm. unfold persisted_marker. rewrite Hm.
    destruct (faulty _ OpRead _); [done|].
    unfold marker_bytes, dashboardassets.fields_of. cbn [Version].
    rewrite Unmarshal_Marshal_version by done. cbn [val_of].
    unfold dashboardassets.of_fields. cbn [Version].
    apply String.eqb_neq. congruence.
Qed.

(** X6.  [Ensure] keeps to its own: when the destination root exists
    and no entry name of the archive has a [..] element, a run, whatever
    its outcome, changes nothing outside the destination root and the
    marker path, and refuses nothing it did not refuse before. *)
Theorem Ensure_touches_only_its_own env ctx d :
  stat d (resolve (EnsureDashboardAssetsDir env)) = Found Dir →
  (∀ a r h, staticFS env dashboardassets.embeddedAssetArchiveName = Some a →
     r ∈ tar_records a → tar.hdr r = Some h →
     has_dotdot (tar.Name h) = false) →
  let r := dashboardassets.Ensure env ctx d in
  faults (disk_of r) = faults d
  ∧ ∀ q, ¬ resolve (EnsureDashboardAssetsDir env) `prefix_of` q →
         ¬ resolve (ReportAssetsVersionFilePath env) `prefix_of` q →
         stat (disk_of r) q = stat d q.
Proof.
  intros Hroot Hnames r. subst r. rewrite Ensure_run. cbv zeta.
  destruct (val_of (dashboardassets.installedAsstesMatchAppVersion env d));
    [done|].
  cbn [disk_of]. split; [apply install_faults|]. intros q Hq Hm.
  rewrite install_run, (with_root_there env d Hroot).
  destruct (staticFS env dashboardassets.embeddedAssetArchiveName) as [a|] eqn:Ha;
    [|done].
  cbv zeta.
  assert (Hx : stat (disk_of (dashboardassets.extractTarGz ctx a
                                (EnsureDashboardAssetsDir env) d)) q = stat d q).
  { rewrite extractTarGz_run. destruct (gzip_header_err a); [done|].
    cbv zeta. cbn [disk_of].
    destruct (loop_evolves ctx (EnsureDashboardAssetsDir env) (tar_records a) d)
      as (us & Hev & _ & Hbase & _).
    apply (evolves_frame d us _ (resolve (EnsureDashboardAssetsDir env)));
      [done| |done].
    apply Hbase; [done|].
    intros r h Hr Hh. unfold target_of.
    rewrite resolve_Join_inside.
    - by apply prefix_app_r.
    - apply no_dotdot_elems. by apply (Hnames a r h). }
  set (x := dashboardassets.extractTarGz ctx a (EnsureDashboardAssetsDir env) d)
    in *.
  destruct (val_of x); [done|]. cbn [disk_of].
  rewrite update_run. cbv zeta. cbn [disk_of].
  destruct (WriteFile_evolves (ReportAssetsVersionFilePath env) (marker_bytes env)
              (disk_of x)) as (us & Hev & Hus & _).
  rewrite <- Hx.
  apply (evolves_frame (disk_of x) us _ (resolve (ReportAssetsVersionFilePath env)));
    [done| |done].
  eapply Forall_impl; [exact Hus|]. by intros u ->.
Qed.

(** X7.  The archive missing from the embedded files: on a mismatch
    [Ensure] returns the open error wrapped with its stage message,
    having started no extraction; the destination root has been made
    by then, and nothing else has changed: what was on the disk is
    still there, and a disk on which the root was there is as it
    was. *)
Theorem Ensure_archive_missing env ctx d :
  val_of (dashboardassets.installedAsstesMatchAppVersion env d) = false →
  staticFS env dashboardassets.embeddedAssetArchiveName = None →
  dashboardassets.Ensure env ctx d
  = mkRun (with_root env d)
      ([EvLogTime "dashboardassets.Ensure start"]
         ++ log_of (dashboardassets.installedAsstesMatchAppVersion env d)
         ++ [EvMkdirAll (EnsureDashboardAssetsDir env);
             EvOpenEmbedded dashboardassets.embeddedAssetArchiveName;
             EvLogTime "dashboardassets.Ensure end"])
      (Some (sperr_WrapWithMessage
               (fs_ErrNotExist dashboardassets.embeddedAssetArchiveName)
               "could not open embedded dashboard assets archive"))
  ∧ (∀ q n, stat d q = Found n → stat (with_root env d) q = Found n)
  ∧ (∀ q, ¬ q `prefix_of` resolve (EnsureDashboardAssetsDir env) →
          stat (with_root env d) q = stat d q)
  ∧ (stat d (resolve (EnsureDashboardAssetsDir env)) = Found Dir →
     with_root env d = d).
Proof.
  intros Hg Ha. split_and!.
  - rewrite Ensure_miss by done. cbv zeta. by rewrite install_run, Ha.
  - intros q n. apply with_root_keeps.
  - apply with_root_frame.
  - apply with_root_there.
Qed.

(** X8.  A gzip header that is refused: [extractTarGz] returns the
    error of [gzip.NewReader] between its two log lines without
    reading any record and without touching the disk, and [Ensure]
    returns it wrapped with the stage message; the disk is left as the
    making of the destination root left it and the marker is not
    written. *)
Theorem Ensure_gzip_header_error env ctx d a e :
  val_of (dashboardassets.installedAsstesMatchAppVersion env d) = false →
  staticFS env dashboardassets.embeddedAssetArchiveName = Some a →
  gzip_header_err a = Some e →
  (∀ dest d0,
     dashboardassets.extractTarGz ctx a dest d0
     = mkRun d0 [EvLog Info "dashboardassets.extractTarGz start";
                 EvLog Info "dashboardassets.extractTarGz end"] (Some e))
  ∧ dashboardassets.Ensure env ctx d
    = mkRun (with_root env d)
        ([EvLogTime "dashboardassets.Ensure start"]
           ++ log_of (dashboardassets.installedAsstesMatchAppVersion env d)
           ++ [EvMkdirAll (EnsureDashboardAssetsDir env);
               EvOpenEmbedded dashboardassets.embeddedAssetArchiveName;
               EvLog Info "dashboardassets.extractTarGz start";
               EvLog Info "dashboardassets.extractTarGz end";
               EvLogTime "dashboardassets.Ensure end"])
        (Some (sperr_WrapWithMessage e
                 "could not extract embedded dashboard assets archive"))
  ∧ (∀ q, ¬ q `prefix_of` resolve (EnsureDashboardAssetsDir env) →
          stat (with_root env d) q = stat d q).
Proof.
  intros Hg Ha Hz. split_and!.
  - intros dest d0. by rewrite extractTarGz_run, Hz.
  - rewrite Ensure_miss by done. cbv zeta.
    by rewrite install_run, Ha, extractTarGz_run, Hz.
  - apply with_root_frame.
Qed.

(** X9.  A marker that cannot be written after a successful
    extraction (on the disk with the destination root ensured):
    [Ensure] returns the error of [os.WriteFile] wrapped twice (by
    [updateAssetVersionFile], then by [Ensure]); the extracted tree is
    not reverted: every location outside the marker path is as
    extraction left it. *)
Theorem marker_write_failure env ctx d a e :
  val_of (dashboardassets.installedAsstesMatchAppVersion env d) = false →
  staticFS env dashboardassets.embeddedAssetArchiveName = Some a →
  let x := dashboardassets.extractTarGz ctx a (EnsureDashboardAssetsDir env)
             (with_root env d) in
  val_of x = None →
  val_of (os.WriteFile (ReportAssetsVersionFilePath env) (marker_bytes env)
            (disk_of x)) = Some e →
  let r := dashboardassets.Ensure env ctx d in
  val_of r
  = Some (sperr_WrapWithMessage
            (sperr_WrapWithMessage e
               "could not write dashboard assets version file")
            "could not update dashboard assets version file")
  ∧ (∀ q, ¬ resolve (ReportAssetsVersionFilePath env) `prefix_of` q →
          stat (disk_of r) q = stat (disk_of x) q).
Proof.
  intros Hg Ha x Hx Hw r. subst r.
  rewrite Ensure_miss by done. cbv zeta. cbn [val_of disk_of].
  rewrite install_run, Ha. cbv zeta. fold x. rewrite Hx.
  cbn [val_of disk_of]. rewrite update_run. cbv zeta. cbn [val_of disk_of].
  rewrite Hw. split; [done|]. intros q Hq.
  destruct (WriteFile_evolves (ReportAssetsVersionFilePath env) (marker_bytes env)
              (disk_of x)) as (us & Hev & Hus & _).
  eapply evolves_frame; [done| |done].
  eapply Forall_impl; [exact Hus|]. by intros u ->.
Qed.

(** X31.  The destination root after a run: when the version gate
    reports a mismatch and the root can be ensured, the root is a
    directory on the disk [Ensure] leaves, whether the run then
    succeeds or fails: nothing that follows removes a directory or
    puts a file in its place. *)
Theorem Ensure_leaves_root env ctx d :
  val_of (dashboardassets.installedAsstesMatchAppVersion env d) = false →
  val_of (os.MkdirAll (EnsureDashboardAssetsDir env) d) = None →
  stat (with_root env d) (resolve (EnsureDashboardAssetsDir env)) = Found Dir
  ∧ stat (disk_of (dashboardassets.Ensure env ctx d))
         (resolve (EnsureDashboardAssetsDir env)) = Found Dir.
Proof.
  intros Hg Hmk.
  assert (Hroot : stat (with_root env d) (resolve (EnsureDashboardAssetsDir env))
                  = Found Dir).
  { unfold with_root. rewrite EnsureDashboardAssetsDir_run. cbn [disk_of].
    rewrite MkdirAll_run in Hmk. cbn [val_of] in Hmk.
    destruct (mkdir_all_evolves (rev (resolve (EnsureDashboardAssetsDir env))) d)
      as (_ & _ & _ & _ & Hok).
    rewrite rev_involutive in Hok. apply Hok.
    by destruct (os.mkdir_all _ d).2. }
  split; [done|].
  rewrite Ensure_miss by done. cbv zeta. cbn [disk_of].
  rewrite install_run.
  destruct (staticFS env dashboardassets.embeddedAssetArchiveName) as [a|];
    [|done].
  cbv zeta.
  destruct (extractTarGz_evolves ctx a (EnsureDashboardAssetsDir env)
              (with_root env d)) as [us Hev].
  pose proof (evolves_dir _ _ _ _ Hev Hroot) as Hx.
  destruct (val_of (dashboardassets.extractTarGz ctx a _ (with_root env d)));
    [done|].
  cbn [disk_of]. rewrite update_run. cbv zeta. cbn [disk_of].
  destruct (WriteFile_evolves (ReportAssetsVersionFilePath env) (marker_bytes env)
              (disk_of (dashboardassets.extractTarGz ctx a
                          (EnsureDashboardAssetsDir env) (with_root env d))))
    as (us' & Hev' & _).
  by eapply evolves_dir.
Qed.

(** ** The version gate and the marker *)

(** X11.  When the version gate lets [Ensure] return at once: exactly
    when the marker file decodes to a marker whose version is, byte
    for byte, the running version, or when there is no marker file and
    the running version is the empty string. *)
Theorem version_gate_exact env d :
  val_of (dashboardassets.installedAsstesMatchAppVersion env d) = true
  ↔ (∃ m, persisted_marker env d = MarkerPresent m
          ∧ Version m = AppVersion_String env)
    ∨ (persisted_marker env d = MarkerAbsent ∧ AppVersion_String env = "").
Proof. apply gate_true_iff. Qed.

(** X12.  The version gate only reads: [loadReportAssetVersionFile]
    and [installedAsstesMatchAppVersion] leave the disk as it is, and
    all they do is look the marker file up, read it when it exists and
    log the decoding error when it does not decode. *)
Theorem version_gate_only_reads env d :
  disk_of (dashboardassets.loadReportAssetVersionFile env d) = d
  ∧ disk_of (dashboardassets.installedAsstesMatchAppVersion env d) = d
  ∧ log_of (dashboardassets.installedAsstesMatchAppVersion env d)
    = log_of (dashboardassets.loadReportAssetVersionFile env d)
  ∧ (log_of (dashboardassets.installedAsstesMatchAppVersion env d)
       = [EvStat (ReportAssetsVersionFilePath env)]
     ∨ log_of (dashboardassets.installedAsstesMatchAppVersion env d)
       = gate_log_hit env
     ∨ log_of (dashboardassets.installedAsstesMatchAppVersion env d)
       = gate_log_corrupt env).
Proof.
  split_and!; [apply load_disk|apply gate_disk| |];
    rewrite ?gate_run, ?load_run; destruct (persisted_marker env d); eauto.
Qed.

(** X13.  The bytes of the marker file: after a successful
    [updateAssetVersionFile] for a version of printable ASCII
    characters other than the quote, the backslash, [<], [>] and [&],
    the marker file holds exactly [{"version":"<version>"}], whatever
    it held before. *)
Theorem marker_file_bytes env d :
  plain (AppVersion_String env) = true →
  val_of (dashboardassets.updateAssetVersionFile env d) = None →
  stat (disk_of (dashboardassets.updateAssetVersionFile env d))
       (resolve (ReportAssetsVersionFilePath env))
  = Found (File ("{" ++ String json.quote ("version" ++ String json.quote
             (":" ++ String json.quote
                (AppVersion_String env ++ String json.quote "}"))))).
Proof.
  intros Hp Hv. rewrite (update_ok env d Hv).
  unfold marker_bytes, dashboardassets.fields_of. cbn [Version].
  by rewrite Marshal_version, escaped_plain.
Qed.

(** ** [extractTarGz] *)

(** X14.  The calls of a successful extraction: between the two log
    lines, [extractTarGz] makes, for each record before the end of the
    archive and in the order of the archive, one [MkdirAll] for a
    directory entry and, for a regular-file entry, the status message
    [Extracting <name>...] followed by [Create] and the copy of the
    body; it makes no other call. *)
Theorem extraction_trace ctx a dest d :
  let x := dashboardassets.extractTarGz ctx a dest d in
  val_of x = None →
  log_of x
  = [EvLog Info "dashboardassets.extractTarGz start"]
      ++ flat_map (entry_calls dest) (before_end (tar_records a))
      ++ [EvLog Info "dashboardassets.extractTarGz end"].
Proof. cbv zeta. apply extraction_trace_loop. Qed.

(** X15.  What a successful extraction leaves at the target of every
    entry it reached: a directory for a directory entry; for a
    regular-file entry a regular file, holding the body of the entry
    unless a later regular-file entry has the same target. *)
Theorem extraction_places_entries ctx a dest d l1 rc l2 h :
  let x := dashboardassets.extractTarGz ctx a dest d in
  val_of x = None →
  before_end (tar_records a) = l1 ++ rc :: l2 →
  tar.hdr rc = Some h →
  (tar.Typeflag h = tar.TypeDir →
     stat (disk_of x) (target_of dest h) = Found Dir)
  ∧ (tar.Typeflag h = tar.TypeReg →
       (∃ c, stat (disk_of x) (target_of dest h) = Found (File c))
       ∧ ((∀ r' h', r' ∈ l2 → tar.hdr r' = Some h' →
             tar.Typeflag h' = tar.TypeReg →
             target_of dest h' ≠ target_of dest h) →
          stat (disk_of x) (target_of dest h) = Found (File (tar.body rc)))).
Proof.
  cbv zeta. rewrite extractTarGz_run.
  destruct (gzip_header_err a) as [e|]; [done|]. cbv zeta.
  cbn [val_of disk_of]. rewrite loop_before_end. intros Hv Hrec Hh.
  pose proof (before_end_all (tar_records a)) as Hall.
  rewrite Hrec in Hv, Hall |- *.
  apply Forall_app in Hall as [Hl1 Hrest].
  inversion Hrest as [|? ? Hrc Hl2]; subst.
  destruct (loop_app_ok ctx dest l1 (rc :: l2) d Hl1 Hv) as (_ & -> & Hv2).
  destruct (loop_cons_ok ctx dest rc l2 _ h Hrc Hh Hv2) as (Hent & -> & _).
  set (d1 := disk_of (dashboardassets.extract_loop ctx l1 dest d)) in *.
  destruct (entry_evolves ctx dest h rc d1) as (_ & _ & _ & _ & Hfile & Hdir & _).
  set (d2 := disk_of (extract_entry ctx dest h rc d1)) in *.
  destruct (loop_evolves ctx dest l2 d2) as (us & Hev & _).
  split.
  - intros Hd. eapply evolves_dir; [done|]. by apply Hdir.
  - intros Hr. split.
    + eapply evolves_file; [done|]. by apply Hfile.
    + intros Hfresh. apply loop_keeps; [by apply Hfile|done].
Qed.

(** X16.  Extraction can be repeated: when [extractTarGz] has
    succeeded, running it again on the disk it left succeeds too and
    leaves every location as it was, with the same bytes in every
    file. *)
Theorem extraction_idempotent ctx a dest d :
  let x1 := dashboardassets.extractTarGz ctx a dest d in
  let x2 := dashboardassets.extractTarGz ctx a dest (disk_of x1) in
  val_of x1 = None →
  val_of x2 = None
  ∧ faults (disk_of x2) = faults (disk_of x1)
  ∧ ∀ q, stat (disk_of x2) q = stat (disk_of x1) q.
Proof.
  cbv zeta. rewrite !extractTarGz_run.
  destruct (gzip_header_err a) as [e|]; [done|]. cbv zeta.
  cbn [val_of disk_of].
  rewrite (loop_before_end ctx dest (tar_records a) d).
  rewrite (loop_before_end ctx dest (tar_records a)
             (disk_of (dashboardassets.extract_loop ctx
                         (before_end (tar_records a)) dest d))).
  set (l := before_end (tar_records a)). intros Hv.
  destruct (loop_evolves ctx dest l d) as (us & Hev & _).
  apply (loop_again ctx dest l (before_end_all _) d); [done| |by left].
  by eapply evolves_faults.
Qed.

(** X17.  Where an error of [extractTarGz] comes from: it is the
    error of [gzip.NewReader], or, for one record of the archive, the
    reader's error on its header or on its body, the error of the
    [MkdirAll], of the [Create] or of the write made for it, or the
    explicit error for its type; [extractTarGz] returns it as it is,
    without wrapping. *)
Theorem extraction_errors ctx a dest d e :
  val_of (dashboardassets.extractTarGz ctx a dest d) = Some e →
  gzip_header_err a = Some e
  ∨ (gzip_header_err a = None
     ∧ ∃ r, r ∈ tar_records a ∧ entry_error dest r e).
Proof.
  rewrite extractTarGz_run. destruct (gzip_header_err a) as [e0|].
  - cbn [val_of]. intros [= <-]. by left.
  - cbv zeta. cbn [val_of]. intros Hv. right. split; [done|].
    by eapply loop_error.
Qed.

(** X18.  An error of the tar reader in the middle of the archive: the
    entries before it are extracted, [extractTarGz] returns the
    reader's error as it is, and no later entry is looked at. *)
Theorem stream_error_aborts ctx a dest d pre bad post e :
  gzip_header_err a = None →
  tar_records a = pre ++ bad :: post →
  Forall (λ r, ends_stream r = false) pre →
  tar.err bad = Some e → is_EOF e = false →
  let x := dashboardassets.extract_loop ctx pre dest d in
  val_of x = None →
  dashboardassets.extractTarGz ctx a dest d
  = mkRun (disk_of x)
      ([EvLog Info "dashboardassets.extractTarGz start"] ++ log_of x
         ++ [EvLog Info "dashboardassets.extractTarGz end"])
      (Some e).
Proof.
  intros Hz Hrec Hpre Herr Heof x Hx. rewrite extractTarGz_run, Hz, Hrec.
  cbv zeta. rewrite loop_app by done. cbv zeta. fold x. rewrite Hx.
  unfold then_run. rewrite extract_loop_cons, Herr, Heof.
  cbn [val_of disk_of log_of]. by rewrite app_nil_r.
Qed.

(** X19.  When a regular-file entry goes through, on a disk that
    refuses nothing: exactly when the directory of its target exists,
    the target is not a directory and the body is read to its end. *)
Theorem file_entry_succeeds_iff ctx dest d r h :
  faults d = ∅ →
  tar.err r = None → tar.hdr r = Some h → tar.Typeflag h = tar.TypeReg →
  val_of (dashboardassets.extract_loop ctx [r] dest d) = None
  ↔ stat d (parent (target_of dest h)) = Found Dir
    ∧ stat d (target_of dest h) ≠ Found Dir
    ∧ tar.body_err r = None.
Proof.
  intros Hf Herr Hh Hreg.
  assert (Hloop : val_of (dashboardassets.extract_loop ctx [r] dest d)
                  = val_of (extract_entry ctx dest h r d)).
  { rewrite extract_loop_cons, Herr, Hh. cbv zeta.
    by destruct (val_of (extract_entry ctx dest h r d)) eqn:Hx; [rewrite Hx|]. }
  rewrite Hloop, entry_reg_run by done. cbv zeta.
  set (T := target_of dest h). split.
  - destruct (open_trunc_cases T d) as [(-> & Hp & Hnd & Hpar)|[e ->]]; [|done].
    destruct (String.eqb (tar.body r) ""); cbn [val_of]; [done|].
    by destruct ((os.write T (tar.body r) (put d T (TFile ""))).2).
  - intros (Hpar & Hnd & Hbe).
    assert (Hne : T ≠ []).
    { intros HT. rewrite HT in Hnd. by rewrite stat_root in Hnd. }
    rewrite (open_trunc_ok d T) by (done || by apply faulty_no_faults).
    destruct (String.eqb (tar.body r) ""); cbn [val_of]; [done|].
    rewrite write_ok; [done|]. rewrite faulty_put. by apply faulty_no_faults.
Qed.

(** X20.  A regular-file entry whose directory does not exist:
    [os.Create] makes no directory, so the status message is shown, the
    open fails with the error of the missing directory, nothing is
    created and the loop stops. *)
Theorem file_entry_needs_directory ctx dest d r h post e :
  tar.err r = None → tar.hdr r = Some h → tar.Typeflag h = tar.TypeReg →
  stat d (parent (target_of dest h)) = Missing e →
  dashboardassets.extract_loop ctx (r :: post) dest d
  = mkRun d
      [EvStatus ("Extracting " ++ tar.Name h ++ dashboardassets.ellipsis);
       EvCreate (filepath.Join dest (tar.Name h))]
      (Some (PathError "open" (target_of dest h) e)).
Proof.
  intros Herr Hh Hreg Hpar. rewrite extract_loop_cons, Herr, Hh. cbv zeta.
  rewrite entry_reg_run by done. cbv zeta.
  set (T := target_of dest h) in *.
  assert (HT : stat d T = Missing e).
  { destruct (decide (T = [])) as [HT|HT].
    - rewrite HT in Hpar. by rewrite stat_root in Hpar.
    - destruct (parent_prefix T HT) as [c Hc]. rewrite Hc.
      by apply tlookup_missing_app. }
  assert (Hopen : os.open_trunc T d = (d, Some e)).
  { unfold os.open_trunc. rewrite HT. destruct e; try done. by rewrite Hpar. }
  by rewrite Hopen.
Qed.

(** X21.  An entry placed on a node of the other kind: a regular-file
    entry on an existing directory fails with [EISDIR], a directory
    entry on an existing regular file fails with [ENOTDIR]; either way
    the disk is left as it is and the loop stops. *)
Theorem entry_kind_collision ctx dest d r h post :
  tar.err r = None → tar.hdr r = Some h →
  (tar.Typeflag h = tar.TypeReg →
     stat d (target_of dest h) = Found Dir →
     dashboardassets.extract_loop ctx (r :: post) dest d
     = mkRun d
         [EvStatus ("Extracting " ++ tar.Name h ++ dashboardassets.ellipsis);
          EvCreate (filepath.Join dest (tar.Name h))]
         (Some (PathError "open" (target_of dest h) EISDIR)))
  ∧ (tar.Typeflag h = tar.TypeDir →
     ∀ c, stat d (target_of dest h) = Found (File c) →
     dashboardassets.extract_loop ctx (r :: post) dest d
     = mkRun d [EvMkdirAll (filepath.Join dest (tar.Name h))]
         (Some (PathError "mkdir" (target_of dest h) ENOTDIR))).
Proof.
  intros Herr Hh. split.
  - intros Hreg HT. rewrite extract_loop_cons, Herr, Hh. cbv zeta.
    rewrite entry_reg_run by done. cbv zeta.
    unfold os.open_trunc. by rewrite HT.
  - intros Hdir c HT. rewrite extract_loop_cons, Herr, Hh. cbv zeta.
    rewrite entry_dir_run by done.
    by rewrite mkdir_all_unfold, rev_involutive, HT.
Qed.

(** X22.  A body that breaks off: the bytes read before the stream
    broke are written, the loop stops with the reader's error, and the
    partial file is left where it is. *)
Theorem truncated_body_leaves_partial_file ctx dest d r h post e :
  tar.err r = None → tar.hdr r = Some h → tar.Typeflag h = tar.TypeReg →
  tar.body_err r = Some e →
  stat d (parent (target_of dest h)) = Found Dir →
  stat d (target_of dest h) ≠ Found Dir →
  faulty d OpOpenWrite (target_of dest h) = false →
  faulty d OpWrite (target_of dest h) = false →
  let x := dashboardassets.extract_loop ctx (r :: post) dest d in
  val_of x = Some e
  ∧ stat (disk_of x) (target_of dest h) = Found (File (tar.body r)).
Proof.
  intros Herr Hh Hreg Hbe Hpar HT Hfo Hfw. cbv zeta.
  rewrite extract_loop_cons, Herr, Hh. cbv zeta.
  rewrite entry_reg_run by done. cbv zeta.
  set (T := target_of dest h) in *.
  assert (Hne : T ≠ []) by (intros HT0; rewrite HT0 in HT; by rewrite stat_root in HT).
  rewrite (open_trunc_ok d T) by done.
  assert (H0 : stat (put d T (TFile "")) T = Found (File ""))
    by by rewrite stat_put_self.
  destruct (String.eqb_spec (tar.body r) "") as [Hb|Hb].
  { cbn [val_of disk_of]. by rewrite Hbe, Hb. }
  rewrite write_ok by by rewrite faulty_put.
  cbn [fst snd val_of disk_of]. rewrite Hbe. split; [done|].
  by eapply stat_put_file_self.
Qed.

(** X23.  A write that is refused on an existing file: [os.Create]
    has already truncated the file, so the old bytes are gone, the file
    is left empty and the loop stops with the write error. *)
Theorem failed_write_leaves_empty_file ctx dest d r h post old :
  tar.err r = None → tar.hdr r = Some h → tar.Typeflag h = tar.TypeReg →
  tar.body r ≠ "" →
  stat d (target_of dest h) = Found (File old) →
  faulty d OpOpenWrite (target_of dest h) = false →
  faulty d OpWrite (target_of dest h) = true →
  let x := dashboardassets.extract_loop ctx (r :: post) dest d in
  val_of x = Some (PathError "write" (target_of dest h) EIO)
  ∧ stat (disk_of x) (target_of dest h) = Found (File "").
Proof.
  intros Herr Hh Hreg Hb HT Hfo Hfw. cbv zeta.
  rewrite extract_loop_cons, Herr, Hh. cbv zeta.
  rewrite entry_reg_run by done. cbv zeta.
  set (T := target_of dest h) in *.
  rewrite (open_trunc_file T d old) by done.
  apply String.eqb_neq in Hb. rewrite Hb.
  unfold os.write. rewrite faulty_put, Hfw. cbn [fst snd val_of disk_of].
  split; [done|]. by eapply stat_put_file_self.
Qed.

(** X24.  The type flag in the message of the unsupported-entry error
    is the binary numeral of the flag's byte: reading the numeral back
    gives the byte, so entries of different types give different
    messages. *)
Theorem type_flag_in_binary c1 c2 :
  bits_value (fmt.b c1) = N_of_ascii c1
  ∧ (fmt.b c1 = fmt.b c2 → c1 = c2).
Proof.
  assert (Hback : ∀ c, bits_value (fmt.b c) = N_of_ascii c).
  { clear. intros [b0 b1 b2 b3 b4 b5 b6 b7].
    destruct b0, b1, b2, b3, b4, b5, b6, b7; reflexivity. }
  split; [apply Hback|]. intros Heq.
  apply (f_equal bits_value) in Heq. rewrite !Hback in Heq.
  rewrite <- (ascii_N_embedding c1), <- (ascii_N_embedding c2). by rewrite Heq.
Qed.

(** ** The library calls: [os.MkdirAll], [filepath.Clean] *)

(** X25.  [os.MkdirAll] of a clean, non-empty path (as every target
    built by [filepath.Join] is) on a disk that refuses nothing: it
    succeeds exactly when no regular file lies on the path; after a
    success the path and all its ancestors are directories; and,
    success or not, every node that existed is still there
    unchanged. *)
Theorem MkdirAll_no_file_on_path name d :
  name ≠ "" →
  filepath.Clean name = name →
  faults d = ∅ →
  let x := os.MkdirAll name d in
  (val_of x = None
   ↔ ∀ q c, q `prefix_of` resolve name → stat d q ≠ Found (File c))
  ∧ (val_of x = None →
     ∀ q, q `prefix_of` resolve name → stat (disk_of x) q = Found Dir)
  ∧ (∀ q n, stat d q = Found n → stat (disk_of x) q = Found n).
Proof.
  intros _ _ Hf. cbv zeta. rewrite MkdirAll_run. cbn [val_of disk_of].
  pose proof (mkdir_all_iff (rev (resolve name)) d) as Hiff.
  rewrite rev_involutive in Hiff.
  destruct (mkdir_all_evolves (rev (resolve name)) d) as (us & Hev & _ & _ & Hok).
  rewrite rev_involutive in Hok.
  assert (Hval : (os.mkdir_all (rev (resolve name)) d).2 = None ↔
            match (os.mkdir_all (rev (resolve name)) d).2 with
            | Some e => Some (PathError "mkdir" (resolve name) e)
            | None => None
            end = None).
  { by destruct ((os.mkdir_all (rev (resolve name)) d).2). }
  split_and!.
  - rewrite <- Hval. apply Hiff. intros q _. by apply faulty_no_faults.
  - intros Hv q Hq. apply Hval in Hv. specialize (Hok Hv).
    destruct (decide (q = resolve name)) as [->|Hne]; [done|].
    by eapply stat_found_prefix.
  - intros q n Hq. by apply mkdir_all_keeps.
Qed.

Section CleanFacts.

Import filepath.

Lemma walk_dotdots_free k n :
  walk false (WS k []) (repeat ".." n) = WS (k + n) [].
Proof.
  revert k. induction n as [|n IH]; intros k; simpl repeat.
  - by rewrite Nat.add_0_r.
  - rewrite walk_cons. change (step false (WS k []) "..") with (WS (S k) []).
    rewrite IH. f_equal. lia.
Qed.

Lemma clean_elem_real c : clean_elem c → real c = true.
Proof. by intros [? ?]. Qed.

Lemma is_rooted_join x l :
  x ≠ "" → noslash x = true → is_rooted (join (x :: l)) = false
                               ∧ join (x :: l) ≠ "".
Proof.
  intros Hx Hn. destruct x as [|c x]; [done|].
  simpl in Hn. apply andb_prop in Hn as [Hc _].
  apply negb_true_iff in Hc.
  destruct l as [|y l]; simpl; by rewrite ?Hc.
Qed.

(** X26.  [filepath.Clean] is idempotent, and what [filepath.Join]
    returns is clean: cleaning it again changes nothing. *)
Theorem Clean_idempotent p a b :
  Clean (Clean p) = Clean p
  ∧ (Join a b ≠ "" → Clean (Join a b) = Join a b).
Proof.
  assert (Hidem : ∀ s, Clean (Clean s) = Clean s).
  { clear. intros s. unfold Clean at 2 3.
    destruct (String.eqb_spec s "") as [->|Hs]; [done|].
    set (w := walk (is_rooted s) (WS 0 []) (split s)).
    assert (Hclean : Forall clean_elem (elems w)).
    { apply walk_clean; [apply split_all_noslash|constructor]. }
    assert (Hrev : Forall clean_elem (rev (elems w))) by by apply Forall_rev.
    destruct (is_rooted s) eqn:Hroot.
    - assert (Hup : up w = 0) by (unfold w; by rewrite up_walk_rooted).
      unfold output. rewrite Hup. simpl repeat. rewrite app_nil_l.
      set (l := rev (elems w)) in *.
      unfold Clean.
      change (String.eqb (String Separator (join l)) "") with false.
      change (is_rooted (String Separator (join l))) with true.
      cbv iota.
      change (split (String Separator (join l))) with ("" :: split (join l)).
      rewrite walk_cons.
      change (step true (WS 0 []) "") with (WS 0 []).
      pose proof (resolve_join_clean 0 l Hrev) as Hel. simpl repeat in Hel.
      rewrite app_nil_l in Hel.
      unfold output. rewrite up_walk_rooted, Hel. simpl repeat.
      by rewrite app_nil_l, rev_involutive.
    - destruct (output w) as [|x xs] eqn:Hout; [done|].
      assert (Hall : Forall (λ c, c ≠ "" ∧ noslash c = true) (x :: xs)).
      { rewrite <- Hout. unfold output. apply Forall_app. split.
        - apply Forall_forall. intros y Hy. apply list_elem_of_In in Hy.
          apply repeat_spec in Hy. by subst.
        - eapply Forall_impl; [exact Hrev|]. intros c [Hr Hn]. split; [|done].
          intros ->. done. }
      inversion Hall as [|? ? [Hx Hnx] Hxs]; subst.
      destruct (is_rooted_join x xs Hx Hnx) as [Hnr Hne].
      unfold Clean. apply String.eqb_neq in Hne. rewrite Hne, Hnr.
      rewrite split_join; [|done|].
      2:{ eapply Forall_impl; [exact Hall|]. by intros ? [? ?]. }
      assert (Hwalk : walk false (WS 0 []) (x :: xs) = w).
      { rewrite <- Hout. unfold output.
        rewrite walk_app, walk_dotdots_free, walk_real.
        2:{ eapply Forall_impl; [exact Hrev|]. apply clean_elem_real. }
        rewrite app_nil_r, rev_involutive. by destruct w. }
      rewrite Hwalk.
      change (repeat ".." (up w) ++ rev (elems w)) with (output w).
      by rewrite Hout. }
  split; [apply Hidem|]. unfold Join.
  destruct (String.eqb a ""); simpl.
  - destruct (String.eqb b ""); simpl; [done|]. intros _. apply Hidem.
  - intros _. apply Hidem.
Qed.

End CleanFacts.

(** ** Package cmd *)

Section CmdFacts.

Context (viper_GetBool : string → bool) (ArgDryRun : string).
Context (Pluralize : string → Z → string).
Context {DependencyVersionMap ResolvedVersionConstraint Tree : Type}.
Context (FlatMap : DependencyVersionMap → gmap string ResolvedVersionConstraint).
Context (GetDependencyTree : DependencyVersionMap → string → Tree).
Context (Tree_String : Tree → string).

(** X28.  [buildInstallSummary]: the summary is [All mods are up to
    date] exactly when the flattened map of installed mods is empty;
    otherwise it is the line [<verb> <count> <mod or mods>:] between
    newlines, followed by the dependency tree.  A nil response, or a
    response whose [Installed] is nil, makes the call panic. *)
Theorem buildInstallSummary_up_to_date data installed :
  cmd.Installed data = Some installed →
  let summary :=
    cmd.buildInstallSummary viper_GetBool ArgDryRun Pluralize FlatMap
      GetDependencyTree Tree_String in
  let n := Z.of_nat (size (FlatMap installed)) in
  (summary (Some data) = Returns "All mods are up to date"
   ↔ FlatMap installed = ∅)
  ∧ (FlatMap installed ≠ ∅ →
     summary (Some data)
     = Returns (cmd.newline ++ cmd.getVerb viper_GetBool ArgDryRun cmd.VerbInstalled
                  ++ " " ++ cmd.fmt_d n ++ " " ++ Pluralize "mod" n ++ ":"
                  ++ cmd.newline ++ cmd.newline
                  ++ Tree_String (GetDependencyTree installed
                                    (cmd.ModDependencyPath data))
                  ++ cmd.newline)%string)
  ∧ summary None = Panics
  ∧ (∀ p, summary (Some (cmd.mkInstallModResponse None p)) = Panics).
Proof.
  intros Hi summary n. subst summary.
  unfold cmd.buildInstallSummary, cmd.getInstallationResultString.
  rewrite Hi. cbv zeta. fold n.
  destruct (decide (FlatMap installed = ∅)) as [He|He].
  - assert (Hn : n = 0%Z) by (subst n; by rewrite He, map_size_empty).
    rewrite Hn. cbn [Z.ltb Z.eqb Z.compare]. split_and!; done.
  - assert (Hn : (0 < n)%Z).
    { subst n. apply map_size_non_empty_iff in He. lia. }
    assert (Hlt : (0 <? n)%Z = true) by by apply Z.ltb_lt.
    assert (Hne : (n =? 0)%Z = false) by (apply Z.eqb_neq; lia).
    rewrite Hlt, Hne. by split_and!.
Qed.

End CmdFacts.

(** ** The marker read back, and where entries are placed *)

(** X29.  What is read back of the marker: after a successful
    [updateAssetVersionFile], when the marker file can be read,
    [loadReportAssetVersionFile] returns the running version with every
    byte that does not begin a well-formed UTF-8 rune replaced by
    U+FFFD, and the version gate reports a match exactly when the
    running version is valid UTF-8. *)
Theorem marker_read_back env d :
  val_of (dashboardassets.updateAssetVersionFile env d) = None →
  faulty d OpRead (resolve (ReportAssetsVersionFilePath env)) = false →
  let d' := disk_of (dashboardassets.updateAssetVersionFile env d) in
  val_of (dashboardassets.loadReportAssetVersionFile env d')
  = inl (mkVersionFile (sanitized (AppVersion_String env)))
  ∧ (val_of (dashboardassets.installedAsstesMatchAppVersion env d') = true
     ↔ ValidString (AppVersion_String env) = true).
Proof.
  intros Hok Hf d'.
  assert (Hpm : persisted_marker env d'
                = MarkerPresent (mkVersionFile (sanitized (AppVersion_String env)))).
  { unfold persisted_marker. subst d'. rewrite (update_ok env d Hok).
    unfold faulty in *. rewrite update_faults, Hf.
    unfold marker_bytes, dashboardassets.fields_of. cbn [Version].
    by rewrite Unmarshal_Marshal_any. }
  rewrite load_run, gate_run, Hpm. cbn [val_of Version]. split; [done|].
  rewrite String.eqb_eq. apply sanitized_valid.
Qed.

(** X30.  Where an entry is placed: for a name without [..] element
    the target is the destination root followed by the elements of the
    name, empty and [.] elements left out.  A leading slash, doubled or
    trailing slashes and [./] make no difference: an absolute name is
    placed under the destination root. *)
Theorem entry_target dest h :
  has_dotdot (tar.Name h) = false →
  target_of dest h
  = resolve dest ++ List.filter real (filepath.split (tar.Name h)).
Proof.
  intros Hn. unfold target_of.
  by rewrite resolve_Join_inside by by apply no_dotdot_elems.
Qed.

(** ** The further properties at sample inputs *)

Lemma Ensure_success_witness :
  let r := dashboardassets.Ensure (sample_env sample_archive) ctx_Background
             bare_disk in
  stat bare_disk ["opt"; "assets"] = Missing ENOENT
  ∧ val_of r = None
  ∧ stat (disk_of r) ["opt"; "assets"; "versions.json"]
    = Found (File (marker_bytes (sample_env sample_archive))).
Proof.
  intros r. split; [by vm_compute|].
  assert (Hv : val_of r = None) by by vm_compute.
  split; [exact Hv|].
  destruct (Ensure_success (sample_env sample_archive) ctx_Background
              bare_disk Hv) as [[Hg _]|(_ & a & _ & _ & Hm & _)].
  - vm_compute in Hg. discriminate Hg.
  - exact Hm.
Defined.

Lemma Ensure_install_trace_witness :
  log_of (dashboardassets.Ensure (sample_env sample_archive) ctx_Background
            bare_disk)
  = [EvLogTime "dashboardassets.Ensure start";
     EvStat "/opt/assets/versions.json";
     EvMkdirAll "/opt/assets";
     EvOpenEmbedded "assets.tar.gz";
     EvLog Info "dashboardassets.extractTarGz start";
     EvMkdirAll "/opt/assets/a";
     EvStatus ("Extracting a/b.txt" ++ dashboardassets.ellipsis);
     EvCreate "/opt/assets/a/b.txt";
     EvCopy "/opt/assets/a/b.txt" "hi";
     EvLog Info "dashboardassets.extractTarGz end";
     EvWriteFile "/opt/assets/versions.json"
       (marker_bytes (sample_env sample_archive));
     EvLogTime "dashboardassets.Ensure end"].
Proof.
  rewrite (Ensure_install_trace (sample_env sample_archive) ctx_Background
             bare_disk sample_archive); [reflexivity|by vm_compute..].
Defined.

Lemma Ensure_errors_name_their_stage_witness :
  let env := mkEnv "1.2.3" "/opt/assets" "/opt/assets/versions.json" (λ _, None) in
  let r := dashboardassets.Ensure env ctx_Background bare_disk in
  val_of r
  = Some (sperr_WrapWithMessage (fs_ErrNotExist "assets.tar.gz")
            "could not open embedded dashboard assets archive")
  ∧ val_of (dashboardassets.installedAsstesMatchAppVersion env bare_disk) = false
  ∧ disk_of r = with_root env bare_disk
  ∧ stat (disk_of r) ["opt"; "assets"] = Found Dir.
Proof.
  intros env r.
  assert (Hv : val_of r
               = Some (sperr_WrapWithMessage (fs_ErrNotExist "assets.tar.gz")
                         "could not open embedded dashboard assets archive"))
    by by vm_compute.
  destruct (Ensure_errors_name_their_stage env ctx_Background bare_disk _ Hv)
    as [Hg [(_ & _ & Hd)|(a & cause & Ha & _)]]; [|discriminate Ha].
  split_and!; [exact Hv|exact Hg|exact Hd|]. fold r in Hd. rewrite Hd.
  by vm_compute.
Defined.

Lemma failed_Ensure_leaves_gate_closed_witness :
  let env := sample_env symlink_archive in
  let r := dashboardassets.Ensure env ctx_Background sample_disk in
  val_of r ≠ None
  ∧ val_of (dashboardassets.installedAsstesMatchAppVersion env (disk_of r))
    = false.
Proof.
  intros env r. split; [by vm_compute|].
  apply (failed_Ensure_leaves_gate_closed env ctx_Background sample_disk
           (sperr_WrapWithMessage
              (sperr_New "ExtractTarGz: uknown type: 110010 in a/link")
              "could not extract embedded dashboard assets archive"));
    [done| |by vm_compute].
  intros a r0 h Ha Hr Hh Hreg. vm_compute in Ha. injection Ha as <-.
  repeat (apply elem_of_cons in Hr as [->|Hr];
          [injection Hh as <-; by vm_compute|]).
  by apply elem_of_nil in Hr.
Defined.

Lemma other_version_is_detected_witness :
  let env := sample_env sample_archive in
  let env' := mkEnv "1.2.4" "/opt/assets" "/opt/assets/versions.json"
                (staticFS env) in
  val_of (dashboardassets.Ensure env ctx_Background sample_disk) = None
  ∧ val_of (dashboardassets.installedAsstesMatchAppVersion env'
              (disk_of (dashboardassets.Ensure env ctx_Background sample_disk)))
    = false.
Proof.
  intros env env'.
  assert (Hv : val_of (dashboardassets.Ensure env ctx_Background sample_disk)
               = None) by by vm_compute.
  split; [exact Hv|].
  apply (other_version_is_detected env env' ctx_Background sample_disk);
    [reflexivity|reflexivity|by vm_compute|exact Hv].
Defined.

Lemma Ensure_touches_only_its_own_witness :
  let r := dashboardassets.Ensure (sample_env sample_archive) ctx_Background
             sample_disk in
  val_of r = None
  ∧ stat (disk_of r) ["etc"] = Found Dir
  ∧ stat (disk_of r) ["etc"; "passwd"] = Missing ENOENT.
Proof.
  intros r.
  destruct (Ensure_touches_only_its_own (sample_env sample_archive)
              ctx_Background sample_disk) as (_ & Hq); [by vm_compute| |].
  { intros a r0 h Ha Hr Hh. vm_compute in Ha. injection Ha as <-.
    repeat (apply elem_of_cons in Hr as [->|Hr];
            [injection Hh as <-; by vm_compute|]).
    by apply elem_of_nil in Hr. }
  split; [by vm_compute|].
  split; (subst r; rewrite Hq; [by vm_compute| |]);
    intros [k Hk]; vm_compute in Hk; discriminate Hk.
Defined.

Lemma Ensure_archive_missing_witness :
  let env := mkEnv "1.2.3" "/opt/assets" "/opt/assets/versions.json" (λ _, None) in
  val_of (dashboardassets.Ensure env ctx_Background bare_disk)
  = Some (sperr_WrapWithMessage (fs_ErrNotExist "assets.tar.gz")
            "could not open embedded dashboard assets archive")
  ∧ stat (disk_of (dashboardassets.Ensure env ctx_Background bare_disk))
         ["opt"; "assets"] = Found Dir
  ∧ disk_of (dashboardassets.Ensure env ctx_Background sample_disk) = sample_disk.
Proof.
  intros env.
  destruct (Ensure_archive_missing env ctx_Background bare_disk)
    as (Hb & _); [by vm_compute|done|].
  destruct (Ensure_archive_missing env ctx_Background sample_disk)
    as (Hs & _ & _ & Hthere); [by vm_compute|done|].
  rewrite Hb, Hs. cbn [val_of disk_of].
  split_and!; [done|by vm_compute|]. apply Hthere. by vm_compute.
Defined.

Lemma Ensure_gzip_header_error_witness :
  let bad := mkArchive (Some (StreamError "gzip: invalid header")) [] in
  val_of (dashboardassets.Ensure (sample_env bad) ctx_Background bare_disk)
  = Some (sperr_WrapWithMessage (StreamError "gzip: invalid header")
            "could not extract embedded dashboard assets archive")
  ∧ stat (disk_of (dashboardassets.Ensure (sample_env bad) ctx_Background
                     bare_disk)) ["opt"; "assets"] = Found Dir.
Proof.
  intros bad.
  destruct (Ensure_gzip_header_error (sample_env bad) ctx_Background bare_disk
              bad (StreamError "gzip: invalid header"))
    as (_ & HE & _); [by vm_compute|done|done|].
  rewrite HE. cbn [val_of disk_of]. split; [done|by vm_compute].
Defined.

Lemma marker_write_failure_witness :
  let d := mkDisk (root bare_disk)
             {[ (OpOpenWrite, ["opt"; "assets"; "versions.json"]) ]} in
  let r := dashboardassets.Ensure (sample_env sample_archive) ctx_Background d in
  val_of r
  = Some (sperr_WrapWithMessage
            (sperr_WrapWithMessage
               (PathError "open" ["opt"; "assets"; "versions.json"] EIO)
               "could not write dashboard assets version file")
            "could not update dashboard assets version file")
  ∧ stat (disk_of r) ["opt"; "assets"; "a"; "b.txt"] = Found (File "hi").
Proof.
  intros d r.
  destruct (marker_write_failure (sample_env sample_archive) ctx_Background d
              sample_archive
              (PathError "open" ["opt"; "assets"; "versions.json"] EIO))
    as (Hv & Hq); [by vm_compute..|].
  split; [exact Hv|]. subst r. rewrite Hq; [by vm_compute|].
  intros [k Hk]. vm_compute in Hk. discriminate Hk.
Defined.

Lemma Ensure_leaves_root_witness :
  let env := sample_env symlink_archive in
  let r := dashboardassets.Ensure env ctx_Background bare_disk in
  stat bare_disk ["opt"; "assets"] = Missing ENOENT
  ∧ val_of r ≠ None
  ∧ stat (disk_of r) ["opt"; "assets"] = Found Dir.
Proof.
  intros env r. split; [by vm_compute|]. split; [by vm_compute|].
  apply (Ensure_leaves_root env ctx_Background bare_disk); by vm_compute.
Defined.

Lemma marker_file_bytes_witness :
  let u := dashboardassets.updateAssetVersionFile (sample_env sample_archive)
             corrupt_disk in
  plain "1.2.3" = true
  ∧ val_of u = None
  ∧ stat (disk_of u) ["opt"; "assets"; "versions.json"]
    = Found (File ("{" ++ String json.quote ("version" ++ String json.quote
               (":" ++ String json.quote ("1.2.3" ++ String json.quote "}"))))).
Proof.
  intros u. split; [reflexivity|].
  assert (Hv : val_of u = None) by by vm_compute.
  split; [exact Hv|].
  exact (marker_file_bytes (sample_env sample_archive) corrupt_disk eq_refl Hv).
Defined.

Lemma extraction_trace_witness :
  log_of (dashboardassets.extractTarGz ctx_Background sample_archive
            "/opt/assets" sample_disk)
  = [EvLog Info "dashboardassets.extractTarGz start";
     EvMkdirAll "/opt/assets/a";
     EvStatus ("Extracting a/b.txt" ++ dashboardassets.ellipsis);
     EvCreate "/opt/assets/a/b.txt";
     EvCopy "/opt/assets/a/b.txt" "hi";
     EvLog Info "dashboardassets.extractTarGz end"].
Proof.
  assert (Hv : val_of (dashboardassets.extractTarGz ctx_Background sample_archive
                         "/opt/assets" sample_disk) = None) by by vm_compute.
  rewrite (extraction_trace ctx_Background sample_archive "/opt/assets"
             sample_disk Hv).
  reflexivity.
Defined.

Lemma extraction_places_entries_witness :
  let x := dashboardassets.extractTarGz ctx_Background sample_archive
             "/opt/assets" sample_disk in
  val_of x = None
  ∧ stat (disk_of x) ["opt"; "assets"; "a"] = Found Dir
  ∧ stat (disk_of x) ["opt"; "assets"; "a"; "b.txt"] = Found (File "hi").
Proof.
  intros x.
  assert (Hv : val_of x = None) by by vm_compute.
  split; [exact Hv|]. split.
  - destruct (extraction_places_entries ctx_Background sample_archive
                "/opt/assets" sample_disk [] (tar.dir "a/")
                [tar.reg "a/b.txt" "hi"] (tar.mkHeader "a/" tar.TypeDir)
                Hv eq_refl eq_refl) as [Hdir _].
    exact (Hdir eq_refl).
  - destruct (extraction_places_entries ctx_Background sample_archive
                "/opt/assets" sample_disk [tar.dir "a/"] (tar.reg "a/b.txt" "hi")
                [] (tar.mkHeader "a/b.txt" tar.TypeReg)
                Hv eq_refl eq_refl) as [_ Hreg].
    destruct (Hreg eq_refl) as [_ Hbody]. apply Hbody.
    intros r' h' Hr'. by apply elem_of_nil in Hr'.
Defined.

Lemma extraction_idempotent_witness :
  let x1 := dashboardassets.extractTarGz ctx_Background sample_archive
              "/opt/assets" sample_disk in
  let x2 := dashboardassets.extractTarGz ctx_Background sample_archive
              "/opt/assets" (disk_of x1) in
  val_of x1 = None
  ∧ val_of x2 = None
  ∧ stat (disk_of x2) ["opt"; "assets"; "a"; "b.txt"] = Found (File "hi").
Proof.
  intros x1 x2.
  assert (Hv : val_of x1 = None) by by vm_compute.
  destruct (extraction_idempotent ctx_Background sample_archive "/opt/assets"
              sample_disk Hv) as (Hv2 & _ & Hq).
  split; [exact Hv|]. split; [exact Hv2|].
  subst x2. rewrite Hq. by vm_compute.
Defined.

Lemma extraction_errors_witness :
  ∃ r, r ∈ tar_records symlink_archive
       ∧ entry_error "/opt/assets" r
           (sperr_New "ExtractTarGz: uknown type: 110010 in a/link").
Proof.
  destruct (extraction_errors ctx_Background symlink_archive "/opt/assets"
              sample_disk
              (sperr_New "ExtractTarGz: uknown type: 110010 in a/link"))
    as [Hz|[_ Hr]]; [by vm_compute|discriminate Hz|exact Hr].
Defined.

Lemma stream_error_aborts_witness :
  let broken := tar.mkRecord None (Some (StreamError "unexpected EOF")) "" None in
  let a := mkArchive None [tar.reg "a.txt" "hi"; broken; tar.reg "c.txt" "zz"] in
  let x := dashboardassets.extractTarGz ctx_Background a "/opt/assets"
             sample_disk in
  val_of x = Some (StreamError "unexpected EOF")
  ∧ stat (disk_of x) ["opt"; "assets"; "a.txt"] = Found (File "hi")
  ∧ stat (disk_of x) ["opt"; "assets"; "c.txt"] = Missing ENOENT.
Proof.
  intros broken a x. subst x.
  rewrite (stream_error_aborts ctx_Background a "/opt/assets" sample_disk
             [tar.reg "a.txt" "hi"] broken [tar.reg "c.txt" "zz"]
             (StreamError "unexpected EOF"));
    [by vm_compute|done|done|by repeat constructor|done|done|by vm_compute].
Defined.

Lemma file_entry_succeeds_iff_witness :
  val_of (dashboardassets.extract_loop ctx_Background [tar.reg "b.txt" "hi"]
            "/opt/assets" sample_disk) = None
  ∧ val_of (dashboardassets.extract_loop ctx_Background
              [tar.reg "a/b.txt" "hi"] "/opt/assets" sample_disk) ≠ None.
Proof.
  split.
  - apply (file_entry_succeeds_iff ctx_Background "/opt/assets" sample_disk
             (tar.reg "b.txt" "hi") (tar.mkHeader "b.txt" tar.TypeReg));
      by vm_compute.
  - intros Hv.
    apply (file_entry_succeeds_iff ctx_Background "/opt/assets" sample_disk
             (tar.reg "a/b.txt" "hi") (tar.mkHeader "a/b.txt" tar.TypeReg))
      in Hv as (Hpar & _); [|done..].
    vm_compute in Hpar. discriminate Hpar.
Defined.

Lemma file_entry_needs_directory_witness :
  stat sample_disk ["opt"; "assets"; "a"] = Missing ENOENT
  ∧ dashboardassets.extract_loop ctx_Background [tar.reg "a/b.txt" "hi"]
      "/opt/assets" sample_disk
    = mkRun sample_disk
        [EvStatus ("Extracting a/b.txt" ++ dashboardassets.ellipsis);
         EvCreate "/opt/assets/a/b.txt"]
        (Some (PathError "open" ["opt"; "assets"; "a"; "b.txt"] ENOENT)).
Proof.
  split; [by vm_compute|].
  apply (file_entry_needs_directory ctx_Background "/opt/assets" sample_disk
           (tar.reg "a/b.txt" "hi") (tar.mkHeader "a/b.txt" tar.TypeReg) []
           ENOENT); by vm_compute.
Defined.

Lemma entry_kind_collision_witness :
  val_of (dashboardassets.extract_loop ctx_Background
            [tar.reg "assets" "x"] "/opt" sample_disk)
  = Some (PathError "open" ["opt"; "assets"] EISDIR)
  ∧ val_of (dashboardassets.extract_loop ctx_Background
              [tar.dir "versions.json/"] "/opt/assets" corrupt_disk)
    = Some (PathError "mkdir" ["opt"; "assets"; "versions.json"] ENOTDIR).
Proof.
  split.
  - destruct (entry_kind_collision ctx_Background "/opt" sample_disk
                (tar.reg "assets" "x") (tar.mkHeader "assets" tar.TypeReg) []
                eq_refl eq_refl) as [Hreg _].
    rewrite Hreg; [done|done|by vm_compute].
  - destruct (entry_kind_collision ctx_Background "/opt/assets" corrupt_disk
                (tar.dir "versions.json/")
                (tar.mkHeader "versions.json/" tar.TypeDir) []
                eq_refl eq_refl) as [_ Hdir].
    rewrite (Hdir eq_refl "1.2.3"); [done|by vm_compute].
Defined.

Lemma truncated_body_leaves_partial_file_witness :
  let r := tar.mkRecord (Some (tar.mkHeader "b.txt" tar.TypeReg)) None "par"
             (Some (StreamError "unexpected EOF")) in
  let x := dashboardassets.extract_loop ctx_Background [r] "/opt/assets"
             sample_disk in
  val_of x = Some (StreamError "unexpected EOF")
  ∧ stat (disk_of x) ["opt"; "assets"; "b.txt"] = Found (File "par").
Proof.
  intros r x.
  apply (truncated_body_leaves_partial_file ctx_Background "/opt/assets"
           sample_disk r (tar.mkHeader "b.txt" tar.TypeReg) []
           (StreamError "unexpected EOF")); by vm_compute.
Defined.

Lemma failed_write_leaves_empty_file_witness :
  let d := mkDisk (root corrupt_disk)
             {[ (OpWrite, ["opt"; "assets"; "versions.json"]) ]} in
  let x := dashboardassets.extract_loop ctx_Background
             [tar.reg "versions.json" "{}"] "/opt/assets" d in
  stat d ["opt"; "assets"; "versions.json"] = Found (File "1.2.3")
  ∧ val_of x = Some (PathError "write" ["opt"; "assets"; "versions.json"] EIO)
  ∧ stat (disk_of x) ["opt"; "assets"; "versions.json"] = Found (File "").
Proof.
  intros d x. split; [by vm_compute|].
  apply (failed_write_leaves_empty_file ctx_Background "/opt/assets" d
           (tar.reg "versions.json" "{}")
           (tar.mkHeader "versions.json" tar.TypeReg) [] "1.2.3");
    by vm_compute.
Defined.

Lemma MkdirAll_no_file_on_path_witness :
  let x := os.MkdirAll "/opt/assets/x/y" sample_disk in
  filepath.Clean "/opt/assets/x/y" = "/opt/assets/x/y"
  ∧ faults sample_disk = ∅
  ∧ val_of x = None
  ∧ stat (disk_of x) ["opt"; "assets"; "x"] = Found Dir
  ∧ stat (disk_of x) ["etc"] = Found Dir.
Proof.
  intros x.
  destruct (MkdirAll_no_file_on_path "/opt/assets/x/y" sample_disk)
    as (Hiff & Hdirs & Hkeeps); [done|reflexivity|reflexivity|].
  assert (Hv : val_of x = None) by by vm_compute.
  assert (Hfree : ∀ c, stat sample_disk ["opt"; "assets"] ≠ Found (File c)).
  { intros c. apply (proj1 Hiff Hv). by exists ["x"; "y"]. }
  split; [reflexivity|]. split; [done|]. split; [exact Hv|]. split.
  - apply (Hdirs Hv). by exists ["y"].
  - by apply Hkeeps.
Defined.

Lemma buildInstallSummary_up_to_date_witness :
  let installed : gmap string nat :=
    {[ "github.com/turbot/steampipe-mod-aws-compliance" := 1 ]} in
  let summary :=
    cmd.buildInstallSummary (λ _, false) "dry-run" sample_Pluralize
      (λ m : gmap string nat, m) (λ _ p, p) (λ t : string, t) in
  summary (Some (cmd.mkInstallModResponse (Some installed) "mod.local"))
  = Returns (cmd.newline ++ "Installed 1 mod:" ++ cmd.newline ++ cmd.newline
               ++ "mod.local" ++ cmd.newline)%string
  ∧ summary (Some (cmd.mkInstallModResponse (Some ∅) "mod.local"))
    = Returns "All mods are up to date".
Proof.
  intros installed summary. split.
  - destruct (buildInstallSummary_up_to_date (λ _, false) "dry-run"
                sample_Pluralize (λ m : gmap string nat, m) (λ _ p, p)
                (λ t : string, t)
                (cmd.mkInstallModResponse (Some installed) "mod.local")
                installed eq_refl) as (_ & Hsome & _).
    subst summary. rewrite Hsome; [by vm_compute|].
    apply map_size_non_empty_iff. by vm_compute.
  - destruct (buildInstallSummary_up_to_date (λ _, false) "dry-run"
                sample_Pluralize (λ m : gmap string nat, m) (λ _ p, p)
                (λ t : string, t)
                (cmd.mkInstallModResponse (Some ∅) "mod.local")
                ∅ eq_refl) as (Hiff & _).
    by apply Hiff.
Defined.

Lemma marker_read_back_witness :
  let u := dashboardassets.updateAssetVersionFile sample_utf8_env sample_disk in
  val_of u = None
  ∧ faulty sample_disk OpRead ["opt"; "assets"; "versions.json"] = false
  ∧ val_of (dashboardassets.loadReportAssetVersionFile sample_utf8_env (disk_of u))
    = inl (mkVersionFile (AppVersion_String sample_utf8_env))
  ∧ val_of (dashboardassets.installedAsstesMatchAppVersion sample_utf8_env
              (disk_of u)) = true.
Proof.
  intros u.
  assert (Hok : val_of u = None) by by vm_compute.
  assert (Hf : faulty sample_disk OpRead
                 (resolve (ReportAssetsVersionFilePath sample_utf8_env)) = false)
    by by vm_compute.
  destruct (marker_read_back sample_utf8_env sample_disk Hok Hf) as [Hl Hg].
  split_and!; [exact Hok|exact Hf|exact Hl|].
  apply Hg. by vm_compute.
Defined.

Lemma entry_target_witness :
  has_dotdot "/etc//./passwd/" = false
  ∧ target_of "/opt/assets" (tar.mkHeader "/etc//./passwd/" tar.TypeReg)
    = ["opt"; "assets"; "etc"; "passwd"].
Proof.
  split; [reflexivity|].
  exact (entry_target "/opt/assets"
           (tar.mkHeader "/etc//./passwd/" tar.TypeReg) eq_refl).
Defined.
